(** * MinerU Tianshu: image relocation, storage back ends and task polling

    A shallow embedding of the Python sources under
    [projects/mineru_tianshu]:

    - [api_server.py]: the storage back ends ([MinioStorage], [OSSStorage]),
      the factory [create_storage_backend], the forward relocation
      [process_markdown_images] and the endpoints [get_task_status] and
      [cancel_task];
    - [test_auto_upload_images.py] and [test_full_oss_workflow.py]: the
      extraction [extract_image_urls], [detect_storage_type],
      [parse_oss_url], the reverse relocation
      [download_images_from_storage], [TianshuClient.wait_for_task] and
      [generate_object_key];
    - [runpod_client_complete.py]: [RunPodClient.get_task_status],
      [RunPodClient.wait_for_completion] and
      [OSSUploader.generate_object_name];
    - [runpod_handler.py]: [MinerURunPodHandler.submit_task_to_api],
      [MinerURunPodHandler.process_task], the translation
      [_convert_api_response_to_runpod_format] and the outer
      [runpod_handler].

    Conventions.  A Python [str] is a list of characters; characters are
    8-bit code points (the Latin-1 range of [str]), which covers every
    character the link grammar inspects.  Library calls with an effect
    (file system, network, clock, [uuid4]) are oracles collected in records;
    exceptions are explicit results.  Library calls without effect ([re],
    [str] methods, [pathlib], [urllib.parse]) are modelled by functions that
    follow CPython 3.12 on a POSIX host. *)

From Stdlib Require Import PrimFloat.
From Stdlib Require Import Ascii String List ZArith Lia Bool Arith DecimalString.
Import ListNotations.

Set Implicit Arguments.

(** ** Text *)

Definition text := list ascii.

Definition txt (s : string) : text := list_ascii_of_string s.

Definition dquote : ascii := "034"%char.

Fixpoint text_eqb (a b : text) : bool :=
  match a, b with
  | [], [] => true
  | x :: a', y :: b' => Ascii.eqb x y && text_eqb a' b'
  | _, _ => false
  end.

(** [s.startswith(p)], returning what follows the prefix. *)
Fixpoint strip_prefix (p s : text) : option text :=
  match p with
  | [] => Some s
  | x :: p' =>
    match s with
    | [] => None
    | y :: s' => if Ascii.eqb x y then strip_prefix p' s' else None
    end
  end.

Definition startswith (p s : text) : bool :=
  match strip_prefix p s with Some _ => true | None => false end.

Definition endswith (p s : text) : bool := startswith (rev p) (rev s).

(** The longest prefix whose characters satisfy [f], and the rest. *)
Fixpoint span (f : ascii -> bool) (s : text) : text * text :=
  match s with
  | [] => ([], [])
  | c :: s' =>
    if f c then let (a, b) := span f s' in (c :: a, b) else ([], s)
  end.

Definition is_char (c : ascii) : ascii -> bool := fun x => Ascii.eqb x c.
Definition not_char (c : ascii) : ascii -> bool := fun x => negb (Ascii.eqb x c).

(** [c in s] for a single character. *)
Definition has_char (c : ascii) (s : text) : bool := existsb (is_char c) s.

(** [needle in s]. *)
Fixpoint contains (needle s : text) : bool :=
  startswith needle s ||
  match s with
  | [] => false
  | _ :: s' => contains needle s'
  end.

(** ** Scanning for non-overlapping matches, left to right

    [re.finditer], [re.sub] and [str.replace] all walk the text from the
    left, take the first position where the pattern matches, and resume
    after the match.  [match_at s] is the match anchored at the head of [s]:
    its payload and the number of characters it covers beyond the first (no
    pattern used here matches the empty string). *)

Section Scan.
Variable M : Type.
Variable match_at : text -> option (M * nat).

Inductive segment : Type :=
| Lit (c : ascii)
| Hit (m : M).

Fixpoint scan (skip : nat) (s : text) : list segment :=
  match s with
  | [] => []
  | c :: s' =>
    match skip with
    | S k => scan k s'
    | O =>
      match match_at s with
      | Some (m, k) => Hit m :: scan k s'
      | None => Lit c :: scan 0 s'
      end
    end
  end.

Fixpoint hits (l : list segment) : list M :=
  match l with
  | [] => []
  | Lit _ :: l' => hits l'
  | Hit m :: l' => m :: hits l'
  end.

(** [re.finditer(pattern, s)] as the list of its matches. *)
Definition finditer (s : text) : list M := hits (scan 0 s).

End Scan.

Arguments Lit {M} c.
Arguments Hit {M} m.

(** ** The two patterns of the link grammar *)

(** [\s] on a [str] pattern: the characters with [str.isspace()]. *)
Definition is_space (c : ascii) : bool :=
  let n := nat_of_ascii c in
  ((9 <=? n) && (n <=? 13)) || ((28 <=? n) && (n <=? 32)) ||
  (n =? 133) || (n =? 160).

Record md_match : Type := Md_match {
  md_group0 : text;   (* the whole match *)
  md_group1 : text;   (* alt text *)
  md_group2 : text    (* target *)
}.

(** The inline-image pattern [img_pattern] / [md_pattern] anchored at the
    head of [s]: an exclamation mark, a bracketed run without closing
    bracket (group 1), a parenthesised non-empty run without closing
    parenthesis (group 2).  Each greedy class is followed by the one
    character it excludes, so the longest run is the only candidate. *)
Definition md_match_at (s : text) : option (md_match * nat) :=
  match strip_prefix (txt "![") s with
  | Some s1 =>
    let (alt, s2) := span (not_char "]") s1 in
    match strip_prefix (txt "](") s2 with
    | Some s3 =>
      let (url, s4) := span (not_char ")") s3 in
      match url, strip_prefix (txt ")") s4 with
      | _ :: _, Some _ =>
        let whole := txt "![" ++ alt ++ txt "](" ++ url ++ txt ")" in
        Some (Md_match whole alt url, pred (List.length whole))
      | _, _ => None
      end
    | None => None
    end
  | None => None
  end.

Record html_match : Type := Html_match {
  html_group1 : text;          (* src *)
  html_group2 : option text    (* alt, None when the group did not take part *)
}.

(** The tail of [html_pattern], any run without [>] and then [>], anchored
    at the head of [s]: the text it covers. *)
Definition html_close (s : text) : option text :=
  let (t, r) := span (not_char ">") s in
  match strip_prefix (txt ">") r with
  | Some _ => Some (t ++ txt ">")
  | None => None
  end.

(** The optional group of [html_pattern], white space, [alt=] and a quoted
    run (group 2), anchored at the head of [s]: the text it covers, the
    group and the rest. *)
Definition html_alt_group (s : text) : option (text * text * text) :=
  let (ws, s1) := span is_space s in
  match ws with
  | [] => None
  | _ :: _ =>
    match strip_prefix (txt "alt=" ++ [dquote]) s1 with
    | Some s2 =>
      let (alt, s3) := span (not_char dquote) s2 in
      match strip_prefix [dquote] s3 with
      | Some s4 =>
        Some (ws ++ txt "alt=" ++ [dquote] ++ alt ++ [dquote], alt, s4)
      | None => None
      end
    | None => None
    end
  end.

(** [html_pattern] anchored at the head of [s]: [<img], white space, [src=]
    and a quoted non-empty run (group 1), the optional alt group, the tail.
    The optional group is tried first; when what follows it cannot match,
    the engine backtracks and leaves the group out. *)
Definition html_match_at (s : text) : option (html_match * nat) :=
  match strip_prefix (txt "<img") s with
  | Some s1 =>
    let (ws, s2) := span is_space s1 in
    match ws with
    | [] => None
    | _ :: _ =>
      match strip_prefix (txt "src=" ++ [dquote]) s2 with
      | Some s3 =>
        let (url, s4) := span (not_char dquote) s3 in
        match url, strip_prefix [dquote] s4 with
        | _ :: _, Some s5 =>
          let head :=
            txt "<img" ++ ws ++ txt "src=" ++ [dquote] ++ url ++ [dquote] in
          let without :=
            match html_close s5 with
            | Some t => Some (Html_match url None, pred (List.length (head ++ t)))
            | None => None
            end in
          match html_alt_group s5 with
          | Some (g, alt, s6) =>
            match html_close s6 with
            | Some t =>
              Some (Html_match url (Some alt), pred (List.length (head ++ g ++ t)))
            | None => without
            end
          | None => without
          end
        | _, _ => None
        end
      | None => None
      end
    end
  | None => None
  end.

(** ** Extraction ([extract_image_urls], and inlined in
    [download_images_to_local]) *)

Definition is_http_url (url : text) : bool :=
  startswith (txt "http://") url || startswith (txt "https://") url.

Definition or_empty (o : option text) : text :=
  match o with Some a => a | None => [] end.

Definition extract_image_urls (md_content : text) : list (text * text) :=
  let image_urls :=
    map (fun m => (or_empty (html_group2 m), html_group1 m))
        (finditer html_match_at md_content) in
  image_urls ++
  map (fun m => (md_group1 m, md_group2 m))
      (filter (fun m => is_http_url (md_group2 m))
              (finditer md_match_at md_content)).

(** ** [str] methods *)

Definition replace_match_at (old : text) (s : text) : option (unit * nat) :=
  match old with
  | [] => None
  | _ :: old' => if startswith old s then Some (tt, List.length old') else None
  end.

(** [s.replace(old, new)]. *)
Definition str_replace (old new s : text) : text :=
  match old with
  | [] => new ++ flat_map (fun c => c :: new) s
  | _ :: _ =>
    flat_map (fun g => match g with Lit c => [c] | Hit _ => new end)
             (scan (replace_match_at old) 0 s)
  end.

Fixpoint split_segments (l : list (segment unit)) : list text :=
  match l with
  | [] => [[]]
  | Lit c :: l' =>
    match split_segments l' with
    | p :: ps => (c :: p) :: ps
    | [] => [[c]]
    end
  | Hit _ :: l' => [] :: split_segments l'
  end.

(** [s.split(sep)] for a non-empty separator. *)
Definition str_split (sep s : text) : list text :=
  split_segments (scan (replace_match_at sep) 0 s).

(** [s.partition(c)[0]] and [s.partition(c)[2]] for a character [c]. *)
Definition before_char (c : ascii) (s : text) : text := fst (span (not_char c) s).
Definition after_char (c : ascii) (s : text) : text := tl (snd (span (not_char c) s)).

(** [s.rpartition(c)[2]]. *)
Definition after_last_char (c : ascii) (s : text) : text :=
  rev (fst (span (not_char c) (rev s))).

(** [s.lstrip(c)]. *)
Definition lstrip_char (c : ascii) (s : text) : text := snd (span (is_char c) s).

(** [str.lower] on the Latin-1 range. *)
Definition lower_char (c : ascii) : ascii :=
  let n := nat_of_ascii c in
  if ((65 <=? n) && (n <=? 90)) ||
     ((192 <=? n) && (n <=? 222) && negb (n =? 215))
  then ascii_of_nat (n + 32) else c.

Definition lower (s : text) : text := map lower_char s.

(** [str(n)] and the format [{n:03d}] for a natural number. *)
Definition decimal (n : nat) : text := txt (NilZero.string_of_uint (Nat.to_uint n)).

Definition decimal_03d (n : nat) : text :=
  let d := decimal n in repeat "0"%char (3 - List.length d) ++ d.

(** ** [pathlib] (POSIX flavour) *)

Fixpoint split_char (c : ascii) (s : text) : list text :=
  match s with
  | [] => [[]]
  | x :: s' =>
    if Ascii.eqb x c then [] :: split_char c s'
    else match split_char c s' with
         | p :: ps => (x :: p) :: ps
         | [] => [[x]]
         end
  end.

(** The components kept by [PurePosixPath]: empty ones and [.] are dropped. *)
Definition path_parts (p : text) : list text :=
  filter (fun x => negb (text_eqb x [] || text_eqb x (txt ".")))
         (split_char "/" p).

(** [Path(p).name]. *)
Definition path_name (p : text) : text := last (path_parts p) [].

(** The suffix of a final component [name]: from its last dot, when that
    dot is neither its first nor its last character. *)
Definition name_suffix (name : text) : text :=
  let (ext_rev, rest_rev) := span (not_char ".") (rev name) in
  match rest_rev, ext_rev with
  | _ :: _ :: _, _ :: _ => txt "." ++ rev ext_rev
  | _, _ => []
  end.

(** A path below a directory is kept as the pair of the directory and the
    final component [image_dir / name]; an empty component is the directory
    itself. *)
Definition fs_path : Type := (text * text)%type.

Definition joinpath (dir name : text) : fs_path := (dir, name).

(** [(dir / name).suffix]. *)
Definition path_suffix (p : fs_path) : text :=
  match snd p with
  | [] => name_suffix (path_name (fst p))
  | _ :: _ => name_suffix (snd p)
  end.

(** ** Results of calls that may raise *)

Inductive exn : Type := Exception (message : text).

Inductive result (A : Type) : Type :=
| Ok (a : A)
| Raise (e : exn).

Arguments Ok {A} a.
Arguments Raise {A} e.

(** ** [urllib.parse.urlparse]

    The model follows [urlsplit] and [urlparse] of CPython 3.12 on [str]
    input with the default arguments.  The validation of a bracketed host
    (done there with [ipaddress] and a pattern for IPvFuture literals) is
    the parameter [bracketed_host_ok].  The NFKC check of the network
    location cannot fail on Latin-1 text and is left out. *)

Record parse_result : Type := Parse_result {
  scheme : text;
  netloc : text;
  path : text;
  params : text;
  query : text;
  fragment : text
}.

Definition in_range (lo hi : nat) (c : ascii) : bool :=
  let n := nat_of_ascii c in (lo <=? n) && (n <=? hi).

Definition is_ascii_alpha (c : ascii) : bool := in_range 65 90 c || in_range 97 122 c.

Definition is_scheme_char (c : ascii) : bool :=
  is_ascii_alpha c || in_range 48 57 c ||
  is_char "+" c || is_char "-" c || is_char "." c.

Definition is_c0_or_space (c : ascii) : bool := in_range 0 32 c.

Definition is_unsafe_url_char (c : ascii) : bool :=
  is_char "009" c || is_char "010" c || is_char "013" c.

Definition uses_params : list text :=
  map txt [""; "ftp"; "hdl"; "prospero"; "http"; "imap"; "https"; "shttp";
           "rtsp"; "rtspu"; "sip"; "sips"; "mms"; "sftp"; "tel"]%string.

Definition split_scheme (url : text) : text * text :=
  let (pre, rest) := span (not_char ":") url in
  match pre, rest with
  | c :: _, _ :: after =>
    if is_ascii_alpha c && forallb is_scheme_char pre
    then (lower pre, after) else ([], url)
  | _, _ => ([], url)
  end.

Definition is_netloc_delim (c : ascii) : bool :=
  is_char "/" c || is_char "?" c || is_char "#" c.

Definition invalid_ipv6 : exn := Exception (txt "Invalid IPv6 URL").

Section Urlparse.
Variable bracketed_host_ok : text -> bool.

Definition check_bracketed_netloc (netloc : text) : result unit :=
  let hostname_and_port := after_last_char "@" netloc in
  let (before_bracket, rest) := span (not_char "[") hostname_and_port in
  match rest with
  | _ :: bracketed =>
    match before_bracket with
    | _ :: _ => Raise invalid_ipv6
    | [] =>
      let hostname := before_char "]" bracketed in
      let port := after_char "]" bracketed in
      match port with
      | c :: _ =>
        if is_char ":" c then
          if bracketed_host_ok hostname then Ok tt else Raise invalid_ipv6
        else Raise invalid_ipv6
      | [] => if bracketed_host_ok hostname then Ok tt else Raise invalid_ipv6
      end
    end
  | [] =>
    if bracketed_host_ok (before_char ":" hostname_and_port)
    then Ok tt else Raise invalid_ipv6
  end.

Definition split_netloc (url : text) : result (text * text) :=
  match strip_prefix (txt "//") url with
  | Some u =>
    let (netloc, rest) := span (fun c => negb (is_netloc_delim c)) u in
    let open := has_char "[" netloc in
    let close := has_char "]" netloc in
    if (open && negb close) || (close && negb open) then Raise invalid_ipv6
    else if open && close then
      match check_bracketed_netloc netloc with
      | Ok _ => Ok (netloc, rest)
      | Raise e => Raise e
      end
    else Ok (netloc, rest)
  | None => Ok ([], url)
  end.

Definition urlparse (url0 : text) : result parse_result :=
  let url1 := snd (span is_c0_or_space url0) in
  let url2 := filter (fun c => negb (is_unsafe_url_char c)) url1 in
  let (scheme, url3) := split_scheme url2 in
  match split_netloc url3 with
  | Raise e => Raise e
  | Ok (netloc, url4) =>
    let fragment := after_char "#" url4 in
    let url5 := before_char "#" url4 in
    let query := after_char "?" url5 in
    let url6 := before_char "?" url5 in
    let (path, params) :=
      if existsb (text_eqb scheme) uses_params && has_char ";" url6 then
        let seg := after_last_char "/" url6 in
        let dir := firstn (List.length url6 - List.length seg) url6 in
        if has_char ";" seg
        then (dir ++ before_char ";" seg, after_char ";" seg)
        else (url6, [])
      else (url6, []) in
    Ok (Parse_result scheme netloc path params query fragment)
  end.

End Urlparse.

(** [parsed.hostname], [None] when the host is empty. *)
Definition hostname (parsed : parse_result) : option text :=
  let hostinfo := after_last_char "@" (netloc parsed) in
  let h := if has_char "[" hostinfo
           then before_char "]" (after_char "[" hostinfo)
           else before_char ":" hostinfo in
  match h with
  | [] => None
  | _ :: _ => Some (lower (before_char "%" h) ++ snd (span (not_char "%") h))
  end.

(** ** Storage back ends ([api_server.py]) *)

Inductive StorageBackend : Type :=
| MinioStorage (endpoint bucket : text) (secure : bool)
| OSSStorage (endpoint bucket_name : text).

Definition get_url (self : StorageBackend) (object_name : text) : text :=
  match self with
  | MinioStorage endpoint _ secure =>
    let scheme := if secure then txt "https" else txt "http" in
    scheme ++ txt "://" ++ endpoint ++ txt "/" ++ object_name
  | OSSStorage endpoint bucket_name =>
    txt "https://" ++ bucket_name ++ txt "." ++ endpoint ++ txt "/" ++ object_name
  end.

(** [os.getenv(name, default)] is [getenv] below.  What the factory reads and calls: the process environment and the two
    client constructors, which may raise (a missing library, a rejected
    endpoint). *)
Record config : Type := Config {
  environ : string -> option text;
  minio_client : text -> text -> text -> bool -> result unit;
  oss2_bucket : text -> text -> text -> text -> result unit
}.

Definition getenv (env : string -> option text) (name : string)
    (default : text) : text :=
  match env name with
  | Some v => v
  | None => default
  end.

(** Truth value of a [str]. *)
Definition truthy (s : text) : bool :=
  match s with [] => false | _ :: _ => true end.

Definition create_storage_backend (c : config) : option StorageBackend :=
  let storage_type := lower (getenv (environ c) "STORAGE_TYPE" (txt "minio")) in
  if text_eqb storage_type (txt "minio") || text_eqb storage_type (txt "cos") then
    let endpoint := getenv (environ c) "MINIO_ENDPOINT" [] in
    let access_key := getenv (environ c) "MINIO_ACCESS_KEY" [] in
    let secret_key := getenv (environ c) "MINIO_SECRET_KEY" [] in
    let bucket := getenv (environ c) "MINIO_BUCKET" [] in
    let secure :=
      text_eqb (lower (getenv (environ c) "MINIO_SECURE" (txt "true"))) (txt "true") in
    if negb (forallb truthy [endpoint; access_key; secret_key; bucket]) then None
    else
      match minio_client c endpoint access_key secret_key secure with
      | Ok _ => Some (MinioStorage endpoint bucket secure)
      | Raise _ => None
      end
  else if text_eqb storage_type (txt "oss") then
    let endpoint := getenv (environ c) "OSS_ENDPOINT" [] in
    let access_key := getenv (environ c) "OSS_ACCESS_KEY" [] in
    let secret_key := getenv (environ c) "OSS_SECRET_KEY" [] in
    let bucket := getenv (environ c) "OSS_BUCKET" [] in
    if negb (forallb truthy [endpoint; access_key; secret_key; bucket]) then None
    else
      match oss2_bucket c endpoint access_key secret_key bucket with
      | Ok _ => Some (OSSStorage endpoint bucket)
      | Raise _ => None
      end
  else None.

(** ** Forward relocation ([process_markdown_images]) *)

(** The server host: the file system under the image directory, the
    sequence of values drawn from [uuid4], and the provider's answer to an
    upload ([Raise] when the client call raises). *)
Record host : Type := Host {
  path_exists : fs_path -> result bool;
  uuid4 : nat -> text;
  put_object : StorageBackend -> fs_path -> text -> result unit
}.

(** What a run changes: how many identifiers were drawn, and the objects
    stored so far, oldest first. *)
Record uploads : Type := Uploads {
  drawn : nat;
  stored : list (fs_path * text)
}.

Definition upload_file (h : host) (self : StorageBackend)
    (local_path : fs_path) (object_name : text) (st : uploads)
  : result text * uploads :=
  match put_object h self local_path object_name with
  | Ok _ =>
    (Ok (get_url self object_name),
     Uploads (drawn st) (stored st ++ [(local_path, object_name)]))
  | Raise e => (Raise e, st)
  end.

Definition img_tag (src alt : text) : text :=
  txt "<img src=" ++ [dquote] ++ src ++ [dquote] ++
  txt " alt=" ++ [dquote] ++ alt ++ [dquote] ++ txt ">".

Definition replace_image (h : host) (storage_backend : StorageBackend)
    (image_dir : text) (m : md_match) (st : uploads)
  : result text * uploads :=
  let alt_text := md_group1 m in
  let image_path := md_group2 m in
  let full_image_path := joinpath image_dir (path_name image_path) in
  match path_exists h full_image_path with
  | Raise e => (Raise e, st)
  | Ok true =>
    let file_extension := path_suffix full_image_path in
    let new_filename := uuid4 h (drawn st) ++ file_extension in
    let st1 := Uploads (S (drawn st)) (stored st) in
    let object_name := txt "images/" ++ new_filename in
    match upload_file h storage_backend full_image_path object_name st1 with
    | (Ok storage_url, st2) => (Ok (img_tag storage_url alt_text), st2)
    | (Raise _, st2) => (Ok (md_group0 m), st2)
    end
  | Ok false => (Ok (md_group0 m), st)
  end.

(** [re.sub(pattern, repl, s)] with a callable [repl] that may raise and
    that changes the state: the pieces are produced left to right, and an
    exception of [repl] leaves [re.sub] at once. *)
Section Sub.
Variables M St : Type.
Variable repl : M -> St -> result text * St.

Fixpoint sub_segments (l : list (segment M)) (st : St) : result text * St :=
  match l with
  | [] => (Ok [], st)
  | Lit c :: l' =>
    match sub_segments l' st with
    | (Ok t, st') => (Ok (c :: t), st')
    | (Raise e, st') => (Raise e, st')
    end
  | Hit m :: l' =>
    match repl m st with
    | (Ok r, st1) =>
      match sub_segments l' st1 with
      | (Ok t, st') => (Ok (r ++ t), st')
      | (Raise e, st') => (Raise e, st')
      end
    | (Raise e, st1) => (Raise e, st1)
    end
  end.

Definition re_sub (match_at : text -> option (M * nat)) (s : text) (st : St)
  : result text * St :=
  sub_segments (scan match_at 0 s) st.

End Sub.

(** The body of the [try] block. *)
Definition rewrite_images (h : host) (storage_backend : StorageBackend)
    (md_content image_dir : text) (st : uploads) : result text * uploads :=
  re_sub (replace_image h storage_backend image_dir) md_match_at md_content st.

Definition process_markdown_images (h : host)
    (storage_backend : option StorageBackend)
    (md_content image_dir : text) (upload_images : bool) (st : uploads)
  : text * uploads :=
  if negb upload_images then (md_content, st)
  else
    match storage_backend with
    | None => (md_content, st)
    | Some backend =>
      match rewrite_images h backend md_content image_dir st with
      | (Ok new_content, st') => (new_content, st')
      | (Raise _, st') => (md_content, st')
      end
    end.

(** ** Reverse relocation ([download_images_from_storage],
    [download_images_to_local]) *)

Inductive storage_type : Type := oss | cos | unknown.

Section Reverse.
Variable bracketed_host_ok : text -> bool.

Definition detect_storage_type (url : text) : result storage_type :=
  match urlparse bracketed_host_ok url with
  | Raise e => Raise e
  | Ok parsed =>
    let hostname := or_empty (hostname parsed) in
    if contains (txt "aliyuncs.com") hostname || contains (txt "oss-") hostname
    then Ok oss
    else if contains (txt "myqcloud.com") hostname || contains (txt ".cos.") hostname
    then Ok cos
    else Ok unknown
  end.

(** [(bucket, endpoint, object_key)], or [None] for the triple of [None]. *)
Definition parse_oss_url (url : text) : result (option (text * text * text)) :=
  match urlparse bracketed_host_ok url with
  | Raise e => Raise e
  | Ok parsed =>
    let hostname := or_empty (hostname parsed) in
    if contains (txt ".oss-") hostname then
      let parts := str_split (txt ".oss-") hostname in
      let bucket := nth 0 parts [] in
      let endpoint := txt "oss-" ++ nth 1 parts [] in
      let object_key := lstrip_char "/" (path parsed) in
      Ok (Some (bucket, endpoint, object_key))
    else Ok None
  end.

(** The client host.  The oracles of the loop take the position of the
    image in the list, so that two attempts on one URL may differ. *)
Record client : Type := Client {
  mkdir : text -> result unit;
  oss2_importable : bool;
  client_environ : string -> option text;
  get_object_to_file : nat -> text -> text -> text -> fs_path -> result unit;
  stat_size : nat -> fs_path -> result unit;
  session_get : nat -> text -> result nat;
  save_body : nat -> fs_path -> result unit
}.

Variable c : client.

Definition download_from_oss (i : nat) (url : text) (local_path : fs_path)
  : result bool :=
  if negb (oss2_importable c) then Ok false
  else
    match parse_oss_url url with
    | Raise e => Raise e
    | Ok None => Ok false
    | Ok (Some (bucket_name, endpoint, object_key)) =>
      if negb (forallb truthy [bucket_name; endpoint; object_key]) then Ok false
      else
        let access_key := getenv (client_environ c) "OSS_ACCESS_KEY" [] in
        let secret_key := getenv (client_environ c) "OSS_SECRET_KEY" [] in
        if negb (truthy access_key) || negb (truthy secret_key) then Ok false
        else
          match get_object_to_file c i bucket_name endpoint object_key local_path with
          | Ok _ => Ok true
          | Raise _ => Ok false
          end
    end.

Definition guess_ext (url : text) : text :=
  if endswith (txt ".jpg") url || endswith (txt ".jpeg") url then txt ".jpg"
  else if endswith (txt ".png") url then txt ".png"
  else if endswith (txt ".gif") url then txt ".gif"
  else txt ".png".

Definition local_filename (url : text) (downloaded_count : nat) : result text :=
  match urlparse bracketed_host_ok url with
  | Raise e => Raise e
  | Ok parsed =>
    let filename := path_name (path parsed) in
    if negb (truthy filename) || has_char "?" filename
    then Ok (txt "image_" ++ decimal_03d downloaded_count ++ guess_ext url)
    else Ok filename
  end.

(** The two replacements of the success branch. *)
Definition relink (url local_path content : text) : text :=
  let html_old := txt "<img src=" ++ [dquote] ++ url ++ [dquote] in
  let html_new := txt "<img src=" ++ [dquote] ++ local_path ++ [dquote] in
  let content1 := str_replace html_old html_new content in
  let md_old := txt "](" ++ url ++ txt ")" in
  let md_new := txt "](" ++ local_path ++ txt ")" in
  str_replace md_old md_new content1.

(** What the [try] block of one iteration computes: the file name and
    whether the image was fetched; [Raise] when it is left by an exception. *)
Definition fetch (images_dir : text) (i : nat) (url : text)
    (downloaded_count : nat) : result (text * bool) :=
  match detect_storage_type url with
  | Raise e => Raise e
  | Ok storage_type =>
    match local_filename url downloaded_count with
    | Raise e => Raise e
    | Ok filename =>
      let image_path := joinpath images_dir filename in
      match storage_type with
      | oss =>
        match download_from_oss i url image_path with
        | Raise e => Raise e
        | Ok false => Ok (filename, false)
        | Ok true =>
          match stat_size c i image_path with
          | Raise e => Raise e
          | Ok _ => Ok (filename, true)
          end
        end
      | _ =>
        match session_get c i url with
        | Raise e => Raise e
        | Ok status =>
          if status =? 200 then
            match save_body c i image_path with
            | Raise e => Raise e
            | Ok _ => Ok (filename, true)
            end
          else Ok (filename, false)
        end
      end
    end
  end.

Fixpoint download_loop (images_dir : text) (i : nat)
    (image_urls : list (text * text)) (updated_content : text)
    (downloaded_count : nat) : text * nat :=
  match image_urls with
  | [] => (updated_content, downloaded_count)
  | (alt_text, url) :: rest =>
    match fetch images_dir i url downloaded_count with
    | Ok (filename, true) =>
      let local_path := txt "images/" ++ filename in
      download_loop images_dir (S i) rest
        (relink url local_path updated_content) (S downloaded_count)
    | _ => download_loop images_dir (S i) rest updated_content downloaded_count
    end
  end.

(** [output_dir] is the text of a directory path other than the root. *)
Definition download_images_from_storage (md_content output_dir : text)
  : result (text * nat) :=
  let images_dir := output_dir ++ txt "/images" in
  match mkdir c images_dir with
  | Raise e => Raise e
  | Ok _ =>
    let image_urls := extract_image_urls md_content in
    match image_urls with
    | [] => Ok (md_content, 0)
    | _ :: _ => Ok (download_loop images_dir 0 image_urls md_content 0)
    end
  end.

(** [test_full_oss_workflow.py] repeats the function above with the
    extraction written out in its body. *)
Definition download_images_to_local := download_images_from_storage.

End Reverse.

(** ** JSON values and dictionaries *)

Local Unset Elimination Schemes.

Inductive json : Type :=
| JNull
| JBool (b : bool)
| JNum (n : Z)
| JStr (s : text)
| JList (l : list json)
| JDict (d : list (text * json)).

Local Set Elimination Schemes.

Fixpoint lookup (A : Type) (key : text) (d : list (text * A)) : option A :=
  match d with
  | [] => None
  | (k, v) :: d' => if text_eqb k key then Some v else lookup key d'
  end.

(** [d[key] = v] on a dictionary. *)
Fixpoint dict_set (A : Type) (key : text) (v : A) (d : list (text * A))
  : list (text * A) :=
  match d with
  | [] => [(key, v)]
  | (k, x) :: d' =>
    if text_eqb k key then (k, v) :: d' else (k, x) :: dict_set key v d'
  end.

(** [d.update(other)]. *)
Definition dict_update (A : Type) (d other : list (text * A)) : list (text * A) :=
  fold_left (fun acc kv => dict_set (fst kv) (snd kv) acc) other d.

Definition attribute_error : exn := Exception (txt "AttributeError").
Definition key_error : exn := Exception (txt "KeyError").
Definition type_error : exn := Exception (txt "TypeError").

(** [x.get(key, default)]: only a dictionary has the method. *)
Definition json_get (x : json) (key : string) (default : json) : result json :=
  match x with
  | JDict d =>
    match lookup (txt key) d with
    | Some v => Ok v
    | None => Ok default
    end
  | _ => Raise attribute_error
  end.

(** [x[key]] for a string key. *)
Definition json_item (x : json) (key : string) : result json :=
  match x with
  | JDict d =>
    match lookup (txt key) d with
    | Some v => Ok v
    | None => Raise key_error
    end
  | _ => Raise type_error
  end.

(** [x == 'literal']. *)
Definition is_str (x : json) (literal : string) : bool :=
  match x with
  | JStr s => text_eqb s (txt literal)
  | _ => false
  end.

(** Truth value of a decoded JSON value. *)
Definition json_truthy (x : json) : bool :=
  match x with
  | JNull => false
  | JBool b => b
  | JNum n => negb (n =? 0)%Z
  | JStr s => truthy s
  | JList l => match l with [] => false | _ :: _ => true end
  | JDict d => match d with [] => false | _ :: _ => true end
  end.

Definition decimal_Z (n : Z) : text := txt (NilZero.string_of_int (Z.to_int n)).

(** ** Waiting for a task: the three polling loops

    [TianshuClient.wait_for_task] counts its elapsed time in Python floats:
    it starts from [0.0], adds the interval after every poll and compares
    with the timeout, all in binary64; the model does the same with the
    binary64 numbers of [PrimFloat].  The handler counts in integers, and
    the clock readings of [RunPodClient.wait_for_completion] are integers
    in one fixed unit.  The sleep between two polls takes time and changes
    nothing else; it has no counterpart in the model.  A loop that Python
    runs until its condition fails takes a bound [fuel] on its iterations
    and yields [None] when the bound is reached first. *)

(** What a wait ends with when it raises. *)
Inductive wait_error : Type :=
| Task_failed (error_message : json)
| Task_cancelled
| Timeout_error (timeout : float)
| Propagated (e : exn).

Inductive wait_result : Type :=
| Returned (snapshot : json)
| Raised (e : wait_error).

Module TianshuClient.

Section Wait.
(** The answer to the k-th status query. *)
Variable get_task_status : nat -> result json.
Variables poll_interval timeout : float.

Fixpoint wait_loop (fuel k : nat) (elapsed : float) : option wait_result :=
  match fuel with
  | O => None
  | S fuel' =>
    if (elapsed <? timeout)%float then
      match get_task_status k with
      | Raise e => Some (Raised (Propagated e))
      | Ok result =>
        match json_item result "status" with
        | Raise e => Some (Raised (Propagated e))
        | Ok status =>
          if is_str status "completed" then Some (Returned result)
          else if is_str status "failed" then
            match json_get result "error_message" (JStr (txt "Unknown error")) with
            | Ok error => Some (Raised (Task_failed error))
            | Raise e => Some (Raised (Propagated e))
            end
          else if is_str status "cancelled" then Some (Raised Task_cancelled)
          else wait_loop fuel' (S k) (elapsed + poll_interval)%float
        end
      end
    else Some (Raised (Timeout_error timeout))
  end.

Definition wait_for_task (fuel : nat) : option wait_result :=
  wait_loop fuel 0 0%float.

End Wait.

End TianshuClient.

Module RunPodClient.

Section Wait.
(** The answer to the k-th status query and the k-th reading of the clock. *)
Variable get_task_status : nat -> result json.
Variable time : nat -> Z.
Variable timeout : Z.

Definition timeout_record : json :=
  JDict [(txt "status", JStr (txt "TIMEOUT"));
         (txt "message",
          JStr (txt "Task timed out after " ++ decimal_Z timeout ++ txt " seconds"))].

Fixpoint wait_loop (fuel k : nat) : option json :=
  match fuel with
  | O => None
  | S fuel' =>
    if (time (S k) - time 0 <? timeout)%Z then
      match get_task_status k with
      | Raise _ => wait_loop fuel' (S k)
      | Ok status =>
        match json_get status "status" JNull with
        | Raise _ => wait_loop fuel' (S k)
        | Ok st =>
          if is_str st "COMPLETED" then Some status
          else if is_str st "FAILED" then Some status
          else wait_loop fuel' (S k)
        end
      end
    else Some timeout_record
  end.

Definition wait_for_completion (fuel : nat) : option json := wait_loop fuel 0.

End Wait.

End RunPodClient.

(** ** The pass-through handler ([runpod_handler.py]) *)

Module MinerURunPodHandler.

(** An HTTP response: the status line and the two ways the body is read. *)
Record response : Type := Response {
  status : nat;
  body_text : result text;
  body_json : result json
}.

(** What is raised inside [submit_task_to_api] and [process_task]; the
    message of the exception is its rendering. *)
Inductive error : Type :=
| Object_name_required
| Api_submission_failed (status : nat) (error_text : text)
| No_task_id
| Status_check_failed (status : nat)
| Remote_task_failed (error_msg : json)
| Unknown_task_status (status : json)
| Task_timeout (max_wait_time : Z)
| Other (e : exn).

(** A value of the outer envelope. *)
Inductive value : Type :=
| VJson (j : json)
| VDuration (d : Z)
| VError (e : error).

Definition envelope : Type := list (text * value).

(** The handler's surroundings: the worker id, the clock, the two
    endpoints of the internal service, and the translation of a completed
    snapshot ([_convert_api_response_to_runpod_format], whose field by field
    work is left open: it may return any envelope or raise). *)
Record service : Type := Service {
  worker_id : text;
  time : nat -> Z;
  session_post : json -> result response;
  session_get : nat -> result response;
  convert_api_response : json -> envelope + error
}.

Section Handler.
Variable self : service.

Definition max_wait_time : Z := 300.
Definition poll_interval : Z := 2.

Fixpoint poll_loop (fuel k : nat) (waited_time : Z) : option (envelope + error) :=
  match fuel with
  | O => None
  | S fuel' =>
    if (waited_time <? max_wait_time)%Z then
      match session_get self k with
      | Raise e => Some (inr (Other e))
      | Ok status_response =>
        if negb (status status_response =? 200) then
          Some (inr (Status_check_failed (status status_response)))
        else
          match body_json status_response with
          | Raise e => Some (inr (Other e))
          | Ok status_data =>
            match json_get status_data "status" JNull with
            | Raise e => Some (inr (Other e))
            | Ok st =>
              if is_str st "completed" then
                Some (convert_api_response self status_data)
              else if is_str st "failed" then
                match json_get status_data "error_message"
                               (JStr (txt "Unknown error")) with
                | Ok error_msg => Some (inr (Remote_task_failed error_msg))
                | Raise e => Some (inr (Other e))
                end
              else if is_str st "pending" || is_str st "processing" then
                poll_loop fuel' (S k) (waited_time + poll_interval)%Z
              else Some (inr (Unknown_task_status st))
            end
          end
      end
    else Some (inr (Task_timeout max_wait_time))
  end.

Definition submit_task_to_api (fuel : nat) (task_params : json)
  : option (envelope + error) :=
  match session_post self task_params with
  | Raise e => Some (inr (Other e))
  | Ok response =>
    if negb (status response =? 200) then
      match body_text response with
      | Ok error_text =>
        Some (inr (Api_submission_failed (status response) error_text))
      | Raise e => Some (inr (Other e))
      end
    else
      match body_json response with
      | Raise e => Some (inr (Other e))
      | Ok submit_result =>
        match json_get submit_result "task_id" JNull with
        | Raise e => Some (inr (Other e))
        | Ok task_id =>
          if negb (json_truthy task_id) then Some (inr No_task_id)
          else poll_loop fuel 0 0%Z
        end
      end
  end.

(** [d.get(key, default)] on the event, a dictionary by its type. *)
Definition event_get (event : list (text * json)) (key : string) (default : json)
  : json :=
  match lookup (txt key) event with
  | Some v => v
  | None => default
  end.

(** The body of the [try] block up to the call of the service: the
    request parameters, or the exception raised while reading the input. *)
Definition api_params_of (event : list (text * json)) : json + error :=
  let input_data := event_get event "input" (JDict []) in
  match json_get input_data "object_name" JNull with
  | Raise e => inr (Other e)
  | Ok object_name =>
    if negb (json_truthy object_name) then inr Object_name_required
    else
      let get key default :=
        match json_get input_data key default with
        | Ok v => v
        | Raise _ => default
        end in
      let file_name := get "file_name"%string JNull in
      let api_params :=
        [(txt "object_name", object_name);
         (txt "backend", get "backend"%string (JStr (txt "pipeline")));
         (txt "lang", get "lang"%string (JStr (txt "ch")));
         (txt "method", get "method"%string (JStr (txt "auto")));
         (txt "formula_enable", get "formula_enable"%string (JBool true));
         (txt "table_enable", get "table_enable"%string (JBool true));
         (txt "priority", get "priority"%string (JNum 0))] in
      inl (JDict (if json_truthy file_name
                  then dict_set (txt "file_name") file_name api_params
                  else api_params))
  end.

Definition failure_envelope (e : error) (processing_time : Z)
    (runpod_task_id : json) : envelope :=
  [(txt "success", VJson (JBool false));
   (txt "error", VError e);
   (txt "processing_time", VDuration processing_time);
   (txt "worker_id", VJson (JStr (worker_id self)));
   (txt "runpod_task_id", VJson runpod_task_id)].

(** [process_task]: [inl] is the returned envelope, [inr] an exception that
    leaves the function.  The log lines after the update read the envelope
    and cannot raise on what the translation builds. *)
Definition process_task (fuel : nat) (event : list (text * json))
  : option (envelope + error) :=
  let start_time := time self 0 in
  let runpod_task_id :=
    event_get event "id" (JStr (txt "runpod-" ++ decimal_Z (time self 1))) in
  let attempt :=
    match api_params_of event with
    | inr e => Some (inr e)
    | inl api_params => submit_task_to_api fuel api_params
    end in
  match attempt with
  | None => None
  | Some (inl result) =>
    let processing_time := (time self 2 - start_time)%Z in
    Some (inl (dict_update result
      [(txt "processing_time", VDuration processing_time);
       (txt "worker_id", VJson (JStr (worker_id self)));
       (txt "runpod_task_id", VJson runpod_task_id);
       (txt "api_task_id",
        match lookup (txt "task_id") result with
        | Some v => v
        | None => VJson JNull
        end)]))
  | Some (inr e) =>
    let processing_time := (time self 2 - start_time)%Z in
    Some (inl (failure_envelope e processing_time runpod_task_id))
  end.

End Handler.

End MinerURunPodHandler.

(** ** Markup with a known list of image references

    The markup written for a list of items: runs of plain text, inline
    images and raw tags.  Plain text, alt texts and targets avoid the
    delimiters of the link grammar, and a target is not empty. *)

Inductive item : Type :=
| Plain (t : text)
| Inline (alt target : text)
| Tag (alt target : text).

Definition inline_image (alt target : text) : text :=
  txt "![" ++ alt ++ txt "](" ++ target ++ txt ")".

Definition render_item (i : item) : text :=
  match i with
  | Plain t => t
  | Inline alt target => inline_image alt target
  | Tag alt target => img_tag target alt
  end.

Definition render (items : list item) : text := flat_map render_item items.

Definition delimiter (c : ascii) : bool :=
  is_char "!" c || is_char "[" c || is_char "]" c || is_char "(" c ||
  is_char ")" c || is_char "<" c || is_char ">" c || is_char dquote c.

Definition plain (t : text) : bool := forallb (fun c => negb (delimiter c)) t.

Definition wf_item (i : item) : bool :=
  match i with
  | Plain t => plain t
  | Inline alt target | Tag alt target => plain alt && plain target && truthy target
  end.

Definition wf (items : list item) : bool := forallb wf_item items.

(** The references of each syntax, in document order. *)
Fixpoint inlines (items : list item) : list (text * text) :=
  match items with
  | [] => []
  | Inline alt target :: r => (alt, target) :: inlines r
  | _ :: r => inlines r
  end.

Fixpoint tags (items : list item) : list (text * text) :=
  match items with
  | [] => []
  | Tag alt target :: r => (alt, target) :: tags r
  | _ :: r => tags r
  end.

(** All references of either syntax, in document order. *)
Fixpoint references (items : list item) : list (text * text) :=
  match items with
  | [] => []
  | Plain _ :: r => references r
  | Inline alt target :: r | Tag alt target :: r => (alt, target) :: references r
  end.

(** The pieces into which each scan cuts the markup of an item. *)
Definition md_pieces (i : item) : list (segment md_match) :=
  match i with
  | Inline alt target => [Hit (Md_match (inline_image alt target) alt target)]
  | _ => map Lit (render_item i)
  end.

Definition html_pieces (i : item) : list (segment html_match) :=
  match i with
  | Tag alt target => [Hit (Html_match target (Some alt))]
  | _ => map Lit (render_item i)
  end.

(** The text a list of pieces of the inline-image scan stands for. *)
Definition original (l : list (segment md_match)) : text :=
  flat_map (fun g => match g with Lit c => [c] | Hit m => md_group0 m end) l.

(** The item with every reference to [url] pointed at [local_path]. *)
Definition retarget (url local_path : text) (i : item) : item :=
  match i with
  | Plain t => Plain t
  | Inline alt target =>
    Inline alt (if text_eqb target url then local_path else target)
  | Tag alt target =>
    Tag alt (if text_eqb target url then local_path else target)
  end.

Definition retarget_tag (url local_path : text) (i : item) : item :=
  match i with
  | Tag alt target => retarget url local_path i
  | _ => i
  end.

Definition retarget_inline (url local_path : text) (i : item) : item :=
  match i with
  | Inline alt target => retarget url local_path i
  | _ => i
  end.

(** A text put in front of the text a run returns. *)
Definition prepend (St : Type) (p : text) (r : result text * St) : result text * St :=
  match r with
  | (Ok t, st) => (Ok (p ++ t), st)
  | (Raise e, st) => (Raise e, st)
  end.

(** What forward relocation writes for one item. *)
Definition forward_piece (h : host) (storage_backend : StorageBackend)
    (image_dir : text) (i : item) (st : uploads) : result text * uploads :=
  match i with
  | Inline alt target =>
    replace_image h storage_backend image_dir
                  (Md_match (inline_image alt target) alt target) st
  | _ => (Ok (render_item i), st)
  end.

(** ** Settings the factory requires *)

(** The settings the factory requires for the selected storage type;
    [None] when the type is unknown. *)
Definition required_settings (c : config) : option (list string) :=
  let storage_type := lower (getenv (environ c) "STORAGE_TYPE" (txt "minio")) in
  if text_eqb storage_type (txt "minio") || text_eqb storage_type (txt "cos")
  then Some ["MINIO_ENDPOINT"; "MINIO_ACCESS_KEY"; "MINIO_SECRET_KEY";
             "MINIO_BUCKET"]%string
  else if text_eqb storage_type (txt "oss")
  then Some ["OSS_ENDPOINT"; "OSS_ACCESS_KEY"; "OSS_SECRET_KEY";
             "OSS_BUCKET"]%string
  else None.

(** A setting is missing when it is unset or empty. *)
Definition missing (c : config) (name : string) : bool :=
  match environ c name with
  | None => true
  | Some v => negb (truthy v)
  end.

(** ** Names the vendor accepts

    A bucket name is made of lower-case letters, digits and hyphens; an
    endpoint starts with [oss-], goes on with such labels separated by dots
    and has no further [.oss-]; an object key has none of the characters at
    which a URL is cut or cleaned, and does not start with a slash. *)

Definition label_char (c : ascii) : bool :=
  in_range 97 122 c || in_range 48 57 c || is_char "-" c.

Definition host_char (c : ascii) : bool := label_char c || is_char "." c.

Definition key_char (c : ascii) : bool :=
  negb (is_char "#" c || is_char "?" c || is_char ";" c || is_unsafe_url_char c).

Definition oss_bucket_ok (bucket : text) : bool := forallb label_char bucket.

Definition oss_endpoint_ok (endpoint : text) : bool :=
  match strip_prefix (txt "oss-") endpoint with
  | Some r => forallb host_char r && negb (contains (txt ".oss-") r)
  | None => false
  end.

Definition object_key_ok (key : text) : bool :=
  forallb key_char key && negb (startswith (txt "/") key).

(** ** Polls that leave a wait running *)

(** The elapsed time of [TianshuClient.wait_for_task] after [n] more
    polls: the interval added [n] times to [elapsed], in binary64. *)
Fixpoint elapsed_after (poll_interval elapsed : float) (n : nat) : float :=
  match n with
  | O => elapsed
  | S n' => elapsed_after poll_interval (elapsed + poll_interval)%float n'
  end.

(** A status query after which [TianshuClient.wait_for_task] sleeps and
    polls again: it returned a snapshot whose status is none of the three
    the loop acts on. *)
Definition tianshu_running (r : result json) : bool :=
  match r with
  | Ok result =>
    match json_item result "status" with
    | Ok status =>
      negb (is_str status "completed" || is_str status "failed" ||
            is_str status "cancelled")
    | Raise _ => false
    end
  | Raise _ => false
  end.

(** A status query after which [RunPodClient.wait_for_completion] sleeps
    and polls again: it raised, or its answer is neither COMPLETED nor
    FAILED. *)
Definition runpod_running (r : result json) : bool :=
  match r with
  | Ok status =>
    match json_get status "status" JNull with
    | Ok st => negb (is_str st "COMPLETED" || is_str st "FAILED")
    | Raise _ => true
    end
  | Raise _ => true
  end.

(** A status query after which the handler sleeps and polls again: status
    line 200 and a snapshot that is pending or processing. *)
Definition handler_running (r : result MinerURunPodHandler.response) : bool :=
  match r with
  | Ok status_response =>
    (MinerURunPodHandler.status status_response =? 200) &&
    match MinerURunPodHandler.body_json status_response with
    | Ok status_data =>
      match json_get status_data "status" JNull with
      | Ok st => is_str st "pending" || is_str st "processing"
      | Raise _ => false
      end
    | Raise _ => false
    end
  | Raise _ => false
  end.

(** A sequence of answers given by its first answer and the rest. *)
Definition scons (A : Type) (x : A) (f : nat -> A) : nat -> A :=
  fun n => match n with O => x | S k => f k end.

Definition snapshot (status : string) : json :=
  JDict [(txt "status", JStr (txt status))].

(** ** Example surroundings *)

Definition demo_backend : StorageBackend :=
  OSSStorage (txt "oss-cn-shanghai.aliyuncs.com") (txt "bucket").

(** Every file exists but [missing.png]; looking at [locked.png] raises;
    every upload succeeds but that of [bad.png]. *)
Definition demo_host : host :=
  Host (fun p => if text_eqb (snd p) (txt "locked.png")
                 then Raise (Exception (txt "PermissionError"))
                 else Ok (negb (text_eqb (snd p) (txt "missing.png"))))
       (fun n => txt "id" ++ decimal n)
       (fun _ p _ => if text_eqb (snd p) (txt "bad.png")
                     then Raise (Exception (txt "upload failed"))
                     else Ok tt).

Definition demo_dir : text := txt "/tmp/out/images".

Definition no_uploads : uploads := Uploads 0 [].

Definition doc_mixed : list item :=
  [Inline (txt "a") (txt "http://h/a.png"); Tag (txt "b") (txt "http://h/b.png")].

Definition doc_relative : list item := [Inline (txt "a") (txt "images/a.png")].

Definition doc_same_target : list item :=
  [Inline (txt "a") (txt "images/p.png"); Inline (txt "b") (txt "images/p.png")].

Definition doc_tag_only : list item := [Tag (txt "x") (txt "images/p.png")].

Definition doc_upload_fails : list item :=
  [Inline (txt "a") (txt "images/p.png"); Inline (txt "b") (txt "images/bad.png");
   Plain (txt " and "); Inline (txt "c") (txt "images/q.png")].

Definition doc_locked : list item :=
  [Inline (txt "a") (txt "images/p.png"); Inline (txt "b") (txt "images/locked.png")].

Definition doc_remote : list item :=
  [Inline (txt "a") (txt "http://minio.local/images/a.png");
   Tag (txt "b") (txt "https://bucket.oss-cn-shanghai.aliyuncs.com/images/b.png")].

(** No storage setting at all. *)
Definition empty_config : config :=
  Config (fun _ => None) (fun _ _ _ _ => Ok tt) (fun _ _ _ _ => Ok tt).

(** A client on which no image can be fetched: every request is answered
    with status 404 and the vendor library is not installed. *)
Definition failing_client : client :=
  Client (fun _ => Ok tt) false (fun _ => None)
         (fun _ _ _ _ _ => Raise (Exception (txt "unreachable")))
         (fun _ _ => Ok tt) (fun _ _ => Ok 404) (fun _ _ => Ok tt).

Definition connection_reset : exn := Exception (txt "ClientConnectionError").

(** A service whose first status query fails in transport and whose second
    reports the task completed. *)
Definition flaky_queries : nat -> result json :=
  scons (Raise connection_reset) (fun _ => Ok (snapshot "completed")).

Definition flaky_runpod_queries : nat -> result json :=
  scons (Raise connection_reset) (fun _ => Ok (snapshot "COMPLETED")).

(** A service that reports the task pending eight times and completed from
    then on. *)
Definition slow_queries : nat -> result json :=
  fun k => Ok (snapshot (if k <? 8 then "pending" else "completed")).

(** An interval of a tenth and a timeout of eight tenths of a second, as
    Python reads the literals [0.1] and [0.8]. *)
Definition a_tenth : float := 0x1.999999999999ap-4%float.
Definition eight_tenths : float := 0x1.999999999999ap-1%float.

Definition cancelled_queries : nat -> result MinerURunPodHandler.response :=
  fun _ => Ok (MinerURunPodHandler.Response 200 (Ok []) (Ok (snapshot "cancelled"))).

(** An internal service that turns every submission down with status 503. *)
Definition refusing_service : MinerURunPodHandler.service :=
  MinerURunPodHandler.Service (txt "worker-1")
    (fun n => (1000 + 7 * Z.of_nat n)%Z)
    (fun _ => Ok (MinerURunPodHandler.Response 503 (Ok (txt "busy"))
                    (Raise (Exception (txt "not JSON")))))
    (fun _ => Raise connection_reset)
    (fun _ => inl []).

Definition cancelled_service : MinerURunPodHandler.service :=
  MinerURunPodHandler.Service (txt "worker-1")
    (fun n => (1000 + 7 * Z.of_nat n)%Z)
    (fun _ => Ok (MinerURunPodHandler.Response 200 (Ok [])
                    (Ok (JDict [(txt "task_id", JStr (txt "t-1"))]))))
    cancelled_queries
    (fun _ => inl []).

Definition demo_event : list (text * json) :=
  [(txt "id", JStr (txt "job-1"));
   (txt "input", JDict [(txt "object_name", JStr (txt "documents/sample.pdf"))])].

(** * More of the code *)

(** ** The handler's translation of a completed snapshot
    ([_convert_api_response_to_runpod_format])

    An exception value carries the name of its class; the interpreter's
    wording of its message is not modelled. *)

Definition newline : ascii := "010"%char.

(** A lazy [.*?] followed by more of the pattern: [strip] is the next
    literal and [k] what comes after it.  The shortest run is tried first
    and lengthened by one character, never a line feed, while the rest does
    not match. *)
Fixpoint lazy_then (A : Type) (strip : text -> option text)
    (k : text -> option A) (s : text) : option A :=
  match (match strip s with Some r => k r | None => None end) with
  | Some x => Some x
  | None =>
    match s with
    | [] => None
    | c :: s' => if is_char newline c then None else lazy_then strip k s'
    end
  end.

(** A literal under [re.IGNORECASE]; the literal is in lower case. *)
Fixpoint strip_prefix_ci (p s : text) : option text :=
  match p with
  | [] => Some s
  | x :: p' =>
    match s with
    | [] => None
    | y :: s' => if Ascii.eqb x (lower_char y) then strip_prefix_ci p' s' else None
    end
  end.

Definition covered (s rest : text) : nat := pred (List.length s - List.length rest).

(** The first counting pattern, an exclamation mark, a bracketed lazy run
    and a parenthesised lazy run, anchored at the head of [s]. *)
Definition count_pattern1_at (s : text) : option (unit * nat) :=
  match strip_prefix (txt "![") s with
  | Some s1 =>
    match lazy_then (strip_prefix (txt "]("))
                    (lazy_then (strip_prefix (txt ")")) (@Some text)) s1 with
    | Some rest => Some (tt, covered s rest)
    | None => None
    end
  | None => None
  end.

(** The second counting pattern, [<img], a lazy run, [src=], a lazy run and
    [>], anchored at the head of [s]. *)
Definition count_pattern2_at (s : text) : option (unit * nat) :=
  match strip_prefix_ci (txt "<img") s with
  | Some s1 =>
    match lazy_then (strip_prefix_ci (txt "src="))
                    (lazy_then (strip_prefix (txt ">")) (@Some text)) s1 with
    | Some rest => Some (tt, covered s rest)
    | None => None
    end
  | None => None
  end.

(** The loop over [image_patterns] on a string. *)
Definition count_images (content : text) : nat :=
  List.length (finditer count_pattern1_at content) +
  List.length (finditer count_pattern2_at content).

(** [len(x)]. *)
Definition json_len (x : json) : result nat :=
  match x with
  | JStr s => Ok (List.length s)
  | JList l => Ok (List.length l)
  | JDict d => Ok (List.length d)
  | _ => Raise type_error
  end.

(** [d.get(key)] and [d.get(key, default)] on a dictionary. *)
Definition dict_get (d : list (text * json)) (key : string) (default : json) : json :=
  match lookup (txt key) d with
  | Some v => v
  | None => default
  end.

Definition vjson (j : json) : MinerURunPodHandler.value := MinerURunPodHandler.VJson j.

(** The count of the image references of a truthy content. *)
Definition image_count_of (content : json) : result nat :=
  if json_truthy content then
    match content with
    | JStr s => Ok (count_images s)
    | _ => Raise type_error
    end
  else Ok 0.

Definition result_files_of (data : list (text * json)) (image_count : nat)
  : list json :=
  dict_get data "markdown_file" (JStr (txt "output.md")) ::
  (if json_truthy (dict_get data "has_images" (JBool false))
   then map (fun i => JStr (txt "images/img_" ++ decimal (i + 1) ++ txt ".png"))
            (seq 0 (Nat.min image_count 10))
   else []).

(** The body of the [try] block on a dictionary. *)
Definition convert_body (api_response : list (text * json))
  : result MinerURunPodHandler.envelope :=
  let result :=
    [(txt "success", vjson (JBool true));
     (txt "task_id", vjson (dict_get api_response "task_id" JNull));
     (txt "file_name", vjson (dict_get api_response "file_name" JNull));
     (txt "status", vjson (dict_get api_response "status" JNull));
     (txt "backend", vjson (dict_get api_response "backend" JNull));
     (txt "created_at", vjson (dict_get api_response "created_at" JNull));
     (txt "completed_at", vjson (dict_get api_response "completed_at" JNull));
     (txt "worker_id", vjson (dict_get api_response "worker_id" JNull))] in
  match dict_get api_response "data" JNull with
  | JDict (kv :: data') =>
    let data := kv :: data' in
    let content := dict_get data "content" (JStr []) in
    match json_len content with
    | Raise e => Raise e
    | Ok content_length =>
      let result1 :=
        dict_update result
          [(txt "content", vjson content);
           (txt "content_length", vjson (JNum (Z.of_nat content_length)));
           (txt "markdown_file", vjson (dict_get data "markdown_file" JNull));
           (txt "images_uploaded",
            vjson (dict_get data "images_uploaded" (JBool false)));
           (txt "has_images", vjson (dict_get data "has_images" (JBool false)))] in
      match image_count_of content with
      | Raise e => Raise e
      | Ok image_count =>
        let result2 :=
          dict_set (txt "image_count") (vjson (JNum (Z.of_nat image_count))) result1 in
        Ok (dict_set (txt "result_files")
                     (vjson (JList (result_files_of data image_count))) result2)
      end
    end
  | _ =>
    Ok (dict_update result
          [(txt "content", vjson (JStr []));
           (txt "content_length", vjson (JNum 0));
           (txt "image_count", vjson (JNum 0));
           (txt "result_files", vjson (JList []));
           (txt "markdown_file", vjson JNull)])
  end.

(** [inl] is the dictionary returned, [inr] an exception that leaves the
    function (only a response that is no dictionary has none of the methods
    the handler of the [except] clause calls). *)
Definition _convert_api_response_to_runpod_format (api_response : json)
  : MinerURunPodHandler.envelope + MinerURunPodHandler.error :=
  match api_response with
  | JDict d =>
    match convert_body d with
    | Ok result => inl result
    | Raise e =>
      inl [(txt "success", vjson (JBool false));
           (txt "error",
            MinerURunPodHandler.VError (MinerURunPodHandler.Other e));
           (txt "task_id", vjson (dict_get d "task_id" JNull));
           (txt "status", vjson (dict_get d "status" (JStr (txt "unknown"))))]
    end
  | _ => inr (MinerURunPodHandler.Other attribute_error)
  end.

(** ** The outer handler ([runpod_handler]) *)

Definition health_record (self : MinerURunPodHandler.service) (api_url : text)
  : MinerURunPodHandler.envelope :=
  [(txt "status", vjson (JStr (txt "healthy")));
   (txt "worker_id", vjson (JStr (MinerURunPodHandler.worker_id self)));
   (txt "api_url", vjson (JStr api_url));
   (txt "mode", vjson (JStr (txt "async_passthrough")))].

(** The health check reads the action of the input before any [try]
    block. *)
Definition runpod_handler (self : MinerURunPodHandler.service) (api_url : text)
    (fuel : nat) (event : list (text * json))
  : option (MinerURunPodHandler.envelope + MinerURunPodHandler.error) :=
  match json_get (MinerURunPodHandler.event_get event "input" (JDict []))
                 "action" JNull with
  | Raise e => Some (inr (MinerURunPodHandler.Other e))
  | Ok action =>
    if is_str action "health" then Some (inl (health_record self api_url))
    else MinerURunPodHandler.process_task self fuel event
  end.

(** ** The client's status query ([RunPodClient.get_task_status])

    What [requests.get] gives: an exception, or a status code with the
    decoded body (decoding may raise).  [raise_for_status] raises for the
    codes from 400 to 599 and returns for every other code, and the method
    then ends without a value. *)

Definition http_error : exn := Exception (txt "HTTPError").

Definition runpod_get_task_status (reply : result (nat * result json))
  : result json :=
  match reply with
  | Raise e => Raise e
  | Ok (status_code, body) =>
    if status_code =? 200 then body
    else if (400 <=? status_code) && (status_code <? 600) then Raise http_error
    else Ok JNull
  end.

(** ** The status and cancel endpoints ([get_task_status], [cancel_task] of
    [api_server.py])

    The task store is outside the sources; what the endpoints ask of it is
    a parameter.  A row of the store has the columns the endpoints read; its
    status and the path of the uploaded file are strings, its result path a
    string or [None]. *)

Record task_row : Type := Task_row {
  task_status : text;
  task_file_name : json;
  task_file_path : text;
  task_backend : json;
  task_priority : json;
  task_error_message : json;
  task_created_at : json;
  task_started_at : json;
  task_completed_at : json;
  task_worker_id : json;
  task_retry_count : json;
  task_result_path : option text
}.

(** The server's surroundings: the task store and the result directories.
    A Markdown file found below a directory is the pair of its parent
    directory (other than the root) and its name. *)
Record server : Type := Server {
  get_task : text -> option task_row;
  update_task_status : text -> text -> result unit;
  dir_exists : text -> result bool;
  rglob_md : text -> result (list (text * text));
  read_text : text * text -> result text;
  file_exists : text -> result bool;
  unlink : text -> result unit
}.

(** How a request ends: a response, an [HTTPException], or an exception no
    handler of the endpoint catches. *)
Inductive http_result (A : Type) : Type :=
| Http_ok (a : A)
| Http_exception (status_code : nat) (detail : text)
| Uncaught (e : exn).

Arguments Http_ok {A} a.
Arguments Http_exception {A} status_code detail.
Arguments Uncaught {A} e.

Definition status_response (task_id : text) (task : task_row) : list (text * json) :=
  [(txt "success", JBool true);
   (txt "task_id", JStr task_id);
   (txt "status", JStr (task_status task));
   (txt "file_name", task_file_name task);
   (txt "backend", task_backend task);
   (txt "priority", task_priority task);
   (txt "error_message", task_error_message task);
   (txt "created_at", task_created_at task);
   (txt "started_at", task_started_at task);
   (txt "completed_at", task_completed_at task);
   (txt "worker_id", task_worker_id task);
   (txt "retry_count", task_retry_count task)].

Definition cleaned_up_message : text :=
  txt "Task completed but result files have been cleaned up (older than retention period)".

(** The body of the [try] block of the status query: the [data] record. *)
Definition load_data (srv : server) (h : host)
    (storage_backend : option StorageBackend) (md_file : text * text)
    (upload_images : bool) (st : uploads) : result json * uploads :=
  match read_text srv md_file with
  | Raise e => (Raise e, st)
  | Ok md_content0 =>
    let image_dir := fst md_file ++ txt "/images" in
    let processed : result text * uploads :=
      if upload_images then
        match dir_exists srv image_dir with
        | Raise e => (Raise e, st)
        | Ok true =>
          let (c, st') := process_markdown_images h storage_backend md_content0
                            image_dir upload_images st in
          (Ok c, st')
        | Ok false => (Ok md_content0, st)
        end
      else (Ok md_content0, st) in
    match processed with
    | (Raise e, st') => (Raise e, st')
    | (Ok md_content, st') =>
      let has_images : result json :=
        if negb upload_images then
          match dir_exists srv image_dir with
          | Ok b => Ok (JBool b)
          | Raise e => Raise e
          end
        else Ok JNull in
      match has_images with
      | Raise e => (Raise e, st')
      | Ok hi =>
        (Ok (JDict [(txt "markdown_file", JStr (snd md_file));
                    (txt "content", JStr md_content);
                    (txt "images_uploaded", JBool upload_images);
                    (txt "has_images", hi)]), st')
      end
    end
  end.

Definition get_task_status (srv : server) (h : host)
    (storage_backend : option StorageBackend) (task_id : text)
    (upload_images : bool) (st : uploads)
  : http_result (list (text * json)) * uploads :=
  match get_task srv task_id with
  | None => (Http_exception 404 (txt "Task not found"), st)
  | Some task =>
    let response := status_response task_id task in
    if text_eqb (task_status task) (txt "completed") then
      match task_result_path task with
      | None | Some [] =>
        (Http_ok (dict_set (txt "message") (JStr cleaned_up_message)
                    (dict_set (txt "data") JNull response)), st)
      | Some (c :: p) =>
        let result_dir := c :: p in
        match dir_exists srv result_dir with
        | Raise e => (Uncaught e, st)
        | Ok false => (Http_ok response, st)
        | Ok true =>
          match rglob_md srv result_dir with
          | Raise e => (Uncaught e, st)
          | Ok [] => (Http_ok response, st)
          | Ok (md_file :: _) =>
            match load_data srv h storage_backend md_file upload_images st with
            | (Ok data, st') => (Http_ok (dict_set (txt "data") data response), st')
            | (Raise _, st') => (Http_ok (dict_set (txt "data") JNull response), st')
            end
          end
        end
      end
    else (Http_ok response, st)
  end.

(** What [cancel_task] does to the store and the disk, in order. *)
Inductive effect : Type :=
| Status_updated (task_id status : text)
| Unlinked (file_path : text).

Definition cancel_task (srv : server) (task_id : text)
  : http_result (list (text * json)) * list effect :=
  match get_task srv task_id with
  | None => (Http_exception 404 (txt "Task not found"), [])
  | Some task =>
    if text_eqb (task_status task) (txt "pending") then
      match update_task_status srv task_id (txt "cancelled") with
      | Raise e => (Uncaught e, [])
      | Ok _ =>
        let done := [Status_updated task_id (txt "cancelled")] in
        let file_path := task_file_path task in
        let answer :=
          Http_ok [(txt "success", JBool true);
                   (txt "message", JStr (txt "Task cancelled successfully"))] in
        match file_exists srv file_path with
        | Raise e => (Uncaught e, done)
        | Ok false => (answer, done)
        | Ok true =>
          match unlink srv file_path with
          | Raise e => (Uncaught e, done)
          | Ok _ => (answer, done ++ [Unlinked file_path])
          end
        end
      end
    else
      (Http_exception 400
         (txt "Cannot cancel task in " ++ task_status task ++ txt " status"), [])
  end.

(** Items whose alt texts and targets stay on one line. *)
Definition single_line (t : text) : bool :=
  forallb (fun c => negb (is_char newline c)) t.

Definition one_line_item (i : item) : bool :=
  match i with
  | Plain _ => true
  | Inline alt target | Tag alt target => single_line alt && single_line target
  end.

Definition one_line (items : list item) : bool := forallb one_line_item items.

(** A completed snapshot with the given content. *)
Definition completed_snapshot (task_id : text) (content : json) (has_images : json)
  : list (text * json) :=
  [(txt "task_id", JStr task_id);
   (txt "status", JStr (txt "completed"));
   (txt "worker_id", JStr (txt "gpu-0"));
   (txt "data", JDict [(txt "markdown_file", JStr (txt "doc.md"));
                       (txt "content", content);
                       (txt "images_uploaded", JBool false);
                       (txt "has_images", has_images)])].

(** The handler as the source has it: the translation is its own method. *)
Definition handler_of (worker_id : text) (time : nat -> Z)
    (session_post : json -> result MinerURunPodHandler.response)
    (session_get : nat -> result MinerURunPodHandler.response)
  : MinerURunPodHandler.service :=
  MinerURunPodHandler.Service worker_id time session_post session_get
    _convert_api_response_to_runpod_format.

(** The names [process_task] forwards to the internal service. *)
Definition forwarded_keys : list text :=
  [txt "object_name"; txt "backend"; txt "lang"; txt "method";
   txt "formula_enable"; txt "table_enable"; txt "priority"; txt "file_name"].

(** An internal service that accepts the submission and reports the task
    completed, with the given content, at the first status query. *)
Definition completing_service (content : text) : MinerURunPodHandler.service :=
  handler_of (txt "worker-1")
    (fun n => (1000 + 7 * Z.of_nat n)%Z)
    (fun _ => Ok (MinerURunPodHandler.Response 200 (Ok [])
                    (Ok (JDict [(txt "task_id", JStr (txt "t-1"))]))))
    (fun _ => Ok (MinerURunPodHandler.Response 200 (Ok [])
                    (Ok (JDict (completed_snapshot (txt "t-1") (JStr content)
                                  (JBool true)))))).

Definition health_event : list (text * json) :=
  [(txt "input", JDict [(txt "action", JStr (txt "health"))])].

(** The status queries of a wait, from the replies of the service. *)
Definition status_queries (reply : nat -> result (nat * result json))
  : nat -> result json :=
  fun k => runpod_get_task_status (reply k).

(** A service that answers 503 once and then reports the task completed. *)
Definition busy_then_completed : nat -> result (nat * result json) :=
  scons (Ok (503, Ok JNull)) (fun _ => Ok (200, Ok (snapshot "COMPLETED"))).

(** A task of the store with the given status and result directory. *)
Definition demo_task (status : string) (result_path : option text) : task_row :=
  Task_row (txt status) (JStr (txt "sample.pdf")) (txt "/tmp/upload-1.pdf")
           (JStr (txt "pipeline")) (JNum 0) JNull
           (JStr (txt "2025-01-01T00:00:00")) JNull JNull (JStr (txt "gpu-0"))
           (JNum 0) result_path.

(** A server with one task, [t-1]; its result directory holds one Markdown
    file beside an image directory, and the uploaded file cannot be
    removed. *)
Definition demo_server (status : string) (content : text) : server :=
  Server (fun task_id => if text_eqb task_id (txt "t-1")
                         then Some (demo_task status (Some (txt "/out/t-1")))
                         else None)
         (fun _ _ => Ok tt)
         (fun _ => Ok true)
         (fun d => Ok [(d ++ txt "/sample/auto", txt "sample.md")])
         (fun _ => Ok content)
         (fun _ => Ok true)
         (fun _ => Raise (Exception (txt "PermissionError"))).

(** ** The images fetched in a run

    The targets fetched by the iterations of the loop of reverse relocation,
    in order, each with the name of its local file: an iteration fetches its
    image when the body of its [try] block ends in the success branch, and
    it sees the number of images fetched before it. *)
Fixpoint fetched (ok : text -> bool) (c : client) (images_dir : text) (i : nat)
    (image_urls : list (text * text)) (downloaded_count : nat)
  : list (text * text) :=
  match image_urls with
  | [] => []
  | (alt_text, url) :: rest =>
    match fetch ok c images_dir i url downloaded_count with
    | Ok (filename, true) =>
      (url, filename) :: fetched ok c images_dir (S i) rest (S downloaded_count)
    | _ => fetched ok c images_dir (S i) rest downloaded_count
    end
  end.


(** ** Markup that differs in targets only *)

(** A target below the local image directory. *)
Definition is_local (target : text) : bool := startswith (txt "images/") target.

(** The second item is the first one, except that the target of a
    reference may have become a local one. *)
Definition same_but_target (i i' : item) : Prop :=
  match i, i' with
  | Plain t, Plain t' => t = t'
  | Inline alt target, Inline alt' target'
  | Tag alt target, Tag alt' target' =>
    alt = alt' /\ (target' = target \/ is_local target' = true)
  | _, _ => False
  end.

(** What forward relocation makes of an item: the item itself, or, of an
    inline image, a tag with its alt text that points at an object of the
    back end stored under [images/], named by a drawn identifier and the
    suffix of the file. *)
Definition forwarded (h : host) (b : StorageBackend) (image_dir : text)
    (i i' : item) : Prop :=
  i' = i \/
  exists alt target k,
    i = Inline alt target /\
    i' = Tag alt (get_url b (txt "images/" ++ uuid4 h k ++
                             path_suffix (joinpath image_dir (path_name target)))).

(** ** Names of stored images

    The last component of an object key as the server builds it: not empty,
    not [.], without a slash and without the characters at which a URL is
    cut or cleaned. *)
Definition image_name_ok (name : text) : bool :=
  forallb key_char name && negb (has_char "/" name) &&
  truthy name && negb (text_eqb name (txt ".")).

(** A client with the vendor library and credentials, on which every
    download of the vendor succeeds. *)
Definition vendor_client : client :=
  Client (fun _ => Ok tt) true
         (fun name => if String.eqb name "OSS_ACCESS_KEY" then Some (txt "ak")
                      else if String.eqb name "OSS_SECRET_KEY" then Some (txt "sk")
                      else None)
         (fun _ _ _ _ _ => Ok tt)
         (fun _ _ => Ok tt) (fun _ _ => Ok 404) (fun _ _ => Ok tt).

(** ** Object names chosen by the clients
    ([generate_object_key] of [test_full_oss_workflow.py],
    [OSSUploader.generate_object_name] of [runpod_client_complete.py]) *)

(** [Path(p).stem] of a final component. *)
Definition path_stem (name : text) : text :=
  firstn (List.length name - List.length (name_suffix name)) name.

(** [timestamp] is the formatted reading of the clock. *)
Definition generate_object_key (timestamp local_path prefix : text) : text :=
  let filename := path_name local_path in
  if truthy prefix then prefix ++ txt "/" ++ timestamp ++ txt "_" ++ filename
  else timestamp ++ txt "_" ++ filename.

(** [file_hash] is the first eight digits of the digest of the file, or the
    exception raised while reading it. *)
Definition generate_object_name (file_hash : result text)
    (local_path prefix : text) : result text :=
  let local_file := path_name local_path in
  match file_hash with
  | Raise e => Raise e
  | Ok file_hash =>
    Ok (prefix ++ txt "/" ++ path_stem local_file ++ txt "_" ++ file_hash ++
        name_suffix local_file)
  end.

(** A configuration that names the vendor and all its settings. *)
Definition vendor_config : config :=
  Config (fun name =>
            if String.eqb name "STORAGE_TYPE" then Some (txt "OSS")
            else if String.eqb name "OSS_ENDPOINT"
            then Some (txt "oss-cn-shanghai.aliyuncs.com")
            else if String.eqb name "OSS_ACCESS_KEY" then Some (txt "ak")
            else if String.eqb name "OSS_SECRET_KEY" then Some (txt "sk")
            else if String.eqb name "OSS_BUCKET" then Some (txt "bucket")
            else None)
         (fun _ _ _ _ => Ok tt) (fun _ _ _ _ => Ok tt).

(** ** What a wait ended with

    The outcome of [TianshuClient.wait_for_task] in terms of the answers of
    the service and of the elapsed time: the query that decided, or the
    check of the elapsed time that failed. *)
Definition tianshu_outcome (get : nat -> result json)
    (poll_interval timeout : float) (k : nat) (elapsed : float)
    (r : wait_result) : Prop :=
  match r with
  | Returned result =>
    exists j st,
      k <= j /\
      (elapsed_after poll_interval elapsed (j - k) <? timeout)%float = true /\
      get j = Ok result /\ json_item result "status" = Ok st /\
      is_str st "completed" = true
  | Raised (Task_failed error) =>
    exists j result st,
      k <= j /\ get j = Ok result /\ json_item result "status" = Ok st /\
      is_str st "failed" = true /\
      json_get result "error_message" (JStr (txt "Unknown error")) = Ok error
  | Raised Task_cancelled =>
    exists j result st,
      k <= j /\ get j = Ok result /\ json_item result "status" = Ok st /\
      is_str st "cancelled" = true
  | Raised (Timeout_error t) =>
    t = timeout /\
    exists j,
      k <= j /\
      (elapsed_after poll_interval elapsed (j - k) <? timeout)%float = false
  | Raised (Propagated e) =>
    exists j,
      k <= j /\
      (get j = Raise e \/
       exists result, get j = Ok result /\ json_item result "status" = Raise e)
  end.

(** ** Upload followed by download

    What the two relocations make of written markup when every image file
    is found, every upload and every download succeeds.  Identifiers are
    drawn in document order, starting at [n]. *)

(** The key under which the image of an inline reference is stored. *)
Definition object_key (h : host) (image_dir : text) (n : nat) (target : text)
  : text :=
  txt "images/" ++ uuid4 h n ++ path_suffix (joinpath image_dir (path_name target)).

(** After forward relocation: every inline image is a tag at the URL of its
    object. *)
Fixpoint uploaded (h : host) (b : StorageBackend) (image_dir : text) (n : nat)
    (items : list item) : list item :=
  match items with
  | [] => []
  | Inline alt target :: r =>
    Tag alt (get_url b (object_key h image_dir n target)) ::
    uploaded h b image_dir (S n) r
  | i :: r => i :: uploaded h b image_dir n r
  end.

(** The objects stored on the way, oldest first. *)
Fixpoint uploaded_objects (h : host) (image_dir : text) (n : nat)
    (items : list item) : list (fs_path * text) :=
  match items with
  | [] => []
  | Inline alt target :: r =>
    (joinpath image_dir (path_name target), object_key h image_dir n target) ::
    uploaded_objects h image_dir (S n) r
  | _ :: r => uploaded_objects h image_dir n r
  end.

(** After reverse relocation: every such tag points at the key of its
    object, as a path below the output directory. *)
Fixpoint downloaded (h : host) (image_dir : text) (n : nat) (items : list item)
  : list item :=
  match items with
  | [] => []
  | Inline alt target :: r =>
    Tag alt (object_key h image_dir n target) :: downloaded h image_dir (S n) r
  | i :: r => i :: downloaded h image_dir n r
  end.

(** A reference to a URL that starts with [base], pointed at the rest of
    the URL. *)
Definition localize (base : text) (i : item) : item :=
  match i with
  | Plain t => Plain t
  | Inline alt target =>
    match strip_prefix base target with
    | Some key => Inline alt key
    | None => i
    end
  | Tag alt target =>
    match strip_prefix base target with
    | Some key => Tag alt key
    | None => i
    end
  end.

(** What the URLs of a vendor back end start with. *)
Definition vendor_base (endpoint bucket : text) : text :=
  txt "https://" ++ bucket ++ txt "." ++ endpoint ++ txt "/".

(** The names under which the images of a document are stored are fit for a
    URL and for written markup. *)
Definition stored_names_ok (h : host) (image_dir : text) (items : list item)
  : Prop :=
  forall n alt target,
    In (alt, target) (inlines items) ->
    let name := uuid4 h n ++ path_suffix (joinpath image_dir (path_name target)) in
    image_name_ok name = true /\ plain name = true.

(** A server host on which every file is found and every upload succeeds;
    the identifiers it draws are all the same. *)
Definition willing_host : host :=
  Host (fun _ => Ok true) (fun _ => txt "c0ffee") (fun _ _ _ => Ok tt).

(** * Properties *)

Unset Implicit Arguments.

(** ** Text and scanning *)

Lemma text_eqb_eq (a b : text) : text_eqb a b = true <-> a = b.
Proof.
  revert b; induction a as [|x a IH]; intros [|y b]; simpl; split;
    try congruence; try reflexivity.
  - rewrite andb_true_iff, Ascii.eqb_eq, IH. intros [-> ->]; reflexivity.
  - intros H; injection H as -> ->.
    rewrite Ascii.eqb_refl. simpl. apply IH. reflexivity.
Qed.

Lemma text_eqb_refl (a : text) : text_eqb a a = true.
Proof. apply text_eqb_eq. reflexivity. Qed.

Lemma strip_prefix_app (p s : text) : strip_prefix p (p ++ s) = Some s.
Proof.
  induction p as [|x p IH]; simpl; [reflexivity|].
  rewrite Ascii.eqb_refl. exact IH.
Qed.

Lemma strip_prefix_Some (p s r : text) : strip_prefix p s = Some r -> s = p ++ r.
Proof.
  revert s; induction p as [|x p IH]; intros s; simpl.
  - congruence.
  - destruct s as [|y s]; [discriminate|].
    destruct (Ascii.eqb x y) eqn:E; [|discriminate].
    apply Ascii.eqb_eq in E. subst y. intros H. rewrite (IH _ H). reflexivity.
Qed.

Lemma span_app (f : ascii -> bool) (a : text) (c : ascii) (s : text) :
  forallb f a = true -> f c = false -> span f (a ++ c :: s) = (a, c :: s).
Proof.
  intros Ha Hc. induction a as [|x a IH]; simpl in *.
  - rewrite Hc. reflexivity.
  - apply andb_true_iff in Ha as [Hx Ha]. rewrite Hx, (IH Ha). reflexivity.
Qed.

Lemma span_all (f : ascii -> bool) (a : text) :
  forallb f a = true -> span f a = (a, []).
Proof.
  intros Ha. induction a as [|x a IH]; simpl in *; [reflexivity|].
  apply andb_true_iff in Ha as [Hx Ha]. rewrite Hx, (IH Ha). reflexivity.
Qed.

Lemma span_eq (f : ascii -> bool) (s : text) :
  fst (span f s) ++ snd (span f s) = s.
Proof.
  induction s as [|x s IH]; simpl; [reflexivity|].
  destruct (f x); [|reflexivity].
  destruct (span f s) as [a b]. simpl in *. rewrite IH. reflexivity.
Qed.

Lemma forallb_impl (f g : ascii -> bool) (a : text) :
  (forall c, f c = true -> g c = true) ->
  forallb f a = true -> forallb g a = true.
Proof.
  intros H. induction a as [|x a IH]; simpl; [reflexivity|].
  rewrite !andb_true_iff. intros [Hx Ha]. split; auto.
Qed.

Section ScanFacts.
Variable M : Type.
Variable match_at : text -> option (M * nat).

Lemma scan_skip (a s : text) :
  scan match_at (List.length a) (a ++ s) = scan match_at 0 s.
Proof. induction a as [|x a IH]; simpl; [destruct s; reflexivity | exact IH]. Qed.

Lemma scan_hit (m : M) (w s : text) :
  match_at (w ++ s) = Some (m, pred (List.length w)) -> w <> [] ->
  scan match_at 0 (w ++ s) = Hit m :: scan match_at 0 s.
Proof.
  destruct w as [|c w]; [congruence|]. simpl. intros -> _.
  rewrite scan_skip. reflexivity.
Qed.

(** A run of characters none of which can start a match is copied. *)
Lemma scan_lits (starter : ascii -> bool) (a s : text) :
  (forall c r, starter c = false -> match_at (c :: r) = None) ->
  forallb (fun c => negb (starter c)) a = true ->
  scan match_at 0 (a ++ s) = map Lit a ++ scan match_at 0 s.
Proof.
  intros Hm. induction a as [|x a IH]; simpl; [reflexivity|].
  rewrite andb_true_iff, negb_true_iff. intros [Hx Ha].
  rewrite (Hm _ _ Hx), (IH Ha). reflexivity.
Qed.

Lemma hits_app (l1 l2 : list (segment M)) : hits (l1 ++ l2) = hits l1 ++ hits l2.
Proof.
  induction l1 as [|[c|m] l1 IH]; simpl; rewrite ?IH; reflexivity.
Qed.

Lemma hits_lits (a : text) : hits (map (@Lit M) a) = [].
Proof. induction a; simpl; auto. Qed.

End ScanFacts.

(** ** The two patterns on written markup *)

Lemma plain_not_char (d : ascii) (t : text) :
  delimiter d = true -> plain t = true -> forallb (not_char d) t = true.
Proof.
  intros Hd. apply forallb_impl. intros c Hc. unfold not_char.
  destruct (Ascii.eqb c d) eqn:E; [|reflexivity].
  apply Ascii.eqb_eq in E. subst c. rewrite Hd in Hc. discriminate.
Qed.

Lemma plain_no_starter (d : ascii) (t : text) :
  delimiter d = true -> plain t = true ->
  forallb (fun c => negb (is_char d c)) t = true.
Proof. exact (plain_not_char d t). Qed.

Lemma md_match_at_head (c : ascii) (r : text) :
  is_char "!" c = false -> md_match_at (c :: r) = None.
Proof.
  unfold is_char, md_match_at. rewrite Ascii.eqb_sym. intros H.
  cbn [txt list_ascii_of_string strip_prefix]. rewrite H. reflexivity.
Qed.

Lemma html_match_at_head (c : ascii) (r : text) :
  is_char "<" c = false -> html_match_at (c :: r) = None.
Proof.
  unfold is_char, html_match_at. rewrite Ascii.eqb_sym. intros H.
  cbn [txt list_ascii_of_string strip_prefix]. rewrite H. reflexivity.
Qed.

Lemma md_match_at_inline (alt target s : text) :
  forallb (not_char "]") alt = true ->
  forallb (not_char ")") target = true -> target <> [] ->
  md_match_at (inline_image alt target ++ s) =
  Some (Md_match (inline_image alt target) alt target,
        pred (List.length (inline_image alt target))).
Proof.
  intros Ha Ht Hne. unfold md_match_at, inline_image.
  rewrite <- !app_assoc. rewrite strip_prefix_app.
  change (txt "](" ++ target ++ txt ")" ++ s)
    with ("]"%char :: (txt "(" ++ target ++ txt ")" ++ s)).
  rewrite (@span_app _ _ "]" _ Ha eq_refl).
  change ("]"%char :: txt "(" ++ target ++ txt ")" ++ s)
    with (txt "](" ++ target ++ txt ")" ++ s).
  rewrite strip_prefix_app.
  change (target ++ txt ")" ++ s) with (target ++ ")"%char :: s).
  rewrite (@span_app _ _ ")" _ Ht eq_refl).
  destruct target as [|x target]; [congruence|].
  simpl. reflexivity.
Qed.

Lemma html_match_at_tag (alt target s : text) :
  forallb (not_char dquote) alt = true ->
  forallb (not_char dquote) target = true -> target <> [] ->
  html_match_at (img_tag target alt ++ s) =
  Some (Html_match target (Some alt), pred (List.length (img_tag target alt))).
Proof.
  intros Ha Ht Hne. unfold html_match_at, img_tag.
  rewrite <- !app_assoc.
  change (txt "<img src=" ++ [dquote] ++ target ++ [dquote] ++
          txt " alt=" ++ [dquote] ++ alt ++ [dquote] ++ txt ">" ++ s)
    with (txt "<img" ++ " "%char :: txt "src=" ++ [dquote] ++ target ++ dquote ::
          " "%char :: txt "alt=" ++ [dquote] ++ alt ++ dquote :: ">"%char :: s).
  rewrite strip_prefix_app.
  change (" "%char :: txt "src=" ++ [dquote] ++ target ++ dquote ::
          " "%char :: txt "alt=" ++ [dquote] ++ alt ++ dquote :: ">"%char :: s)
    with ([" "%char] ++ "s"%char :: (txt "rc=" ++ [dquote] ++ target ++ dquote ::
          " "%char :: txt "alt=" ++ [dquote] ++ alt ++ dquote :: ">"%char :: s)).
  rewrite (@span_app is_space [" "%char] "s" _ eq_refl eq_refl).
  change ("s"%char :: txt "rc=" ++ [dquote] ++ target ++ dquote ::
          " "%char :: txt "alt=" ++ [dquote] ++ alt ++ dquote :: ">"%char :: s)
    with ((txt "src=" ++ [dquote]) ++ target ++ dquote ::
          " "%char :: txt "alt=" ++ [dquote] ++ alt ++ dquote :: ">"%char :: s).
  rewrite strip_prefix_app.
  rewrite (@span_app _ _ dquote _ Ht eq_refl).
  destruct target as [|x target]; [congruence|].
  change (strip_prefix [dquote] (dquote :: ?r)) with (Some r).
  cbv beta iota.
  assert (Hg : html_alt_group (" "%char :: txt "alt=" ++ [dquote] ++ alt ++
                               dquote :: ">"%char :: s) =
               Some ([" "%char] ++ txt "alt=" ++ [dquote] ++ alt ++ [dquote],
                     alt, ">"%char :: s)).
  { unfold html_alt_group.
    change (" "%char :: txt "alt=" ++ [dquote] ++ alt ++ dquote :: ">"%char :: s)
      with ([" "%char] ++ "a"%char :: (txt "lt=" ++ [dquote] ++ alt ++
            dquote :: ">"%char :: s)).
    rewrite (@span_app is_space [" "%char] "a" _ eq_refl eq_refl).
    change ("a"%char :: txt "lt=" ++ [dquote] ++ alt ++ dquote :: ">"%char :: s)
      with ((txt "alt=" ++ [dquote]) ++ alt ++ dquote :: ">"%char :: s).
    rewrite strip_prefix_app.
    rewrite (@span_app _ _ dquote _ Ha eq_refl).
    reflexivity. }
  rewrite Hg. unfold html_close. simpl span. simpl strip_prefix.
  cbv beta iota. rewrite <- !app_assoc. reflexivity.
Qed.

Lemma img_tag_no_bang (alt target : text) :
  plain alt = true -> plain target = true ->
  forallb (fun c => negb (is_char "!" c)) (img_tag target alt) = true.
Proof.
  intros Ha Ht. unfold img_tag. rewrite !forallb_app.
  rewrite (plain_no_starter "!" alt eq_refl Ha).
  rewrite (plain_no_starter "!" target eq_refl Ht). reflexivity.
Qed.

Lemma inline_image_no_lt (alt target : text) :
  plain alt = true -> plain target = true ->
  forallb (fun c => negb (is_char "<" c)) (inline_image alt target) = true.
Proof.
  intros Ha Ht. unfold inline_image. rewrite !forallb_app.
  rewrite (plain_no_starter "<" alt eq_refl Ha).
  rewrite (plain_no_starter "<" target eq_refl Ht). reflexivity.
Qed.

Lemma truthy_ne (t : text) : truthy t = true -> t <> [].
Proof. destruct t; simpl; congruence. Qed.

Lemma wf_item_fields (alt target : text) :
  plain alt && plain target && truthy target = true ->
  plain alt = true /\ plain target = true /\ target <> [].
Proof.
  rewrite !andb_true_iff. intros [[Ha Ht] Hn]. auto using truthy_ne.
Qed.

(** The inline-image scan cuts written markup at its inline images. *)
Lemma scan_md_render (items : list item) :
  wf items = true ->
  scan md_match_at 0 (render items) = flat_map md_pieces items.
Proof.
  induction items as [|i items IH]; [reflexivity|].
  unfold wf. cbn [forallb]. rewrite andb_true_iff. intros [Hi Hw].
  change (render (i :: items)) with (render_item i ++ render items).
  change (flat_map md_pieces (i :: items))
    with (md_pieces i ++ flat_map md_pieces items).
  rewrite <- (IH Hw).
  destruct i as [t|alt target|alt target];
    cbn [render_item md_pieces wf_item app] in *.
  - apply scan_lits with (starter := is_char "!").
    + exact md_match_at_head.
    + exact (plain_no_starter "!" t eq_refl Hi).
  - apply wf_item_fields in Hi as (Ha & Ht & Hn).
    apply (scan_hit _ md_match_at).
    + apply md_match_at_inline; auto using plain_not_char.
    + unfold inline_image. destruct alt; discriminate.
  - apply wf_item_fields in Hi as (Ha & Ht & Hn).
    apply scan_lits with (starter := is_char "!").
    + exact md_match_at_head.
    + apply img_tag_no_bang; assumption.
Qed.

(** The raw-tag scan cuts written markup at its tags. *)
Lemma scan_html_render (items : list item) :
  wf items = true ->
  scan html_match_at 0 (render items) = flat_map html_pieces items.
Proof.
  induction items as [|i items IH]; [reflexivity|].
  unfold wf. cbn [forallb]. rewrite andb_true_iff. intros [Hi Hw].
  change (render (i :: items)) with (render_item i ++ render items).
  change (flat_map html_pieces (i :: items))
    with (html_pieces i ++ flat_map html_pieces items).
  rewrite <- (IH Hw).
  destruct i as [t|alt target|alt target];
    cbn [render_item html_pieces wf_item app] in *.
  - apply scan_lits with (starter := is_char "<").
    + exact html_match_at_head.
    + exact (plain_no_starter "<" t eq_refl Hi).
  - apply wf_item_fields in Hi as (Ha & Ht & Hn).
    apply scan_lits with (starter := is_char "<").
    + exact html_match_at_head.
    + apply inline_image_no_lt; assumption.
  - apply wf_item_fields in Hi as (Ha & Ht & Hn).
    apply (scan_hit _ html_match_at).
    + apply html_match_at_tag; auto using plain_not_char.
    + unfold img_tag. discriminate.
Qed.

Lemma hits_md_pieces (items : list item) :
  map (fun m => (md_group1 m, md_group2 m)) (hits (flat_map md_pieces items)) =
  inlines items.
Proof.
  induction items as [|[t|alt target|alt target] items IH]; simpl;
    rewrite ?hits_app, ?hits_lits; simpl; rewrite ?IH; reflexivity.
Qed.

Lemma hits_html_pieces (items : list item) :
  map (fun m => (or_empty (html_group2 m), html_group1 m))
      (hits (flat_map html_pieces items)) = tags items.
Proof.
  induction items as [|[t|alt target|alt target] items IH]; simpl;
    rewrite ?hits_app, ?hits_lits; simpl; rewrite ?IH; reflexivity.
Qed.

Lemma map_filter_comm (A B : Type) (f : A -> B) (p : B -> bool) (l : list A) :
  map f (filter (fun x => p (f x)) l) = filter p (map f l).
Proof.
  induction l as [|x l IH]; simpl; [reflexivity|].
  destruct (p (f x)); simpl; rewrite IH; reflexivity.
Qed.

(** ** Extraction *)

(** C1 (as amended).  On markup written from plain text and image
    references of both syntaxes, extraction returns every raw tag, in
    document order, followed by every inline image whose target starts with
    [http://] or [https://], in document order; duplicates are kept, an
    inline image with a relative target is not returned, and the number of
    pairs is the number of raw tags plus the number of absolute inline
    images. *)
Theorem extract_image_urls_written (items : list item) :
  wf items = true ->
  extract_image_urls (render items) =
    tags items ++ filter (fun r => is_http_url (snd r)) (inlines items) /\
  List.length (extract_image_urls (render items)) =
    List.length (tags items) +
    List.length (filter (fun r => is_http_url (snd r)) (inlines items)).
Proof.
  intros Hw.
  assert (E : extract_image_urls (render items) =
              tags items ++ filter (fun r => is_http_url (snd r)) (inlines items)).
  { unfold extract_image_urls, finditer.
    rewrite (scan_md_render items Hw), (scan_html_render items Hw).
    rewrite hits_html_pieces. f_equal.
    rewrite <- hits_md_pieces.
    apply (map_filter_comm _ _ (fun m => (md_group1 m, md_group2 m))
                           (fun r => is_http_url (snd r))). }
  split; [exact E|]. rewrite E. apply length_app.
Qed.

Lemma extract_image_urls_written_witness :
  extract_image_urls (render doc_mixed) =
    [(txt "b", txt "http://h/b.png"); (txt "a", txt "http://h/a.png")] /\
  List.length (extract_image_urls (render doc_mixed)) = 1 + 1.
Proof. exact (extract_image_urls_written doc_mixed eq_refl). Defined.

(** C1 (as stated) fails: a tag after an inline image is returned before
    it, and an inline image with a relative target is not returned at all. *)
Lemma extract_image_urls_not_document_order :
  extract_image_urls (render doc_mixed) <> references doc_mixed /\
  List.length (extract_image_urls (render doc_relative)) <>
  List.length (references doc_relative).
Proof. split; vm_compute; intros H; discriminate H. Qed.

(** ** Exact-string replacement on written markup *)

Lemma str_replace_hit (old new s : text) :
  old <> [] -> str_replace old new (old ++ s) = new ++ str_replace old new s.
Proof.
  destruct old as [|c old]; [congruence|]. intros _. unfold str_replace.
  rewrite (@scan_hit _ (replace_match_at (c :: old)) tt (c :: old) s).
  - reflexivity.
  - unfold replace_match_at, startswith. rewrite strip_prefix_app. reflexivity.
  - discriminate.
Qed.

Lemma str_replace_miss (old new : text) (c : ascii) (s : text) :
  old <> [] -> startswith old (c :: s) = false ->
  str_replace old new (c :: s) = c :: str_replace old new s.
Proof.
  destruct old as [|x old]; [congruence|]. intros _ H. unfold str_replace.
  cbn [scan]. unfold replace_match_at at 1. rewrite H. reflexivity.
Qed.

Lemma str_replace_lits (x : ascii) (old new a s : text) :
  forallb (fun c => negb (is_char x c)) a = true ->
  str_replace (x :: old) new (a ++ s) = a ++ str_replace (x :: old) new s.
Proof.
  intros Ha. unfold str_replace.
  rewrite (@scan_lits _ (replace_match_at (x :: old)) (is_char x) a s); auto.
  - rewrite flat_map_app. f_equal.
    clear. induction a as [|c a IH]; simpl; rewrite ?IH; reflexivity.
  - intros c r Hc. unfold replace_match_at, startswith. cbn [strip_prefix].
    unfold is_char in Hc. rewrite Ascii.eqb_sym, Hc. reflexivity.
Qed.

Lemma strip_prefix_common (p a b : text) :
  strip_prefix (p ++ a) (p ++ b) = strip_prefix a b.
Proof.
  induction p as [|x p IH]; simpl; [reflexivity|].
  rewrite Ascii.eqb_refl. exact IH.
Qed.

(** Two runs closed by the same character that neither contains: one is a
    prefix of the other only when the runs are equal. *)
Lemma strip_prefix_closed (q : ascii) (u t r : text) :
  forallb (not_char q) u = true -> forallb (not_char q) t = true ->
  strip_prefix (u ++ [q]) (t ++ q :: r) <> None -> u = t.
Proof.
  revert t. induction u as [|x u IH]; intros [|y t]; simpl.
  - reflexivity.
  - rewrite andb_true_iff. unfold not_char at 1. intros _ [Hy _].
    rewrite Ascii.eqb_sym. apply negb_true_iff in Hy. rewrite Hy. congruence.
  - rewrite andb_true_iff. unfold not_char at 1. intros [Hx _] _.
    apply negb_true_iff in Hx. rewrite Hx. congruence.
  - rewrite !andb_true_iff. intros [_ Hu] [_ Ht].
    destruct (Ascii.eqb x y) eqn:E; [|congruence].
    apply Ascii.eqb_eq in E. subst y. intros H. f_equal. apply IH; assumption.
Qed.

Lemma startswith_closed (q : ascii) (p u t r : text) :
  forallb (not_char q) u = true -> forallb (not_char q) t = true ->
  text_eqb t u = false ->
  startswith (p ++ u ++ [q]) (p ++ t ++ q :: r) = false.
Proof.
  intros Hu Ht Hne. unfold startswith. rewrite strip_prefix_common.
  destruct (strip_prefix (u ++ [q]) (t ++ q :: r)) eqn:E; [|reflexivity].
  assert (u = t) by (apply (strip_prefix_closed q u t r); congruence).
  subst t. rewrite text_eqb_refl in Hne. discriminate.
Qed.

Lemma str_replace_char (x : ascii) (old new : text) (c : ascii) (s : text) :
  is_char x c = false ->
  str_replace (x :: old) new (c :: s) = c :: str_replace (x :: old) new s.
Proof.
  intros H. apply (str_replace_lits x old new [c] s). simpl. rewrite H.
  reflexivity.
Qed.

Lemma str_replace_field (x : ascii) (old new t s : text) :
  delimiter x = true -> plain t = true ->
  str_replace (x :: old) new (t ++ s) = t ++ str_replace (x :: old) new s.
Proof.
  intros Hx Ht. apply str_replace_lits. exact (plain_no_starter x t Hx Ht).
Qed.

(** Bring a text to the form of characters consed on fields. *)
Ltac normal_text :=
  unfold img_tag, inline_image;
  rewrite <- ?app_assoc; cbn [app txt list_ascii_of_string].

Ltac copy_text :=
  repeat first
    [ rewrite str_replace_char by reflexivity
    | rewrite str_replace_field by (reflexivity || assumption) ].

Lemma replace_tag_hit (url local_path alt s : text) :
  plain alt = true ->
  str_replace (txt "<img src=" ++ [dquote] ++ url ++ [dquote])
              (txt "<img src=" ++ [dquote] ++ local_path ++ [dquote])
              (img_tag url alt ++ s) =
  img_tag local_path alt ++
  str_replace (txt "<img src=" ++ [dquote] ++ url ++ [dquote])
              (txt "<img src=" ++ [dquote] ++ local_path ++ [dquote]) s.
Proof.
  intros Ha.
  set (old := txt "<img src=" ++ [dquote] ++ url ++ [dquote]).
  set (new := txt "<img src=" ++ [dquote] ++ local_path ++ [dquote]).
  assert (E : forall src r, img_tag src alt ++ r =
           (txt "<img src=" ++ [dquote] ++ src ++ [dquote]) ++
           txt " alt=" ++ [dquote] ++ alt ++ [dquote] ++ txt ">" ++ r).
  { intros src r. unfold img_tag. rewrite <- !app_assoc. reflexivity. }
  rewrite !E. fold old new. rewrite str_replace_hit by discriminate.
  f_equal.
  change old with ("<"%char :: txt "img src=" ++ [dquote] ++ url ++ [dquote]).
  cbn [app txt list_ascii_of_string]. copy_text. reflexivity.
Qed.

Lemma replace_tag_miss (url local_path alt target s : text) :
  plain alt = true -> plain target = true -> plain url = true ->
  text_eqb target url = false ->
  str_replace (txt "<img src=" ++ [dquote] ++ url ++ [dquote])
              (txt "<img src=" ++ [dquote] ++ local_path ++ [dquote])
              (img_tag target alt ++ s) =
  img_tag target alt ++
  str_replace (txt "<img src=" ++ [dquote] ++ url ++ [dquote])
              (txt "<img src=" ++ [dquote] ++ local_path ++ [dquote]) s.
Proof.
  intros Ha Ht Hu Hne.
  set (new := txt "<img src=" ++ [dquote] ++ local_path ++ [dquote]).
  set (old' := txt "img src=" ++ [dquote] ++ url ++ [dquote]).
  change (txt "<img src=" ++ [dquote] ++ url ++ [dquote]) with ("<"%char :: old').
  normal_text.
  rewrite str_replace_miss.
  - copy_text. reflexivity.
  - discriminate.
  - exact (startswith_closed dquote (txt "<img src=" ++ [dquote]) url target _
             (plain_not_char dquote url eq_refl Hu)
             (plain_not_char dquote target eq_refl Ht) Hne).
Qed.

Lemma replace_inline_hit (url local_path alt s : text) :
  plain alt = true ->
  str_replace (txt "](" ++ url ++ txt ")") (txt "](" ++ local_path ++ txt ")")
              (inline_image alt url ++ s) =
  inline_image alt local_path ++
  str_replace (txt "](" ++ url ++ txt ")") (txt "](" ++ local_path ++ txt ")") s.
Proof.
  intros Ha.
  set (old := txt "](" ++ url ++ txt ")").
  set (new := txt "](" ++ local_path ++ txt ")").
  assert (E : forall target r, inline_image alt target ++ r =
           txt "![" ++ alt ++ (txt "](" ++ target ++ txt ")") ++ r).
  { intros target r. unfold inline_image. rewrite <- !app_assoc. reflexivity. }
  rewrite !E. fold old new.
  change old with ("]"%char :: txt "(" ++ url ++ txt ")") at 1.
  cbn [app txt list_ascii_of_string]. copy_text.
  change ("]"%char :: "("%char :: url ++ [")"%char]) with old.
  rewrite str_replace_hit by discriminate. reflexivity.
Qed.

Lemma replace_inline_miss (url local_path alt target s : text) :
  plain alt = true -> plain target = true -> plain url = true ->
  text_eqb target url = false ->
  str_replace (txt "](" ++ url ++ txt ")") (txt "](" ++ local_path ++ txt ")")
              (inline_image alt target ++ s) =
  inline_image alt target ++
  str_replace (txt "](" ++ url ++ txt ")") (txt "](" ++ local_path ++ txt ")") s.
Proof.
  intros Ha Ht Hu Hne.
  set (new := txt "](" ++ local_path ++ txt ")").
  set (old' := txt "(" ++ url ++ txt ")").
  change (txt "](" ++ url ++ txt ")") with ("]"%char :: old').
  normal_text. copy_text.
  rewrite str_replace_miss.
  - copy_text. reflexivity.
  - discriminate.
  - exact (startswith_closed ")" (txt "](") url target _
             (plain_not_char ")" url eq_refl Hu)
             (plain_not_char ")" target eq_refl Ht) Hne).
Qed.

Lemma wf_cons (i : item) (items : list item) :
  wf (i :: items) = true -> wf_item i = true /\ wf items = true.
Proof. unfold wf. cbn [forallb]. apply andb_true_iff. Qed.

Lemma replace_tags_written (url local_path : text) (items : list item) :
  wf items = true -> plain url = true ->
  str_replace (txt "<img src=" ++ [dquote] ++ url ++ [dquote])
              (txt "<img src=" ++ [dquote] ++ local_path ++ [dquote])
              (render items) =
  render (map (retarget_tag url local_path) items).
Proof.
  intros Hw Hu. induction items as [|i items IH]; [reflexivity|].
  apply wf_cons in Hw as [Hi Hw]. specialize (IH Hw).
  change (render (i :: items)) with (render_item i ++ render items).
  change (render (map (retarget_tag url local_path) (i :: items)))
    with (render_item (retarget_tag url local_path i) ++
          render (map (retarget_tag url local_path) items)).
  rewrite <- IH.
  destruct i as [t|alt target|alt target];
    cbn [render_item retarget_tag retarget wf_item] in *.
  - change (txt "<img src=" ++ [dquote] ++ url ++ [dquote])
      with ("<"%char :: txt "img src=" ++ [dquote] ++ url ++ [dquote]).
    apply str_replace_field; [reflexivity | assumption].
  - apply wf_item_fields in Hi as (Ha & Ht & Hn).
    change (txt "<img src=" ++ [dquote] ++ url ++ [dquote])
      with ("<"%char :: txt "img src=" ++ [dquote] ++ url ++ [dquote]).
    normal_text. copy_text. reflexivity.
  - apply wf_item_fields in Hi as (Ha & Ht & Hn).
    destruct (text_eqb target url) eqn:E.
    + apply text_eqb_eq in E. subst target. apply replace_tag_hit; assumption.
    + apply replace_tag_miss; assumption.
Qed.

Lemma replace_inlines_written (url local_path : text) (items : list item) :
  wf items = true -> plain url = true ->
  str_replace (txt "](" ++ url ++ txt ")") (txt "](" ++ local_path ++ txt ")")
              (render items) =
  render (map (retarget_inline url local_path) items).
Proof.
  intros Hw Hu. induction items as [|i items IH]; [reflexivity|].
  apply wf_cons in Hw as [Hi Hw]. specialize (IH Hw).
  change (render (i :: items)) with (render_item i ++ render items).
  change (render (map (retarget_inline url local_path) (i :: items)))
    with (render_item (retarget_inline url local_path i) ++
          render (map (retarget_inline url local_path) items)).
  rewrite <- IH.
  destruct i as [t|alt target|alt target];
    cbn [render_item retarget_inline retarget wf_item] in *.
  - change (txt "](" ++ url ++ txt ")") with ("]"%char :: txt "(" ++ url ++ txt ")").
    apply str_replace_field; [reflexivity | assumption].
  - apply wf_item_fields in Hi as (Ha & Ht & Hn).
    destruct (text_eqb target url) eqn:E.
    + apply text_eqb_eq in E. subst target. apply replace_inline_hit; assumption.
    + apply replace_inline_miss; assumption.
  - apply wf_item_fields in Hi as (Ha & Ht & Hn).
    change (txt "](" ++ url ++ txt ")") with ("]"%char :: txt "(" ++ url ++ txt ")").
    normal_text. copy_text. reflexivity.
Qed.

Lemma wf_item_retarget (url local_path : text) (i : item) :
  plain local_path = true -> local_path <> [] -> wf_item i = true ->
  wf_item (retarget url local_path i) = true.
Proof.
  intros Hl Hn. destruct i as [t|alt target|alt target]; simpl; auto;
    destruct (text_eqb target url); auto;
    rewrite !andb_true_iff; intros [[Ha _] _]; repeat split; auto;
    destruct local_path; simpl; congruence.
Qed.

Lemma wf_retarget_tag (url local_path : text) (items : list item) :
  plain local_path = true -> local_path <> [] -> wf items = true ->
  wf (map (retarget_tag url local_path) items) = true.
Proof.
  intros Hl Hn. unfold wf.
  induction items as [|i items IH]; simpl; [reflexivity|].
  rewrite !andb_true_iff. intros [Hi Hw]. split; auto.
  destruct i; auto. apply (wf_item_retarget url local_path (Tag alt target) Hl Hn Hi).
Qed.

Lemma retarget_split (url local_path : text) (items : list item) :
  map (retarget_inline url local_path) (map (retarget_tag url local_path) items) =
  map (retarget url local_path) items.
Proof.
  rewrite map_map. apply map_ext. intros [t|alt target|alt target]; reflexivity.
Qed.

Lemma relink_render (url local_path : text) (items : list item) :
  wf items = true -> plain url = true ->
  plain local_path = true -> local_path <> [] ->
  relink url local_path (render items) =
  render (map (retarget url local_path) items).
Proof.
  intros Hw Hu Hl Hn. unfold relink.
  rewrite replace_tags_written by assumption.
  rewrite replace_inlines_written by auto using wf_retarget_tag.
  rewrite retarget_split. reflexivity.
Qed.

Lemma retarget_idempotent (url local_path : text) (i : item) :
  retarget url local_path (retarget url local_path i) = retarget url local_path i.
Proof.
  destruct i as [t|alt target|alt target]; simpl; auto;
    destruct (text_eqb target url) eqn:E; rewrite ?E; auto;
    destruct (text_eqb local_path url) eqn:E'; auto;
    apply text_eqb_eq in E'; subst; reflexivity.
Qed.

Lemma wf_map_retarget (url local_path : text) (items : list item) :
  plain local_path = true -> local_path <> [] -> wf items = true ->
  wf (map (retarget url local_path) items) = true.
Proof.
  intros Hl Hn. unfold wf.
  induction items as [|i items IH]; simpl; [reflexivity|].
  rewrite !andb_true_iff. intros [Hi Hw]. split; auto.
  apply wf_item_retarget; assumption.
Qed.

(** ** Forward relocation on written markup *)

Section SubFacts.
Variables M St : Type.
Variable repl : M -> St -> result text * St.

Lemma sub_segments_lits (a : text) (l : list (segment M)) (st : St) :
  sub_segments repl (map Lit a ++ l) st = prepend a (sub_segments repl l st).
Proof.
  induction a as [|c a IH]; simpl.
  - destruct (sub_segments repl l st) as [[t|e] st']; reflexivity.
  - rewrite IH. destruct (sub_segments repl l st) as [[t|e] st']; reflexivity.
Qed.

Lemma sub_segments_app (l1 l2 : list (segment M)) (st : St) :
  sub_segments repl (l1 ++ l2) st =
  match sub_segments repl l1 st with
  | (Ok t1, st1) => prepend t1 (sub_segments repl l2 st1)
  | (Raise e, st1) => (Raise e, st1)
  end.
Proof.
  revert st. induction l1 as [|[c|m] l1 IH]; intros st; simpl.
  - destruct (sub_segments repl l2 st) as [[t|e] st']; reflexivity.
  - rewrite IH. destruct (sub_segments repl l1 st) as [[t1|e] st1]; simpl; auto.
    destruct (sub_segments repl l2 st1) as [[t|e] st']; reflexivity.
  - destruct (repl m st) as [[r|e] st1]; auto. rewrite IH.
    destruct (sub_segments repl l1 st1) as [[t1|e] st2]; simpl; auto.
    destruct (sub_segments repl l2 st2) as [[t|e] st']; simpl; auto.
    rewrite app_assoc. reflexivity.
Qed.

End SubFacts.

Lemma wf_app (a b : list item) : wf (a ++ b) = wf a && wf b.
Proof. apply forallb_app. Qed.

Lemma sub_md_pieces (h : host) (b : StorageBackend) (dir : text) (i : item)
    (l : list (segment md_match)) (st : uploads) :
  sub_segments (replace_image h b dir) (md_pieces i ++ l) st =
  match forward_piece h b dir i st with
  | (Ok p, st1) => prepend p (sub_segments (replace_image h b dir) l st1)
  | (Raise e, st1) => (Raise e, st1)
  end.
Proof.
  destruct i as [t|alt target|alt target]; cbn [md_pieces forward_piece].
  - apply sub_segments_lits.
  - cbn [app sub_segments].
    destruct (replace_image h b dir _ st) as [[r|e] st1]; auto.
  - apply sub_segments_lits.
Qed.

(** Forward relocation works item by item: what comes before an item is
    rewritten first, then the item, then what follows, from the state
    reached. *)
Lemma rewrite_images_split (h : host) (b : StorageBackend) (dir : text)
    (pre : list item) (i : item) (post : list item) (st : uploads) :
  wf (pre ++ i :: post) = true ->
  rewrite_images h b (render (pre ++ i :: post)) dir st =
  match rewrite_images h b (render pre) dir st with
  | (Ok o1, st1) =>
    match forward_piece h b dir i st1 with
    | (Ok p, st1') =>
      prepend (o1 ++ p) (rewrite_images h b (render post) dir st1')
    | (Raise e, st1') => (Raise e, st1')
    end
  | (Raise e, st1) => (Raise e, st1)
  end.
Proof.
  intros Hw. pose proof Hw as Hw'. rewrite wf_app in Hw'.
  apply andb_true_iff in Hw' as [Hpre Hpost].
  apply wf_cons in Hpost as [_ Hpost].
  unfold rewrite_images, re_sub.
  rewrite (scan_md_render _ Hw), (scan_md_render _ Hpre), (scan_md_render _ Hpost).
  rewrite flat_map_app. cbn [flat_map]. rewrite sub_segments_app.
  destruct (sub_segments _ (flat_map md_pieces pre) st) as [[o1|e] st1]; auto.
  rewrite sub_md_pieces.
  destruct (forward_piece h b dir i st1) as [[p|e] st1']; auto.
  destruct (sub_segments _ (flat_map md_pieces post) st1') as [[t|e] st']; simpl; auto.
  rewrite app_assoc. reflexivity.
Qed.

Lemma rewrite_images_cons (h : host) (b : StorageBackend) (dir : text)
    (i : item) (post : list item) (st : uploads) :
  wf (i :: post) = true ->
  rewrite_images h b (render (i :: post)) dir st =
  match forward_piece h b dir i st with
  | (Ok p, st1) => prepend p (rewrite_images h b (render post) dir st1)
  | (Raise e, st1) => (Raise e, st1)
  end.
Proof.
  intros Hw. pose proof (rewrite_images_split h b dir [] i post st Hw) as H.
  cbn [app] in H. rewrite H.
  change (rewrite_images h b (render []) dir st) with (@Ok text [], st).
  cbv beta iota.
  destruct (forward_piece h b dir i st) as [[p|e] st1]; reflexivity.
Qed.

(** Forward relocation of written markup when the file of every inline
    image is found and every upload succeeds. *)
Lemma rewrite_images_found (h : host) (b : StorageBackend) (dir : text)
    (items : list item) :
  wf items = true ->
  (forall alt target, In (alt, target) (inlines items) ->
     path_exists h (joinpath dir (path_name target)) = Ok true) ->
  (forall alt target n, In (alt, target) (inlines items) ->
     put_object h b (joinpath dir (path_name target))
       (object_key h dir n target) = Ok tt) ->
  forall st,
    rewrite_images h b (render items) dir st =
    (Ok (render (uploaded h b dir (drawn st) items)),
     Uploads (drawn st + List.length (inlines items))
             (stored st ++ uploaded_objects h dir (drawn st) items)).
Proof.
  induction items as [|i items IH]; intros Hw Hfound Hput st.
  - cbn. rewrite Nat.add_0_r, app_nil_r. destruct st; reflexivity.
  - pose proof Hw as Hw'. apply wf_cons in Hw' as [Hi Hw'].
    rewrite (rewrite_images_cons h b dir i items st Hw).
    destruct i as [t|alt target|alt target]; cbn [forward_piece render_item].
    + rewrite (IH Hw' Hfound Hput st). reflexivity.
    + unfold replace_image. cbn [md_group0 md_group1 md_group2].
      rewrite (Hfound alt target (or_introl eq_refl)). unfold upload_file.
      cbn [drawn stored].
      pose proof (Hput alt target (drawn st) (or_introl eq_refl)) as Hp.
      unfold object_key in Hp. rewrite Hp.
      cbn [drawn stored].
      rewrite (IH Hw' (fun a t H => Hfound a t (or_intror H))
                      (fun a t n H => Hput a t n (or_intror H))).
      cbn [drawn stored prepend].
      cbn [uploaded uploaded_objects inlines List.length render flat_map
           render_item].
      unfold object_key. rewrite <- app_assoc. cbn [app].
      replace (S (drawn st) + List.length (inlines items))
        with (drawn st + S (List.length (inlines items))) by lia.
      reflexivity.
    + rewrite (IH Hw' Hfound Hput st). reflexivity.
Qed.

Lemma uploaded_objects_length (h : host) (dir : text) (items : list item) :
  forall n,
    List.length (uploaded_objects h dir n items) = List.length (inlines items).
Proof.
  induction items as [|[t|alt target|alt target] items IH]; intros n;
    cbn [uploaded_objects inlines List.length]; auto.
Qed.

(** ** Rewriting by exact-string replacement *)

(** C2 (as amended).  Take markup written from plain text and references.
    In reverse relocation the rewriting after one successful download is the
    exact-string replacement of the two forms built from the target: it
    points every reference to that identical target, in either syntax, at
    the one local path, leaves every other reference and every alt text as
    it was, and applying it again changes nothing.  Forward relocation
    handles each inline image on its own: when the file of every inline
    image is found and every upload succeeds, each inline image, whether or
    not its target occurred before, is uploaded once, under the key made of
    the next identifier drawn and its file's suffix, and becomes a tag at
    the URL of that key with its alt text; so as many objects are stored as
    there are inline images, and raw tags and plain text stay as written. *)
Theorem relink_written (items : list item) :
  wf items = true ->
  (forall url local_path,
     plain url = true -> plain local_path = true -> local_path <> [] ->
     relink url local_path (render items) =
       render (map (retarget url local_path) items) /\
     map fst (references (map (retarget url local_path) items)) =
       map fst (references items) /\
     relink url local_path (relink url local_path (render items)) =
       relink url local_path (render items)) /\
  (forall h b dir st,
     (forall alt target, In (alt, target) (inlines items) ->
        path_exists h (joinpath dir (path_name target)) = Ok true) ->
     (forall alt target n, In (alt, target) (inlines items) ->
        put_object h b (joinpath dir (path_name target))
          (object_key h dir n target) = Ok tt) ->
     let r := process_markdown_images h (Some b) (render items) dir true st in
     r = (render (uploaded h b dir (drawn st) items),
          Uploads (drawn st + List.length (inlines items))
                  (stored st ++ uploaded_objects h dir (drawn st) items)) /\
     List.length (stored (snd r)) =
       List.length (stored st) + List.length (inlines items) /\
     map fst (references (uploaded h b dir (drawn st) items)) =
       map fst (references items)).
Proof.
  intros Hw. split.
  - intros url local_path Hu Hl Hn. split; [|split].
    + apply relink_render; assumption.
    + clear. induction items as [|[t|alt target|alt target] items IH]; simpl;
        rewrite ?IH; reflexivity.
    + rewrite (relink_render url local_path items Hw Hu Hl Hn).
      rewrite relink_render by auto using wf_map_retarget.
      rewrite map_map. f_equal. apply map_ext. intros i.
      apply retarget_idempotent.
  - intros h b dir st Hfound Hput r.
    assert (Hr : r = (render (uploaded h b dir (drawn st) items),
                      Uploads (drawn st + List.length (inlines items))
                        (stored st ++ uploaded_objects h dir (drawn st) items))).
    { unfold r, process_markdown_images. cbn [negb].
      rewrite (rewrite_images_found h b dir items Hw Hfound Hput st).
      reflexivity. }
    split; [exact Hr|]. split.
    + rewrite Hr. cbn [snd stored].
      rewrite length_app, uploaded_objects_length. reflexivity.
    + clear. generalize (drawn st).
      induction items as [|[t|alt target|alt target] items IH]; intros n;
        cbn [uploaded references map fst]; rewrite ?IH; reflexivity.
Qed.

Lemma relink_written_witness :
  relink (txt "http://h/p.png") (txt "images/p.png")
    (render [Inline (txt "a") (txt "http://h/p.png"); Plain (txt " ");
             Tag (txt "b") (txt "http://h/p.png");
             Inline (txt "c") (txt "http://h/q.png")]) =
  render [Inline (txt "a") (txt "images/p.png"); Plain (txt " ");
          Tag (txt "b") (txt "images/p.png");
          Inline (txt "c") (txt "http://h/q.png")] /\
  process_markdown_images demo_host (Some demo_backend)
    (render doc_same_target) demo_dir true no_uploads =
  (render [Tag (txt "a")
             (txt "https://bucket.oss-cn-shanghai.aliyuncs.com/images/id0.png");
           Tag (txt "b")
             (txt "https://bucket.oss-cn-shanghai.aliyuncs.com/images/id1.png")],
   Uploads 2 [(joinpath demo_dir (txt "p.png"), txt "images/id0.png");
              (joinpath demo_dir (txt "p.png"), txt "images/id1.png")]).
Proof.
  split.
  - refine (proj1 (proj1 (relink_written
                     [Inline (txt "a") (txt "http://h/p.png"); Plain (txt " ");
                      Tag (txt "b") (txt "http://h/p.png");
                      Inline (txt "c") (txt "http://h/q.png")] eq_refl)
                     (txt "http://h/p.png") (txt "images/p.png") _ _ _));
      [reflexivity | reflexivity | discriminate].
  - refine (proj1 (proj2 (relink_written doc_same_target eq_refl)
                     demo_host demo_backend demo_dir no_uploads _ _)).
    + intros alt target [H|[H|[]]]; injection H as <- <-; reflexivity.
    + intros alt target n [H|[H|[]]]; injection H as <- <-; reflexivity.
Defined.

(** C2 (as stated) fails.  In forward relocation two inline images with
    one target are uploaded twice, under two keys, and get two different
    replacement URLs; and in both directions the two references keep their
    different alt texts. *)
Lemma forward_same_target_not_collapsed :
  let r := process_markdown_images demo_host (Some demo_backend)
             (render doc_same_target) demo_dir true no_uploads in
  extract_image_urls (fst r) =
    [(txt "a", txt "https://bucket.oss-cn-shanghai.aliyuncs.com/images/id0.png");
     (txt "b", txt "https://bucket.oss-cn-shanghai.aliyuncs.com/images/id1.png")] /\
  List.length (stored (snd r)) = 2 /\
  map snd (stored (snd r)) = [txt "images/id0.png"; txt "images/id1.png"] /\
  extract_image_urls
    (relink (txt "http://h/p.png") (txt "images/p.png")
       (render [Tag (txt "a") (txt "http://h/p.png");
                Tag (txt "b") (txt "http://h/p.png")])) =
    [(txt "a", txt "images/p.png"); (txt "b", txt "images/p.png")].
Proof. vm_compute. repeat split. Qed.

(** ** Forward relocation *)

Lemma replace_image_stored (h : host) (b : StorageBackend) (dir : text)
    (m : md_match) (st : uploads) :
  exists l, stored (snd (replace_image h b dir m st)) = stored st ++ l.
Proof.
  unfold replace_image, upload_file.
  destruct (path_exists h _) as [[|]|e]; cbn [snd stored].
  - destruct (put_object h b _ _) as [u|e]; cbn [snd stored drawn].
    + eexists. reflexivity.
    + exists []. rewrite app_nil_r. reflexivity.
  - exists []. rewrite app_nil_r. reflexivity.
  - exists []. rewrite app_nil_r. reflexivity.
Qed.

(** A pass over the pieces only adds to the stored objects. *)
Lemma sub_segments_stored (h : host) (b : StorageBackend) (dir : text)
    (l : list (segment md_match)) :
  forall st,
    exists l', stored (snd (sub_segments (replace_image h b dir) l st)) =
               stored st ++ l'.
Proof.
  induction l as [|[c|m] l IH]; intros st; cbn [sub_segments].
  - exists []. rewrite app_nil_r. reflexivity.
  - destruct (IH st) as [l' Hl'].
    destruct (sub_segments _ l st) as [[t|e] st']; exists l'; exact Hl'.
  - destruct (replace_image_stored h b dir m st) as [l1 H1].
    destruct (replace_image h b dir m st) as [[r|e] st1]; cbn [snd] in H1.
    + destruct (IH st1) as [l2 H2].
      destruct (sub_segments _ l st1) as [[t|e] st']; cbn [snd] in *;
        exists (l1 ++ l2); rewrite H2, H1, app_assoc; reflexivity.
    + exists l1. exact H1.
Qed.

(** C4 (as amended).  Forward relocation recognises the inline-image syntax
    only.  Take any markup and any inline image the scan finds in it ([m],
    with the pieces [before] and [after] it) whose file exists below the
    image directory and whose upload succeeds.  When the pass over the
    pieces before it completes, the file is uploaded under the key made of
    the next identifier drawn and the file's suffix; when the pass over the
    pieces after it completes too, the reference is replaced by an image tag
    pointing at the resolved URL, with its alt text; when an existence test
    after it raises, the markup is returned unchanged and the object stays
    stored.  When an existence test before it raises, the markup is returned
    unchanged and the reference is not reached.  A reference in raw-tag
    syntax, in markup written from plain text and references, is left as
    written: with what precedes and what follows rewritten when the pass
    over them completes, and in the unchanged markup when it raises. *)
Theorem forward_relocation_inline_only (h : host) (b : StorageBackend)
    (dir : text) :
  (forall md_content before m after o1 o2 st st1 st2,
     let full := joinpath dir (path_name (md_group2 m)) in
     let key : text := txt "images/" ++ uuid4 h (drawn st1) ++ path_suffix full in
     scan md_match_at 0 md_content = before ++ Hit m :: after ->
     sub_segments (replace_image h b dir) before st = (Ok o1, st1) ->
     path_exists h full = Ok true ->
     put_object h b full key = Ok tt ->
     sub_segments (replace_image h b dir) after
       (Uploads (S (drawn st1)) (stored st1 ++ [(full, key)])) = (Ok o2, st2) ->
     process_markdown_images h (Some b) md_content dir true st =
     (o1 ++ img_tag (get_url b key) (md_group1 m) ++ o2, st2)) /\
  (forall pre alt target post o1 o2 st st1 st2,
     wf (pre ++ Tag alt target :: post) = true ->
     rewrite_images h b (render pre) dir st = (Ok o1, st1) ->
     rewrite_images h b (render post) dir st1 = (Ok o2, st2) ->
     process_markdown_images h (Some b)
       (render (pre ++ Tag alt target :: post)) dir true st =
     (o1 ++ img_tag target alt ++ o2, st2)) /\
  (forall md_content before m after o1 e st st1 st2,
     let full := joinpath dir (path_name (md_group2 m)) in
     let key : text := txt "images/" ++ uuid4 h (drawn st1) ++ path_suffix full in
     scan md_match_at 0 md_content = before ++ Hit m :: after ->
     sub_segments (replace_image h b dir) before st = (Ok o1, st1) ->
     path_exists h full = Ok true ->
     put_object h b full key = Ok tt ->
     sub_segments (replace_image h b dir) after
       (Uploads (S (drawn st1)) (stored st1 ++ [(full, key)])) = (Raise e, st2) ->
     process_markdown_images h (Some b) md_content dir true st =
     (md_content, st2) /\
     In (full, key) (stored st2)) /\
  (forall md_content before m after e st st1,
     scan md_match_at 0 md_content = before ++ Hit m :: after ->
     sub_segments (replace_image h b dir) before st = (Raise e, st1) ->
     process_markdown_images h (Some b) md_content dir true st =
     (md_content, st1)) /\
  (forall pre alt target post e st st1,
     wf (pre ++ Tag alt target :: post) = true ->
     rewrite_images h b (render pre) dir st = (Raise e, st1) ->
     process_markdown_images h (Some b)
       (render (pre ++ Tag alt target :: post)) dir true st =
     (render (pre ++ Tag alt target :: post), st1)) /\
  (forall pre alt target post o1 e st st1 st2,
     wf (pre ++ Tag alt target :: post) = true ->
     rewrite_images h b (render pre) dir st = (Ok o1, st1) ->
     rewrite_images h b (render post) dir st1 = (Raise e, st2) ->
     process_markdown_images h (Some b)
       (render (pre ++ Tag alt target :: post)) dir true st =
     (render (pre ++ Tag alt target :: post), st2)).
Proof.
  split; [|split; [|split; [|split; [|split]]]].
  - intros md_content before m after o1 o2 st st1 st2 full key
           Hscan Hpre He Hp Hpost.
    unfold process_markdown_images, rewrite_images, re_sub. cbn [negb].
    rewrite Hscan, sub_segments_app, Hpre. cbn [sub_segments].
    unfold replace_image at 1. unfold upload_file. fold full. rewrite He.
    cbn [drawn stored]. fold key. rewrite Hp. cbn [drawn stored].
    rewrite Hpost. cbn [prepend]. reflexivity.
  - intros pre alt target post o1 o2 st st1 st2 Hw Hpre Hpost.
    unfold process_markdown_images. cbn [negb].
    rewrite (rewrite_images_split h b dir pre _ post st Hw), Hpre.
    cbn [forward_piece render_item]. rewrite Hpost. cbn [prepend].
    rewrite <- app_assoc. reflexivity.
  - intros md_content before m after o1 e st st1 st2 full key
           Hscan Hpre He Hp Hpost. split.
    + unfold process_markdown_images, rewrite_images, re_sub. cbn [negb].
      rewrite Hscan, sub_segments_app, Hpre. cbn [sub_segments].
      unfold replace_image at 1. unfold upload_file. fold full. rewrite He.
      cbn [drawn stored]. fold key. rewrite Hp. cbn [drawn stored].
      rewrite Hpost. cbn [prepend]. reflexivity.
    + destruct (sub_segments_stored h b dir after
                  (Uploads (S (drawn st1)) (stored st1 ++ [(full, key)])))
        as [l Hl].
      rewrite Hpost in Hl. cbn [snd stored] in Hl. rewrite Hl.
      apply in_or_app. left. apply in_or_app. right. left. reflexivity.
  - intros md_content before m after e st st1 Hscan Hpre.
    unfold process_markdown_images, rewrite_images, re_sub. cbn [negb].
    rewrite Hscan, sub_segments_app, Hpre. reflexivity.
  - intros pre alt target post e st st1 Hw Hpre.
    unfold process_markdown_images. cbn [negb].
    rewrite (rewrite_images_split h b dir pre _ post st Hw), Hpre.
    reflexivity.
  - intros pre alt target post o1 e st st1 st2 Hw Hpre Hpost.
    unfold process_markdown_images. cbn [negb].
    rewrite (rewrite_images_split h b dir pre _ post st Hw), Hpre.
    cbn [forward_piece render_item]. rewrite Hpost. cbn [prepend].
    reflexivity.
Qed.

Lemma forward_relocation_inline_only_witness :
  process_markdown_images demo_host (Some demo_backend)
    (render [Inline (txt "a") (txt "images/p.png"); Plain (txt " ")])
    demo_dir true no_uploads =
  ([] ++ img_tag (txt "https://bucket.oss-cn-shanghai.aliyuncs.com/images/id0.png")
                 (txt "a") ++ txt " ",
   Uploads 1 [(joinpath demo_dir (txt "p.png"), txt "images/id0.png")]).
Proof.
  exact (proj1 (forward_relocation_inline_only demo_host demo_backend demo_dir)
               (render [Inline (txt "a") (txt "images/p.png"); Plain (txt " ")])
               []
               (Md_match (inline_image (txt "a") (txt "images/p.png"))
                         (txt "a") (txt "images/p.png"))
               (map Lit (txt " "))
               [] (txt " ") no_uploads no_uploads
               (Uploads 1 [(joinpath demo_dir (txt "p.png"), txt "images/id0.png")])
               eq_refl eq_refl eq_refl eq_refl eq_refl).
Defined.

(** C4 (as stated) fails: a raw tag whose file exists locally is neither
    uploaded nor rewritten. *)
Lemma forward_relocation_ignores_tags :
  path_exists demo_host (joinpath demo_dir (path_name (txt "images/p.png"))) = Ok true /\
  process_markdown_images demo_host (Some demo_backend) (render doc_tag_only)
    demo_dir true no_uploads = (render doc_tag_only, no_uploads).
Proof. split; reflexivity. Qed.

(** The scan cuts the markup into pieces that, put together again, are the
    markup: every match stands for the text it covers. *)
Lemma md_match_at_covers (s : text) (m : md_match) (k : nat) :
  md_match_at s = Some (m, k) ->
  exists r, s = md_group0 m ++ r /\ List.length (md_group0 m) = S k.
Proof.
  unfold md_match_at.
  destruct (strip_prefix (txt "![") s) as [s1|] eqn:E1; [|discriminate].
  apply strip_prefix_Some in E1.
  pose proof (span_eq (not_char "]") s1) as Ea.
  destruct (span (not_char "]") s1) as [alt s2]. cbn [fst snd] in Ea.
  destruct (strip_prefix (txt "](") s2) as [s3|] eqn:E2; [|discriminate].
  apply strip_prefix_Some in E2.
  pose proof (span_eq (not_char ")") s3) as Eu.
  destruct (span (not_char ")") s3) as [url s4]. cbn [fst snd] in Eu.
  destruct url as [|x url]; [discriminate|].
  destruct (strip_prefix (txt ")") s4) as [s5|] eqn:E3; [|discriminate].
  apply strip_prefix_Some in E3.
  intros H. injection H as <- <-. cbn [md_group0]. exists s5. split.
  - subst s s1 s2 s3 s4. cbn [app txt list_ascii_of_string].
    repeat (rewrite <- app_assoc; cbn [app]). reflexivity.
  - reflexivity.
Qed.

Lemma scan_md_partition (s : text) :
  original (scan md_match_at 0 s) = s.
Proof.
  remember (List.length s) as n eqn:Hn.
  assert (Hle : List.length s <= n) by lia. clear Hn.
  revert s Hle. induction n as [|n IH]; intros s Hle.
  - destruct s; [reflexivity | simpl in Hle; lia].
  - destruct s as [|c s]; [reflexivity|]. cbn [scan].
    destruct (md_match_at (c :: s)) as [[m k]|] eqn:E.
    + apply md_match_at_covers in E as (r & Es & Hl).
      destruct (md_group0 m) as [|c' w] eqn:Ew; [discriminate|].
      cbn [app] in Es. injection Es as <- ->.
      cbn [List.length] in Hl. injection Hl as <-.
      rewrite scan_skip. unfold original. cbn [flat_map].
      fold (original (scan md_match_at 0 r)). rewrite Ew, IH; [reflexivity|].
      cbn [List.length] in Hle. rewrite length_app in Hle. lia.
    + unfold original. cbn [flat_map].
      fold (original (scan md_match_at 0 s)). rewrite IH; [reflexivity|].
      cbn [List.length] in Hle. lia.
Qed.

Lemma original_app (l1 l2 : list (segment md_match)) :
  original (l1 ++ l2) = original l1 ++ original l2.
Proof. apply flat_map_app. Qed.

(** C5.  In forward relocation, for every markup and every inline image
    the scan finds in it ([m], with the pieces [before] and [after] it): when
    its file does not exist below the image directory, or the file exists
    and the upload raises, the text written for it is the text it covers in
    the markup, unchanged; what comes before it has been rewritten and what
    follows it is still rewritten, from the state reached. *)
Theorem failed_reference_left_unmodified (h : host) (b : StorageBackend)
    (dir md_content : text) (before after : list (segment md_match))
    (m : md_match) (o1 o2 : text) (st st1 st1' st2 : uploads) :
  let full := joinpath dir (path_name (md_group2 m)) in
  let key : text := txt "images/" ++ uuid4 h (drawn st1) ++ path_suffix full in
  scan md_match_at 0 md_content = before ++ Hit m :: after ->
  sub_segments (replace_image h b dir) before st = (Ok o1, st1) ->
  (path_exists h full = Ok false /\ st1' = st1) \/
  (path_exists h full = Ok true /\
   (exists e, put_object h b full key = Raise e) /\
   st1' = Uploads (S (drawn st1)) (stored st1)) ->
  sub_segments (replace_image h b dir) after st1' = (Ok o2, st2) ->
  md_content = original before ++ md_group0 m ++ original after /\
  process_markdown_images h (Some b) md_content dir true st =
  (o1 ++ md_group0 m ++ o2, st2).
Proof.
  intros full key Hscan Hpre Hcase Hpost. split.
  - rewrite <- (scan_md_partition md_content) at 1. rewrite Hscan.
    rewrite original_app. reflexivity.
  - unfold process_markdown_images, rewrite_images, re_sub. cbn [negb].
    rewrite Hscan, sub_segments_app, Hpre. cbn [sub_segments].
    unfold replace_image at 1. unfold upload_file. fold full.
    destruct Hcase as [[He ->] | (He & [e Hp] & ->)]; rewrite He.
    + rewrite Hpost. cbn [prepend]. reflexivity.
    + cbn [drawn stored]. fold key. rewrite Hp.
      rewrite Hpost. cbn [prepend]. reflexivity.
Qed.

Lemma failed_reference_left_unmodified_witness :
  render doc_upload_fails =
    original [Hit (Md_match (inline_image (txt "a") (txt "images/p.png"))
                            (txt "a") (txt "images/p.png"))] ++
    inline_image (txt "b") (txt "images/bad.png") ++
    original (map Lit (txt " and ") ++
              [Hit (Md_match (inline_image (txt "c") (txt "images/q.png"))
                             (txt "c") (txt "images/q.png"))]) /\
  process_markdown_images demo_host (Some demo_backend)
    (render doc_upload_fails) demo_dir true no_uploads =
  (img_tag (txt "https://bucket.oss-cn-shanghai.aliyuncs.com/images/id0.png")
           (txt "a") ++
   inline_image (txt "b") (txt "images/bad.png") ++
   txt " and " ++
   img_tag (txt "https://bucket.oss-cn-shanghai.aliyuncs.com/images/id2.png")
           (txt "c"),
   Uploads 3 [(joinpath demo_dir (txt "p.png"), txt "images/id0.png");
              (joinpath demo_dir (txt "q.png"), txt "images/id2.png")]).
Proof.
  apply (failed_reference_left_unmodified demo_host demo_backend demo_dir
           (render doc_upload_fails)
           [Hit (Md_match (inline_image (txt "a") (txt "images/p.png"))
                          (txt "a") (txt "images/p.png"))]
           (map Lit (txt " and ") ++
            [Hit (Md_match (inline_image (txt "c") (txt "images/q.png"))
                           (txt "c") (txt "images/q.png"))])
           (Md_match (inline_image (txt "b") (txt "images/bad.png"))
                     (txt "b") (txt "images/bad.png"))
           (img_tag (txt "https://bucket.oss-cn-shanghai.aliyuncs.com/images/id0.png")
                    (txt "a"))
           (txt " and " ++
            img_tag (txt "https://bucket.oss-cn-shanghai.aliyuncs.com/images/id2.png")
                    (txt "c"))
           no_uploads
           (Uploads 1 [(joinpath demo_dir (txt "p.png"), txt "images/id0.png")])
           (Uploads 2 [(joinpath demo_dir (txt "p.png"), txt "images/id0.png")])).
  - reflexivity.
  - reflexivity.
  - right. split; [reflexivity|]. split; [|reflexivity].
    exists (Exception (txt "upload failed")). reflexivity.
  - reflexivity.
Defined.

(** ** The status query's image step *)

(** C10.  The image-processing step returns its input unchanged when
    [upload_images] is false, and returns it unchanged when an exception
    leaves the rewriting pass; in every case the text it returns is either
    the input or the text of a completed pass, never a partial rewriting. *)
Theorem process_markdown_images_atomic (h : host) (sb : option StorageBackend)
    (md_content image_dir : text) (st : uploads) :
  process_markdown_images h sb md_content image_dir false st = (md_content, st) /\
  (forall b e st',
     sb = Some b ->
     rewrite_images h b md_content image_dir st = (Raise e, st') ->
     fst (process_markdown_images h sb md_content image_dir true st) = md_content) /\
  (forall upload_images,
     fst (process_markdown_images h sb md_content image_dir upload_images st) =
       md_content \/
     exists b st',
       sb = Some b /\
       rewrite_images h b md_content image_dir st =
       (Ok (fst (process_markdown_images h sb md_content image_dir upload_images st)),
        st')).
Proof.
  split; [reflexivity|]. split.
  - intros b e st' -> H. unfold process_markdown_images. cbn [negb].
    rewrite H. reflexivity.
  - intros [|]; [|left; reflexivity].
    unfold process_markdown_images. cbn [negb].
    destruct sb as [b|]; [|left; reflexivity].
    destruct (rewrite_images h b md_content image_dir st) as [[new|e] st'] eqn:E.
    + right. exists b, st'. split; [reflexivity | exact E].
    + left. reflexivity.
Qed.

Lemma process_markdown_images_atomic_witness :
  fst (process_markdown_images demo_host (Some demo_backend) (render doc_locked)
         demo_dir true no_uploads) = render doc_locked.
Proof.
  apply (proj1 (proj2 (process_markdown_images_atomic demo_host
                         (Some demo_backend) (render doc_locked) demo_dir
                         no_uploads))
               demo_backend (Exception (txt "PermissionError"))
               (Uploads 1 [(joinpath demo_dir (txt "p.png"), txt "images/id0.png")])).
  - reflexivity.
  - reflexivity.
Defined.

(** ** Reverse relocation *)

Lemma Ok_inj (A : Type) (a b : A) : Ok a = Ok b -> a = b.
Proof. intros H. injection H as ->. reflexivity. Qed.

Section ReverseFacts.
Variable ok : text -> bool.
Variable c : client.

Lemma download_loop_count (dir : text) (image_urls : list (text * text)) :
  forall i content count t n,
    download_loop ok c dir i image_urls content count = (t, n) ->
    count <= n <= count + List.length image_urls /\ (n = count -> t = content).
Proof.
  induction image_urls as [|[alt url] rest IH]; intros i content count t n;
    cbn [download_loop List.length].
  - intros H. injection H as <- <-. split; [lia | reflexivity].
  - destruct (fetch ok c dir i url count) as [[filename [|]]|e]; intros H;
      apply IH in H; destruct H as [Hb Hz]; split; try lia; auto.
Qed.

End ReverseFacts.







(** ** The factory *)

Lemma missing_getenv (c : config) (name : string) :
  missing c name = negb (truthy (getenv (environ c) name [])).
Proof. unfold missing, getenv. destruct (environ c name); reflexivity. Qed.

Lemma missing_any (c : config) (n1 n2 n3 n4 : string) :
  existsb (missing c) [n1; n2; n3; n4] = true ->
  negb (forallb truthy [getenv (environ c) n1 []; getenv (environ c) n2 [];
                        getenv (environ c) n3 []; getenv (environ c) n4 []]) = true.
Proof.
  cbn [existsb forallb]. rewrite !missing_getenv.
  destruct (truthy (getenv (environ c) n1 [])),
           (truthy (getenv (environ c) n2 [])),
           (truthy (getenv (environ c) n3 [])),
           (truthy (getenv (environ c) n4 [])); simpl; congruence.
Qed.

(** C9.  The factory returns no back end when the storage type is unknown
    and when any setting required for the selected type (endpoint, access
    key, secret key, bucket) is unset or empty; and with no back end, a
    request for image upload returns the markup unchanged, without error and
    without any upload. *)
Theorem missing_backend_disables_upload (c : config) (h : host)
    (md_content image_dir : text) (st : uploads) :
  (required_settings c = None -> create_storage_backend c = None) /\
  (forall names,
     required_settings c = Some names ->
     existsb (missing c) names = true ->
     create_storage_backend c = None) /\
  process_markdown_images h None md_content image_dir true st = (md_content, st).
Proof.
  unfold required_settings, create_storage_backend.
  set (ty := lower (getenv (environ c) "STORAGE_TYPE" (txt "minio"))).
  split; [|split; [|reflexivity]].
  - destruct (text_eqb ty (txt "minio") || text_eqb ty (txt "cos"));
      [discriminate|].
    destruct (text_eqb ty (txt "oss")); [discriminate | reflexivity].
  - intros names.
    destruct (text_eqb ty (txt "minio") || text_eqb ty (txt "cos")).
    + intros H. injection H as <-. intros H.
      rewrite (missing_any c _ _ _ _ H). reflexivity.
    + destruct (text_eqb ty (txt "oss")); [|discriminate].
      intros H. injection H as <-. intros H.
      rewrite (missing_any c _ _ _ _ H). reflexivity.
Qed.

Lemma missing_backend_disables_upload_witness :
  create_storage_backend empty_config = None.
Proof.
  exact (proj1 (proj2 (missing_backend_disables_upload empty_config demo_host
                         [] [] no_uploads))
               ["MINIO_ENDPOINT"; "MINIO_ACCESS_KEY"; "MINIO_SECRET_KEY";
                "MINIO_BUCKET"]%string eq_refl eq_refl).
Defined.

(** ** URLs of the vendor variant *)

Ltac by_bits c :=
  destruct c as [[] [] [] [] [] [] [] []]; vm_compute;
  repeat split; congruence.

Lemma label_host_char (c : ascii) : label_char c = true -> host_char c = true.
Proof. unfold host_char. intros ->. reflexivity. Qed.

Lemma label_char_not_dot (c : ascii) :
  label_char c = true -> negb (is_char "." c) = true.
Proof. by_bits c. Qed.

Lemma host_char_facts (c : ascii) :
  host_char c = true ->
  negb (is_unsafe_url_char c) = true /\
  negb (is_netloc_delim c) = true /\
  not_char "@" c = true /\ not_char ":" c = true /\ not_char "%" c = true /\
  is_char "[" c = false /\ is_char "]" c = false /\
  lower_char c = c.
Proof. by_bits c. Qed.

Lemma key_char_facts (c : ascii) :
  key_char c = true ->
  negb (is_unsafe_url_char c) = true /\
  not_char "#" c = true /\ not_char "?" c = true /\ is_char ";" c = false.
Proof. by_bits c. Qed.

Lemma filter_all (f : ascii -> bool) (a : text) :
  forallb f a = true -> filter f a = a.
Proof.
  induction a as [|x a IH]; simpl; [reflexivity|].
  rewrite andb_true_iff. intros [-> Ha]. rewrite (IH Ha). reflexivity.
Qed.

Lemma existsb_none (f : ascii -> bool) (a : text) :
  forallb (fun c => negb (f c)) a = true -> existsb f a = false.
Proof.
  induction a as [|x a IH]; simpl; [reflexivity|].
  rewrite andb_true_iff, negb_true_iff. intros [-> Ha]. exact (IH Ha).
Qed.

Lemma forallb_rev (f : ascii -> bool) (a : text) :
  forallb f (rev a) = forallb f a.
Proof.
  induction a as [|x a IH]; simpl; [reflexivity|].
  rewrite forallb_app, IH. simpl. rewrite andb_true_r. apply andb_comm.
Qed.

Lemma before_char_all (c : ascii) (a : text) :
  forallb (not_char c) a = true -> before_char c a = a.
Proof. intros H. unfold before_char. rewrite (span_all _ _ H). reflexivity. Qed.

Lemma after_char_all (c : ascii) (a : text) :
  forallb (not_char c) a = true -> after_char c a = [].
Proof. intros H. unfold after_char. rewrite (span_all _ _ H). reflexivity. Qed.

Lemma after_last_char_all (c : ascii) (a : text) :
  forallb (not_char c) a = true -> after_last_char c a = a.
Proof.
  intros H. unfold after_last_char. rewrite span_all.
  - apply rev_involutive.
  - rewrite forallb_rev. exact H.
Qed.

Lemma lower_fixed (a : text) :
  forallb host_char a = true -> lower a = a.
Proof.
  induction a as [|x a IH]; simpl; [reflexivity|].
  rewrite andb_true_iff. intros [Hx Ha].
  rewrite (IH Ha). f_equal. apply (host_char_facts x Hx).
Qed.

Lemma contains_unfold (n s : text) :
  contains n s =
  startswith n s || match s with [] => false | _ :: s' => contains n s' end.
Proof. destruct s; reflexivity. Qed.

Lemma contains_app (n a b : text) : contains n (a ++ n ++ b) = true.
Proof.
  induction a as [|x a IH]; rewrite contains_unfold.
  - unfold startswith. cbn [app]. rewrite strip_prefix_app. reflexivity.
  - cbn [app]. rewrite IH. apply orb_true_r.
Qed.

Lemma scan_no_occurrence (sep a : text) :
  contains sep a = false ->
  scan (replace_match_at sep) 0 a = map Lit a.
Proof.
  induction a as [|x a IH]; [reflexivity|].
  rewrite contains_unfold, orb_false_iff. intros [Hs Hc].
  cbn [scan map]. rewrite (IH Hc). unfold replace_match_at.
  destruct sep; [reflexivity|]. rewrite Hs. reflexivity.
Qed.

Lemma split_segments_lits (a : text) (l : list (segment unit)) :
  split_segments (map Lit a ++ l) =
  match split_segments l with
  | p :: ps => (a ++ p) :: ps
  | [] => [a]
  end.
Proof.
  induction a as [|x a IH]; simpl.
  - destruct l as [|[c|[]] l]; simpl; auto.
    destruct (split_segments l); reflexivity.
  - rewrite IH. destruct (split_segments l); reflexivity.
Qed.

(** The host name of a vendor URL is cut at its first [.oss-]. *)
Lemma str_split_host (bucket r : text) :
  forallb label_char bucket = true -> contains (txt ".oss-") r = false ->
  str_split (txt ".oss-") (bucket ++ txt ".oss-" ++ r) = [bucket; r].
Proof.
  intros Hb Hr. unfold str_split.
  rewrite (@scan_lits _ (replace_match_at (txt ".oss-")) (is_char ".") bucket).
  - rewrite (@scan_hit _ (replace_match_at (txt ".oss-")) tt (txt ".oss-") r).
    + rewrite (scan_no_occurrence _ _ Hr).
      rewrite split_segments_lits. cbn [split_segments].
      rewrite <- (app_nil_r (map Lit r)), split_segments_lits.
      cbn [split_segments]. rewrite !app_nil_r. reflexivity.
    + unfold replace_match_at, startswith.
      rewrite (strip_prefix_app (txt ".oss-") r). reflexivity.
    + discriminate.
  - intros c s Hc. unfold replace_match_at, startswith.
    cbn [txt list_ascii_of_string strip_prefix].
    unfold is_char in Hc. rewrite Ascii.eqb_sym, Hc. reflexivity.
  - apply (forallb_impl label_char); [exact label_char_not_dot | exact Hb].
Qed.

Ltac class_side lemma :=
  match goal with
  | H : forallb ?f ?a = true |- forallb _ ?a = true =>
    apply (forallb_impl f);
    [ let c := fresh "c" in let Hc := fresh "Hc" in
      intros c Hc; apply (lemma c Hc)
    | exact H ]
  end.

Lemma urlparse_https (ok : text -> bool) (host p : text) :
  forallb host_char host = true -> forallb key_char p = true ->
  urlparse ok (txt "https://" ++ host ++ "/"%char :: p) =
  Ok (Parse_result (txt "https") host ("/"%char :: p) [] [] []).
Proof.
  intros Hh Hp. unfold urlparse.
  set (url := txt "https://" ++ host ++ "/"%char :: p).
  change (snd (span is_c0_or_space url)) with url.
  assert (Hf : filter (fun c => negb (is_unsafe_url_char c)) url = url).
  { apply filter_all. unfold url. rewrite !forallb_app. cbn [forallb].
    assert (forallb (fun c => negb (is_unsafe_url_char c)) host = true)
      by class_side host_char_facts.
    assert (forallb (fun c => negb (is_unsafe_url_char c)) p = true)
      by class_side key_char_facts.
    rewrite H, H0. reflexivity. }
  rewrite Hf.
  change (split_scheme url) with (txt "https", txt "//" ++ host ++ "/"%char :: p).
  unfold split_netloc. rewrite strip_prefix_app.
  rewrite (@span_app (fun c => negb (is_netloc_delim c)) host "/" p);
    [|class_side host_char_facts | reflexivity].
  assert (Ho : has_char "[" host = false).
  { apply existsb_none. apply (forallb_impl host_char); [|exact Hh].
    intros c Hc. apply negb_true_iff. apply (host_char_facts c Hc). }
  assert (Hc : has_char "]" host = false).
  { apply existsb_none. apply (forallb_impl host_char); [|exact Hh].
    intros c Hc. apply negb_true_iff. apply (host_char_facts c Hc). }
  rewrite Ho, Hc. cbn [andb orb negb].
  assert (H1 : forallb (not_char "#") ("/"%char :: p) = true).
  { cbn [forallb]. assert (forallb (not_char "#") p = true)
      by class_side key_char_facts. rewrite H. reflexivity. }
  assert (H2 : forallb (not_char "?") ("/"%char :: p) = true).
  { cbn [forallb]. assert (forallb (not_char "?") p = true)
      by class_side key_char_facts. rewrite H. reflexivity. }
  rewrite (after_char_all _ _ H1), (before_char_all _ _ H1).
  rewrite (after_char_all _ _ H2), (before_char_all _ _ H2).
  assert (H3 : has_char ";" ("/"%char :: p) = false).
  { apply existsb_none. cbn [forallb].
    assert (forallb (fun c => negb (is_char ";" c)) p = true).
    { apply (forallb_impl key_char); [|exact Hp].
      intros c Hk. apply negb_true_iff. apply (key_char_facts c Hk). }
    rewrite H. reflexivity. }
  rewrite H3, andb_false_r. reflexivity.
Qed.

Lemma hostname_plain (s host p a q f : text) :
  forallb host_char host = true -> host <> [] ->
  hostname (Parse_result s host p a q f) = Some host.
Proof.
  intros Hh Hn. unfold hostname. cbn [netloc].
  rewrite after_last_char_all by class_side host_char_facts.
  assert (Ho : has_char "[" host = false).
  { apply existsb_none. apply (forallb_impl host_char); [|exact Hh].
    intros c Hc. apply negb_true_iff. apply (host_char_facts c Hc). }
  rewrite Ho. rewrite before_char_all by class_side host_char_facts.
  destruct host as [|x host]; [congruence|].
  assert (H : forallb (not_char "%") (x :: host) = true)
    by class_side host_char_facts.
  rewrite (before_char_all _ _ H), (span_all _ _ H). cbn [snd].
  rewrite app_nil_r, (lower_fixed _ Hh). reflexivity.
Qed.

Lemma lstrip_slash (key : text) :
  startswith (txt "/") key = false -> lstrip_char "/" ("/"%char :: key) = key.
Proof.
  unfold lstrip_char, startswith. destruct key as [|x key]; [reflexivity|].
  cbn [txt list_ascii_of_string strip_prefix]. intros H.
  change (span (is_char "/") ("/"%char :: x :: key))
    with (let (a, b) := span (is_char "/") (x :: key) in ("/"%char :: a, b)).
  cbn [span]. unfold is_char at 1. rewrite (Ascii.eqb_sym x).
  destruct (Ascii.eqb "/" x); [discriminate | reflexivity].
Qed.

(** C8 (as amended).  [get_url] is a function of the configuration and the
    key alone.  The vendor variant builds
    [https://{bucket}.{endpoint}/{key}]; the path-style variant builds a URL
    that starts with the scheme ([https] when the secure flag is set, [http]
    otherwise) and the endpoint, and ends with the key.  For a bucket name
    of lower-case letters, digits and hyphens, an endpoint [oss-...] of such
    labels separated by dots with no further [.oss-], and a key without
    [#], [?], [;], tab, line feed or carriage return that does not start
    with a slash, the decomposition of the vendor URL gives back the bucket,
    the endpoint and the key. *)
Theorem oss_url_round_trip (ok : text -> bool) (endpoint bucket key : text) :
  oss_bucket_ok bucket = true ->
  oss_endpoint_ok endpoint = true ->
  object_key_ok key = true ->
  get_url (OSSStorage endpoint bucket) key =
    txt "https://" ++ bucket ++ txt "." ++ endpoint ++ txt "/" ++ key /\
  (forall minio_endpoint minio_bucket secure object_name,
     get_url (MinioStorage minio_endpoint minio_bucket secure) object_name =
     (if secure then txt "https" else txt "http") ++
     txt "://" ++ minio_endpoint ++ txt "/" ++ object_name) /\
  parse_oss_url ok (get_url (OSSStorage endpoint bucket) key) =
    Ok (Some (bucket, endpoint, key)).
Proof.
  unfold oss_bucket_ok, oss_endpoint_ok, object_key_ok.
  intros Hb He Hk. split; [reflexivity|]. split; [reflexivity|].
  destruct (strip_prefix (txt "oss-") endpoint) as [r|] eqn:Er; [|discriminate].
  apply strip_prefix_Some in Er. subst endpoint.
  apply andb_true_iff in He as [Hr Hc]. apply negb_true_iff in Hc.
  apply andb_true_iff in Hk as [Hk Hs]. apply negb_true_iff in Hs.
  set (host := bucket ++ txt ".oss-" ++ r).
  assert (Hh : forallb host_char host = true).
  { unfold host. rewrite !forallb_app.
    rewrite (forallb_impl label_char host_char bucket label_host_char Hb), Hr.
    reflexivity. }
  assert (Hn : host <> []) by (unfold host; destruct bucket; discriminate).
  assert (Eu : get_url (OSSStorage (txt "oss-" ++ r) bucket) key =
               txt "https://" ++ host ++ "/"%char :: key).
  { unfold get_url, host. rewrite <- !app_assoc. reflexivity. }
  rewrite Eu. unfold parse_oss_url.
  rewrite (urlparse_https ok host key Hh Hk).
  rewrite (hostname_plain _ _ _ _ _ _ Hh Hn). cbn [or_empty path].
  unfold host at 1. rewrite contains_app.
  unfold host. rewrite (str_split_host bucket r Hb Hc).
  cbn [nth]. rewrite (lstrip_slash key Hs). reflexivity.
Qed.

Lemma oss_url_round_trip_witness :
  parse_oss_url (fun _ => true)
    (get_url (OSSStorage (txt "oss-cn-shanghai.aliyuncs.com") (txt "bucket-1"))
             (txt "images/id0.png")) =
  Ok (Some (txt "bucket-1", txt "oss-cn-shanghai.aliyuncs.com",
            txt "images/id0.png")).
Proof.
  exact (proj2 (proj2 (@oss_url_round_trip (fun _ => true)
                         (txt "oss-cn-shanghai.aliyuncs.com") (txt "bucket-1")
                         (txt "images/id0.png") eq_refl eq_refl eq_refl))).
Defined.

(** C8 (as stated) fails: within its conditions (an endpoint [oss-...], a
    bucket name without [.oss-]) the decomposition does not give back a
    bucket name with a capital letter, a key with [#], or an endpoint with a
    second [.oss-]; and the URL of the path-style variant does not depend on
    the bucket. *)
Lemma oss_url_round_trip_fails :
  parse_oss_url (fun _ => true)
    (get_url (OSSStorage (txt "oss-cn-shanghai.aliyuncs.com") (txt "Bucket"))
             (txt "images/a.png")) <>
  Ok (Some (txt "Bucket", txt "oss-cn-shanghai.aliyuncs.com", txt "images/a.png")) /\
  parse_oss_url (fun _ => true)
    (get_url (OSSStorage (txt "oss-cn-shanghai.aliyuncs.com") (txt "bucket"))
             (txt "images/a#1.png")) <>
  Ok (Some (txt "bucket", txt "oss-cn-shanghai.aliyuncs.com", txt "images/a#1.png")) /\
  parse_oss_url (fun _ => true)
    (get_url (OSSStorage (txt "oss-a.oss-b.example.com") (txt "bucket"))
             (txt "images/a.png")) <>
  Ok (Some (txt "bucket", txt "oss-a.oss-b.example.com", txt "images/a.png")) /\
  get_url (MinioStorage (txt "minio.local:9000") (txt "bucket-a") false)
          (txt "images/a.png") =
  get_url (MinioStorage (txt "minio.local:9000") (txt "bucket-b") false)
          (txt "images/a.png").
Proof.
  repeat split; try (vm_compute; intros H; discriminate H).
Qed.

(** ** The three polling loops *)

Section TianshuFacts.
Variable get : nat -> result json.
Variables poll_interval timeout : float.

Lemma tianshu_running_step (fuel k : nat) (elapsed : float) :
  tianshu_running (get k) = true -> (elapsed <? timeout)%float = true ->
  TianshuClient.wait_loop get poll_interval timeout (S fuel) k elapsed =
  TianshuClient.wait_loop get poll_interval timeout fuel (S k)
                          (elapsed + poll_interval)%float.
Proof.
  unfold tianshu_running. intros H Ht. cbn [TianshuClient.wait_loop].
  rewrite Ht.
  destruct (get k) as [result|e]; [|discriminate].
  destruct (json_item result "status") as [status|e]; [|discriminate].
  apply negb_true_iff in H. apply orb_false_iff in H as [H Hc].
  apply orb_false_iff in H as [Ha Hb]. rewrite Ha, Hb, Hc. reflexivity.
Qed.

Lemma tianshu_running_prefix (n : nat) :
  forall fuel k elapsed,
    (forall j, j < n -> tianshu_running (get (k + j)) = true) ->
    (forall j, j < n ->
       (elapsed_after poll_interval elapsed j <? timeout)%float = true) ->
    TianshuClient.wait_loop get poll_interval timeout (n + fuel) k elapsed =
    TianshuClient.wait_loop get poll_interval timeout fuel (k + n)
                            (elapsed_after poll_interval elapsed n).
Proof.
  induction n as [|n IH]; intros fuel k elapsed Hr Ht.
  - rewrite Nat.add_0_r. reflexivity.
  - cbn [Nat.add elapsed_after]. rewrite tianshu_running_step.
    + rewrite IH.
      * f_equal. lia.
      * intros j Hj. replace (S k + j) with (k + S j) by lia. apply Hr. lia.
      * intros j Hj. apply (Ht (S j)). lia.
    + specialize (Hr 0). rewrite Nat.add_0_r in Hr. apply Hr. lia.
    + apply (Ht 0). lia.
Qed.

End TianshuFacts.

Section RunPodFacts.
Variable get : nat -> result json.
Variable time : nat -> Z.
Variable timeout : Z.

Lemma runpod_running_step (fuel k : nat) :
  runpod_running (get k) = true -> (time (S k) - time 0 < timeout)%Z ->
  RunPodClient.wait_loop get time timeout (S fuel) k =
  RunPodClient.wait_loop get time timeout fuel (S k).
Proof.
  unfold runpod_running. intros H Ht. cbn [RunPodClient.wait_loop].
  apply Z.ltb_lt in Ht. rewrite Ht.
  destruct (get k) as [status|e]; [|reflexivity].
  destruct (json_get status "status" JNull) as [st|e]; [|reflexivity].
  apply negb_true_iff in H. apply orb_false_iff in H as [Ha Hb].
  rewrite Ha, Hb. reflexivity.
Qed.

Lemma runpod_running_prefix (n : nat) :
  forall fuel k,
    (forall j, j < n -> runpod_running (get (k + j)) = true /\
                        (time (S (k + j)) - time 0 < timeout)%Z) ->
    RunPodClient.wait_loop get time timeout (n + fuel) k =
    RunPodClient.wait_loop get time timeout fuel (k + n).
Proof.
  induction n as [|n IH]; intros fuel k Hr.
  - rewrite Nat.add_0_r. reflexivity.
  - cbn [Nat.add]. rewrite runpod_running_step.
    + rewrite IH; [f_equal; lia|].
      intros j Hj. replace (S k + j) with (k + S j) by lia. apply Hr. lia.
    + specialize (Hr 0). rewrite Nat.add_0_r in Hr. apply Hr. lia.
    + specialize (Hr 0). rewrite Nat.add_0_r in Hr. apply Hr. lia.
Qed.

End RunPodFacts.

Section HandlerFacts.
Import MinerURunPodHandler.
Variable self : service.

Lemma handler_running_step (fuel k : nat) (waited_time : Z) :
  handler_running (session_get self k) = true ->
  (waited_time < max_wait_time)%Z ->
  poll_loop self (S fuel) k waited_time =
  poll_loop self fuel (S k) (waited_time + poll_interval)%Z.
Proof.
  unfold handler_running. intros H Ht. cbn [poll_loop].
  apply Z.ltb_lt in Ht. rewrite Ht.
  destruct (session_get self k) as [r|e]; [|discriminate].
  apply andb_true_iff in H as [Hs H]. rewrite Hs. cbn [negb].
  destruct (body_json r) as [data|e]; [|discriminate].
  destruct (json_get data "status" JNull) as [st|e]; [|discriminate].
  destruct st as [| | |s| |]; try discriminate.
  unfold is_str in *.
  destruct (text_eqb s (txt "pending")) eqn:Ep.
  - apply text_eqb_eq in Ep. subst s. reflexivity.
  - cbn [orb] in H. apply text_eqb_eq in H. subst s. reflexivity.
Qed.

Lemma handler_running_prefix (n : nat) :
  forall fuel k waited_time,
    (forall j, j < n -> handler_running (session_get self (k + j)) = true) ->
    n = 0 \/ (waited_time + Z.of_nat (pred n) * poll_interval < max_wait_time)%Z ->
    poll_loop self (n + fuel) k waited_time =
    poll_loop self fuel (k + n) (waited_time + Z.of_nat n * poll_interval)%Z.
Proof.
  induction n as [|n IH]; intros fuel k waited_time Hr Ht.
  - rewrite Nat.add_0_r. cbn [Nat.add Z.of_nat]. f_equal. lia.
  - cbn [Nat.add]. rewrite handler_running_step.
    + rewrite IH.
      * f_equal; unfold poll_interval; lia.
      * intros j Hj. replace (S k + j) with (k + S j) by lia. apply Hr. lia.
      * destruct n as [|n]; [left; reflexivity | right].
        destruct Ht as [Ht|Ht]; [discriminate|].
        unfold poll_interval in *. cbn [pred] in *. lia.
    + specialize (Hr 0). rewrite Nat.add_0_r in Hr. apply Hr. lia.
    + destruct Ht as [Ht|Ht]; [discriminate|].
      unfold poll_interval in *. cbn [pred] in Ht. lia.
Qed.

(** The handler's loop ends within its bound of polls, whatever the service
    answers. *)
Lemma poll_loop_total (fuel : nat) :
  forall k waited_time,
    (max_wait_time - waited_time <= Z.of_nat fuel * poll_interval)%Z ->
    exists r, poll_loop self (S fuel) k waited_time = Some r.
Proof.
  unfold max_wait_time, poll_interval.
  induction fuel as [|fuel IH]; intros k waited_time Hb.
  - cbn [poll_loop]. unfold max_wait_time.
    destruct (Z.ltb_spec waited_time 300); [lia | eauto].
  - remember (S fuel) as f. cbn [poll_loop]. unfold max_wait_time. subst f.
    destruct (Z.ltb_spec waited_time 300); [|eauto].
    destruct (session_get self k) as [r|e]; [|eauto].
    destruct (negb (status r =? 200)); [eauto|].
    destruct (body_json r) as [data|e]; [|eauto].
    destruct (json_get data "status" JNull) as [st|e]; [|eauto].
    destruct (is_str st "completed"); [eauto|].
    destruct (is_str st "failed");
      [destruct (json_get data "error_message" _); eauto|].
    destruct (is_str st "pending" || is_str st "processing"); [|eauto].
    apply IH. unfold poll_interval. lia.
Qed.

Lemma handler_times_out (fuel : nat) :
  (forall j, handler_running (session_get self j) = true) ->
  forall k waited_time,
    (max_wait_time - waited_time <= Z.of_nat fuel * poll_interval)%Z ->
    poll_loop self (S fuel) k waited_time = Some (inr (Task_timeout max_wait_time)).
Proof.
  intros Hr. induction fuel as [|fuel IH]; intros k waited_time Hb.
  - cbn [poll_loop].
    destruct (Z.ltb_spec waited_time max_wait_time); [lia | reflexivity].
  - destruct (Z.ltb_spec waited_time max_wait_time) as [Hlt|Hge].
    + rewrite handler_running_step by auto. apply IH.
      unfold poll_interval in *. lia.
    + cbn [poll_loop].
      destruct (Z.ltb_spec waited_time max_wait_time); [lia | reflexivity].
Qed.

End HandlerFacts.

Lemma is_str_exclusive (x : json) (a b : string) :
  is_str x a = true -> txt a <> txt b -> is_str x b = false.
Proof.
  destruct x as [| | |s| |]; try discriminate. unfold is_str.
  intros Ha Hne. apply text_eqb_eq in Ha. subst s.
  destruct (text_eqb (txt a) (txt b)) eqn:E; [|reflexivity].
  apply text_eqb_eq in E. contradiction.
Qed.

(** C6 (as amended).  The three callers do not share one state machine.
    [TianshuClient.wait_for_task] keeps an elapsed time that starts at zero
    and to which the interval is added, in binary64, after every poll that
    leaves it running; before each poll it checks that the elapsed time is
    below the timeout.  As long as the checks pass, after any number of
    polls that left it running it returns the completed snapshot, raises
    with the remote message on [failed] and raises on [cancelled]; a status
    query that raises leaves the wait at once; and it raises the timeout
    error at the first check that fails.  The handler's loop does the same
    on [failed] and on a raising query, raises at once on a status line
    other than 200, reports [cancelled] as an unknown status, and times out
    after 150 polls.  Only
    [RunPodClient.wait_for_completion] goes on polling after a query that
    raised, as long as the clock is within the timeout; it returns the
    FAILED snapshot and a TIMEOUT record instead of raising. *)
Theorem waiting_loops_differ :
  (forall (get : nat -> result json) (poll_interval timeout : float) n fuel,
     (forall j, j <= n ->
        (elapsed_after poll_interval 0%float j <? timeout)%float = true) ->
     (forall j, j < n -> tianshu_running (get j) = true) ->
     let wait := TianshuClient.wait_for_task get poll_interval timeout (n + S fuel) in
     (forall e, get n = Raise e -> wait = Some (Raised (Propagated e))) /\
     (forall result status,
        get n = Ok result -> json_item result "status" = Ok status ->
        (is_str status "completed" = true -> wait = Some (Returned result)) /\
        (is_str status "failed" = true ->
         forall error,
           json_get result "error_message" (JStr (txt "Unknown error")) = Ok error ->
           wait = Some (Raised (Task_failed error))) /\
        (is_str status "cancelled" = true -> wait = Some (Raised Task_cancelled)))) /\
  (forall (get : nat -> result json) (poll_interval timeout : float) n fuel,
     (forall j, j < n ->
        (elapsed_after poll_interval 0%float j <? timeout)%float = true) ->
     (forall j, j < n -> tianshu_running (get j) = true) ->
     (elapsed_after poll_interval 0%float n <? timeout)%float = false ->
     TianshuClient.wait_for_task get poll_interval timeout (n + S fuel) =
     Some (Raised (Timeout_error timeout))) /\
  (forall self n fuel,
     n < 150 ->
     (forall j, j < n ->
        handler_running (MinerURunPodHandler.session_get self j) = true) ->
     let wait := MinerURunPodHandler.poll_loop self (n + S fuel) 0 0 in
     (forall e, MinerURunPodHandler.session_get self n = Raise e ->
        wait = Some (inr (MinerURunPodHandler.Other e))) /\
     (forall r, MinerURunPodHandler.session_get self n = Ok r ->
        (MinerURunPodHandler.status r =? 200) = false ->
        wait = Some (inr (MinerURunPodHandler.Status_check_failed
                            (MinerURunPodHandler.status r)))) /\
     (forall r data st,
        MinerURunPodHandler.session_get self n = Ok r ->
        (MinerURunPodHandler.status r =? 200) = true ->
        MinerURunPodHandler.body_json r = Ok data ->
        json_get data "status" JNull = Ok st ->
        (is_str st "failed" = true ->
         forall msg,
           json_get data "error_message" (JStr (txt "Unknown error")) = Ok msg ->
           wait = Some (inr (MinerURunPodHandler.Remote_task_failed msg))) /\
        (is_str st "cancelled" = true ->
         wait = Some (inr (MinerURunPodHandler.Unknown_task_status st))))) /\
  (forall self fuel,
     (forall j, handler_running (MinerURunPodHandler.session_get self j) = true) ->
     MinerURunPodHandler.poll_loop self (151 + fuel) 0 0 =
     Some (inr (MinerURunPodHandler.Task_timeout 300))) /\
  (forall (get : nat -> result json) (time : nat -> Z) (timeout : Z) n fuel,
     (forall j, j < n -> runpod_running (get j) = true /\
                         (time (S j) - time 0%nat < timeout)%Z) ->
     (forall e, get n = Raise e -> (time (S n) - time 0%nat < timeout)%Z ->
        RunPodClient.wait_for_completion get time timeout (n + S fuel) =
        RunPodClient.wait_loop get time timeout fuel (S n)) /\
     (forall status st,
        get n = Ok status -> (time (S n) - time 0%nat < timeout)%Z ->
        json_get status "status" JNull = Ok st ->
        is_str st "COMPLETED" || is_str st "FAILED" = true ->
        RunPodClient.wait_for_completion get time timeout (n + S fuel) =
        Some status) /\
     ((timeout <= time (S n) - time 0%nat)%Z ->
      RunPodClient.wait_for_completion get time timeout (n + S fuel) =
      Some (RunPodClient.timeout_record timeout))).
Proof.
  split; [|split; [|split; [|split]]].
  - intros get poll_interval timeout n fuel Ht Hr wait.
    assert (E : wait = TianshuClient.wait_loop get poll_interval timeout (S fuel) n
                         (elapsed_after poll_interval 0%float n)).
    { unfold wait, TianshuClient.wait_for_task.
      rewrite (tianshu_running_prefix get poll_interval timeout n (S fuel) 0
                 0%float).
      - reflexivity.
      - exact Hr.
      - intros j Hj. apply Ht. lia. }
    rewrite E. cbn [TianshuClient.wait_loop].
    rewrite (Ht n (le_n n)). split.
    + intros e ->. reflexivity.
    + intros result status -> ->. repeat split.
      * intros ->. reflexivity.
      * intros Hf error ->.
        rewrite (is_str_exclusive status "failed" "completed" Hf), Hf;
          [reflexivity | discriminate].
      * intros Hc.
        rewrite (is_str_exclusive status "cancelled" "completed" Hc),
                (is_str_exclusive status "cancelled" "failed" Hc), Hc;
          [reflexivity | discriminate | discriminate].
  - intros get poll_interval timeout n fuel Ht Hr Hend.
    unfold TianshuClient.wait_for_task.
    rewrite (tianshu_running_prefix get poll_interval timeout n (S fuel) 0
               0%float Hr Ht).
    cbn [TianshuClient.wait_loop]. rewrite Hend. reflexivity.
  - intros self n fuel Hn Hr wait.
    assert (E : wait = MinerURunPodHandler.poll_loop self (S fuel) n
                         (Z.of_nat n * 2)%Z).
    { unfold wait.
      rewrite (handler_running_prefix self n (S fuel) 0 0%Z).
      - reflexivity.
      - exact Hr.
      - destruct n as [|n]; [left; reflexivity | right].
        unfold MinerURunPodHandler.poll_interval,
               MinerURunPodHandler.max_wait_time. cbn [pred]. lia. }
    rewrite E. cbn [MinerURunPodHandler.poll_loop].
    assert (Ht : ((Z.of_nat n * 2 <? MinerURunPodHandler.max_wait_time) = true)%Z).
    { apply Z.ltb_lt. unfold MinerURunPodHandler.max_wait_time. lia. }
    rewrite Ht. split; [|split].
    + intros e ->. reflexivity.
    + intros r -> ->. reflexivity.
    + intros r data st -> -> -> ->. cbn [negb]. split.
      * intros Hf msg ->.
        rewrite (is_str_exclusive st "failed" "completed" Hf), Hf;
          [reflexivity | discriminate].
      * intros Hc.
        rewrite (is_str_exclusive st "cancelled" "completed" Hc),
                (is_str_exclusive st "cancelled" "failed" Hc),
                (is_str_exclusive st "cancelled" "pending" Hc),
                (is_str_exclusive st "cancelled" "processing" Hc);
          [reflexivity | discriminate | discriminate | discriminate | discriminate].
  - intros self fuel Hr.
    apply (handler_times_out self (150 + fuel) Hr).
    unfold MinerURunPodHandler.max_wait_time, MinerURunPodHandler.poll_interval.
    lia.
  - intros get time timeout n fuel Hr.
    assert (E : RunPodClient.wait_for_completion get time timeout (n + S fuel) =
                RunPodClient.wait_loop get time timeout (S fuel) n).
    { unfold RunPodClient.wait_for_completion.
      rewrite (runpod_running_prefix get time timeout n (S fuel) 0); [reflexivity|].
      exact Hr. }
    rewrite E. cbn [RunPodClient.wait_loop]. split; [|split].
    + intros e -> Ht. apply Z.ltb_lt in Ht. rewrite Ht. reflexivity.
    + intros status st -> Ht -> H. apply Z.ltb_lt in Ht. rewrite Ht.
      destruct (is_str st "COMPLETED"); [reflexivity|].
      cbn [orb] in H. rewrite H. reflexivity.
    + intros Ht. apply Z.ltb_ge in Ht. rewrite Ht. reflexivity.
Qed.

Lemma waiting_loops_differ_witness :
  TianshuClient.wait_for_task slow_queries a_tenth eight_tenths (8 + 1) =
  Some (Returned (snapshot "completed")).
Proof.
  destruct waiting_loops_differ as [H _].
  refine (proj1 (proj2 (H slow_queries a_tenth eight_tenths 8 0 _ _)
                       (snapshot "completed") (JStr (txt "completed"))
                       eq_refl eq_refl)
                eq_refl).
  - intros j Hj. do 9 (destruct j as [|j]; [reflexivity|]). lia.
  - intros j Hj. do 8 (destruct j as [|j]; [reflexivity|]). lia.
Defined.

(** C6 (as stated) fails: with a first status query that fails in transport
    and a second that reports completion, [wait_for_task] raises the
    transport error instead of polling again, while
    [wait_for_completion] does poll again; and the handler reports a
    cancelled task as an unknown status. *)
Lemma transport_error_not_retried :
  TianshuClient.wait_for_task flaky_queries 2%float 600%float 10 =
    Some (Raised (Propagated connection_reset)) /\
  flaky_queries 1 = Ok (snapshot "completed") /\
  RunPodClient.wait_for_completion flaky_runpod_queries (fun n => Z.of_nat n) 300 10 =
    Some (snapshot "COMPLETED") /\
  MinerURunPodHandler.poll_loop cancelled_service 151 0 0 =
    Some (inr (MinerURunPodHandler.Unknown_task_status (JStr (txt "cancelled")))).
Proof. repeat split. Qed.

(** ** The pass-through handler *)

Lemma submit_task_to_api_total (self : MinerURunPodHandler.service)
    (fuel : nat) (task_params : json) :
  150 <= fuel ->
  exists r, MinerURunPodHandler.submit_task_to_api self (S fuel) task_params = Some r.
Proof.
  intros Hf. unfold MinerURunPodHandler.submit_task_to_api.
  destruct (MinerURunPodHandler.session_post self task_params) as [r|e]; [|eauto].
  destruct (negb (MinerURunPodHandler.status r =? 200)).
  - destruct (MinerURunPodHandler.body_text r); eauto.
  - destruct (MinerURunPodHandler.body_json r) as [submit_result|e]; [|eauto].
    destruct (json_get submit_result "task_id" JNull) as [task_id|e]; [|eauto].
    destruct (negb (json_truthy task_id)); [eauto|].
    apply poll_loop_total.
    unfold MinerURunPodHandler.max_wait_time, MinerURunPodHandler.poll_interval.
    lia.
Qed.

(** C7.  For every event, [process_task] returns an envelope and lets no
    exception out: the wait on the internal service ends within its bound of
    polls, and whenever reading the input, the submission or the polling
    raises, the envelope returned has [success] false, the error raised as
    its message and the elapsed processing time. *)
Theorem process_task_failure_envelope (self : MinerURunPodHandler.service)
    (fuel : nat) (event : list (text * json)) :
  150 <= fuel ->
  let runpod_task_id :=
    MinerURunPodHandler.event_get event "id"
      (JStr (txt "runpod-" ++ decimal_Z (MinerURunPodHandler.time self 1))) in
  let elapsed :=
    (MinerURunPodHandler.time self 2 - MinerURunPodHandler.time self 0)%Z in
  (exists env, MinerURunPodHandler.process_task self (S fuel) event = Some (inl env)) /\
  (forall e,
     MinerURunPodHandler.api_params_of event = inr e \/
     (exists api_params,
        MinerURunPodHandler.api_params_of event = inl api_params /\
        MinerURunPodHandler.submit_task_to_api self (S fuel) api_params =
        Some (inr e)) ->
     let env := MinerURunPodHandler.failure_envelope self e elapsed runpod_task_id in
     MinerURunPodHandler.process_task self (S fuel) event = Some (inl env) /\
     lookup (txt "success") env = Some (MinerURunPodHandler.VJson (JBool false)) /\
     lookup (txt "error") env = Some (MinerURunPodHandler.VError e) /\
     lookup (txt "processing_time") env =
       Some (MinerURunPodHandler.VDuration elapsed)).
Proof.
  intros Hf runpod_task_id elapsed. split.
  - unfold MinerURunPodHandler.process_task.
    destruct (MinerURunPodHandler.api_params_of event) as [api_params|e]; [|eauto].
    destruct (submit_task_to_api_total self fuel api_params Hf) as [[env|e] ->];
      eauto.
  - intros e H env. split; [|repeat split].
    unfold MinerURunPodHandler.process_task.
    destruct H as [-> | (api_params & -> & ->)]; reflexivity.
Qed.

Lemma process_task_failure_envelope_witness :
  MinerURunPodHandler.process_task refusing_service 151 demo_event =
  Some (inl [(txt "success", MinerURunPodHandler.VJson (JBool false));
             (txt "error",
              MinerURunPodHandler.VError
                (MinerURunPodHandler.Api_submission_failed 503 (txt "busy")));
             (txt "processing_time", MinerURunPodHandler.VDuration 14);
             (txt "worker_id", MinerURunPodHandler.VJson (JStr (txt "worker-1")));
             (txt "runpod_task_id", MinerURunPodHandler.VJson (JStr (txt "job-1")))]).
Proof.
  refine (proj1 (proj2 (process_task_failure_envelope refusing_service 150
                          demo_event (le_n 150))
                       (MinerURunPodHandler.Api_submission_failed 503 (txt "busy"))
                       _)).
  right. eexists. split; reflexivity.
Defined.

(** * Properties of more of the code *)

(** ** The counting patterns on written markup *)

Section LazyFacts.
Variable A : Type.
Variable strip : text -> option text.
Variable k : text -> option A.

Lemma lazy_then_hit (s r : text) (x : A) :
  strip s = Some r -> k r = Some x -> lazy_then strip k s = Some x.
Proof. intros Hs Hk. destruct s; simpl; rewrite Hs, Hk; reflexivity. Qed.

Lemma lazy_then_skip (starter : ascii -> bool) (a s : text) :
  (forall c r, starter c = false -> strip (c :: r) = None) ->
  forallb (fun c => negb (starter c)) a = true ->
  single_line a = true ->
  lazy_then strip k (a ++ s) = lazy_then strip k s.
Proof.
  intros Hm. unfold single_line. induction a as [|c a IH]; [reflexivity|].
  cbn [forallb app]. rewrite !andb_true_iff, !negb_true_iff.
  intros [Hc Ha] [Hn Hl]. cbn [lazy_then].
  rewrite (Hm c (a ++ s) Hc), Hn. apply IH; assumption.
Qed.

End LazyFacts.

Lemma strip_prefix_head (x : ascii) (p : text) (c : ascii) (r : text) :
  is_char x c = false -> strip_prefix (x :: p) (c :: r) = None.
Proof.
  unfold is_char. intros H. cbn [strip_prefix]. rewrite Ascii.eqb_sym, H.
  reflexivity.
Qed.

Lemma lower_char_delimiter (x c : ascii) :
  delimiter x = true -> is_char x c = false -> Ascii.eqb x (lower_char c) = false.
Proof.
  destruct x as [[] [] [] [] [] [] [] []]; try discriminate;
    destruct c as [[] [] [] [] [] [] [] []]; vm_compute; congruence.
Qed.

Lemma lower_char_letter (x c : ascii) :
  in_range 97 122 x = true -> delimiter c = true -> Ascii.eqb x (lower_char c) = false.
Proof.
  destruct c as [[] [] [] [] [] [] [] []]; try discriminate;
    destruct x as [[] [] [] [] [] [] [] []]; vm_compute; congruence.
Qed.

Lemma covered_app (w s : text) : covered (w ++ s) s = pred (List.length w).
Proof. unfold covered. rewrite length_app. f_equal. lia. Qed.

Lemma count_pattern1_at_head (c : ascii) (r : text) :
  is_char "!" c = false -> count_pattern1_at (c :: r) = None.
Proof.
  intros H. unfold count_pattern1_at.
  change (txt "![") with ("!"%char :: txt "[").
  rewrite (strip_prefix_head _ _ _ _ H). reflexivity.
Qed.

Lemma count_pattern2_at_head (c : ascii) (r : text) :
  is_char "<" c = false -> count_pattern2_at (c :: r) = None.
Proof.
  intros H. unfold count_pattern2_at.
  cbn [txt list_ascii_of_string strip_prefix_ci].
  rewrite (lower_char_delimiter "<" c eq_refl H). reflexivity.
Qed.

Lemma count_pattern1_at_inline (alt target s : text) :
  plain alt = true -> plain target = true ->
  single_line alt = true -> single_line target = true ->
  count_pattern1_at (inline_image alt target ++ s) =
  Some (tt, pred (List.length (inline_image alt target))).
Proof.
  intros Ha Ht La Lt. unfold count_pattern1_at.
  assert (H1 : strip_prefix (txt "![") (inline_image alt target ++ s) =
               Some (alt ++ txt "](" ++ target ++ txt ")" ++ s)).
  { unfold inline_image. rewrite <- !app_assoc. apply strip_prefix_app. }
  rewrite H1.
  rewrite (lazy_then_skip _ _ _ (is_char "]") alt);
    [|intros c r Hc; apply (strip_prefix_head "]" (txt "(") c r Hc)
     |exact (plain_no_starter "]" alt eq_refl Ha) | exact La].
  rewrite (lazy_then_hit _ _ _ _ (target ++ txt ")" ++ s) s);
    [rewrite covered_app; reflexivity | apply strip_prefix_app |].
  rewrite (lazy_then_skip _ _ _ (is_char ")") target);
    [|intros c r Hc; apply (strip_prefix_head ")" [] c r Hc)
     |exact (plain_no_starter ")" target eq_refl Ht) | exact Lt].
  apply (lazy_then_hit _ _ _ _ s); [apply strip_prefix_app | reflexivity].
Qed.

Lemma strip_prefix_ci_head (x : ascii) (p : text) (c : ascii) (r : text) :
  Ascii.eqb x (lower_char c) = false -> strip_prefix_ci (x :: p) (c :: r) = None.
Proof. intros H. cbn [strip_prefix_ci]. rewrite H. reflexivity. Qed.

Lemma count_pattern2_at_tag (alt target s : text) :
  plain alt = true -> plain target = true ->
  single_line alt = true -> single_line target = true ->
  count_pattern2_at (img_tag target alt ++ s) =
  Some (tt, pred (List.length (img_tag target alt))).
Proof.
  intros Ha Ht La Lt. unfold count_pattern2_at.
  set (inner := [dquote] ++ target ++ [dquote] ++ txt " alt=" ++ [dquote] ++
                alt ++ [dquote]).
  assert (H1 : strip_prefix_ci (txt "<img") (img_tag target alt ++ s) =
               Some ([" "%char] ++ txt "src=" ++ inner ++ txt ">" ++ s)).
  { unfold img_tag, inner. rewrite <- !app_assoc. reflexivity. }
  rewrite H1.
  rewrite (lazy_then_skip _ _ _ (fun c => Ascii.eqb "s" (lower_char c)) [" "%char]);
    [|intros c r Hc; apply (strip_prefix_ci_head "s" (txt "rc=") c r Hc)
     |reflexivity | reflexivity].
  rewrite (lazy_then_hit _ _ _ _ (inner ++ txt ">" ++ s) s);
    [rewrite covered_app; reflexivity | reflexivity |].
  rewrite (lazy_then_skip _ _ _ (is_char ">") inner).
  - apply (lazy_then_hit _ _ _ _ s); [apply strip_prefix_app | reflexivity].
  - intros c r Hc. apply (strip_prefix_head ">" [] c r Hc).
  - unfold inner. rewrite !forallb_app.
    rewrite (plain_no_starter ">" alt eq_refl Ha),
            (plain_no_starter ">" target eq_refl Ht). reflexivity.
  - unfold inner, single_line in *. rewrite !forallb_app, La, Lt. reflexivity.
Qed.

Lemma one_line_fields (alt target : text) :
  single_line alt && single_line target = true ->
  single_line alt = true /\ single_line target = true.
Proof. apply andb_true_iff. Qed.

Lemma length_hits_lits (M : Type) (a : text) (l : list (segment M)) :
  List.length (hits (map Lit a ++ l)) = List.length (hits l).
Proof. rewrite hits_app, hits_lits. reflexivity. Qed.

(** The first counting pattern finds the inline images of written markup. *)
Lemma count_pattern1_written (items : list item) :
  wf items = true -> one_line items = true ->
  List.length (finditer count_pattern1_at (render items)) =
  List.length (inlines items).
Proof.
  unfold finditer. induction items as [|i items IH]; [reflexivity|].
  intros Hw Hl. apply wf_cons in Hw as [Hi Hw].
  unfold one_line in Hl. cbn [forallb] in Hl.
  apply andb_true_iff in Hl as [Li Hl]. specialize (IH Hw Hl).
  change (render (i :: items)) with (render_item i ++ render items).
  destruct i as [t|alt target|alt target];
    cbn [render_item wf_item one_line_item inlines] in *.
  - rewrite (scan_lits _ count_pattern1_at (is_char "!") t);
      [|exact count_pattern1_at_head | exact (plain_no_starter "!" t eq_refl Hi)].
    rewrite length_hits_lits. exact IH.
  - apply wf_item_fields in Hi as (Ha & Ht & Hn).
    apply one_line_fields in Li as [La Lt].
    rewrite (scan_hit _ count_pattern1_at tt (inline_image alt target));
      [|apply count_pattern1_at_inline; assumption
       |unfold inline_image; discriminate].
    cbn [hits List.length]. rewrite IH. reflexivity.
  - apply wf_item_fields in Hi as (Ha & Ht & Hn).
    rewrite (scan_lits _ count_pattern1_at (is_char "!") (img_tag target alt));
      [|exact count_pattern1_at_head | apply img_tag_no_bang; assumption].
    rewrite length_hits_lits. exact IH.
Qed.

(** The second counting pattern finds the raw tags of written markup. *)
Lemma count_pattern2_written (items : list item) :
  wf items = true -> one_line items = true ->
  List.length (finditer count_pattern2_at (render items)) =
  List.length (tags items).
Proof.
  unfold finditer. induction items as [|i items IH]; [reflexivity|].
  intros Hw Hl. apply wf_cons in Hw as [Hi Hw].
  unfold one_line in Hl. cbn [forallb] in Hl.
  apply andb_true_iff in Hl as [Li Hl]. specialize (IH Hw Hl).
  change (render (i :: items)) with (render_item i ++ render items).
  destruct i as [t|alt target|alt target];
    cbn [render_item wf_item one_line_item tags] in *.
  - rewrite (scan_lits _ count_pattern2_at (is_char "<") t);
      [|exact count_pattern2_at_head | exact (plain_no_starter "<" t eq_refl Hi)].
    rewrite length_hits_lits. exact IH.
  - apply wf_item_fields in Hi as (Ha & Ht & Hn).
    rewrite (scan_lits _ count_pattern2_at (is_char "<") (inline_image alt target));
      [|exact count_pattern2_at_head | apply inline_image_no_lt; assumption].
    rewrite length_hits_lits. exact IH.
  - apply wf_item_fields in Hi as (Ha & Ht & Hn).
    apply one_line_fields in Li as [La Lt].
    rewrite (scan_hit _ count_pattern2_at tt (img_tag target alt));
      [|apply count_pattern2_at_tag; assumption
       |unfold img_tag; discriminate].
    cbn [hits List.length]. rewrite IH. reflexivity.
Qed.

Lemma references_count (items : list item) :
  List.length (references items) =
  List.length (inlines items) + List.length (tags items).
Proof.
  induction items as [|[t|alt target|alt target] items IH]; simpl; lia.
Qed.

(** ** The translation of a completed snapshot *)

Lemma image_count_of_str (s : text) : image_count_of (JStr s) = Ok (count_images s).
Proof. destruct s; reflexivity. Qed.

Lemma lookup_dict_get (d : list (text * json)) (key : string) (v default : json) :
  lookup (txt key) d = Some v -> dict_get d key default = v.
Proof. unfold dict_get. intros ->. reflexivity. Qed.

(** X1.  For a completed snapshot whose content is markup written from
    plain text and image references that stay on one line, the translation
    succeeds, reports the length of the content, and counts exactly the
    image references of both syntaxes. *)
Theorem convert_counts_references (d data : list (text * json)) (items : list item) :
  lookup (txt "data") d = Some (JDict data) ->
  lookup (txt "content") data = Some (JStr (render items)) ->
  wf items = true -> one_line items = true ->
  exists env,
    _convert_api_response_to_runpod_format (JDict d) = inl env /\
    lookup (txt "success") env = Some (vjson (JBool true)) /\
    lookup (txt "content") env = Some (vjson (JStr (render items))) /\
    lookup (txt "content_length") env =
      Some (vjson (JNum (Z.of_nat (List.length (render items))))) /\
    lookup (txt "image_count") env =
      Some (vjson (JNum (Z.of_nat (List.length (references items))))).
Proof.
  intros Hd Hc Hw Hl.
  unfold _convert_api_response_to_runpod_format, convert_body.
  rewrite (lookup_dict_get d "data" _ JNull Hd).
  destruct data as [|kv data']; [discriminate|].
  rewrite (lookup_dict_get (kv :: data') "content" _ (JStr []) Hc).
  cbn [json_len]. rewrite image_count_of_str.
  unfold count_images.
  rewrite (count_pattern1_written items Hw Hl), (count_pattern2_written items Hw Hl).
  rewrite <- references_count.
  eexists. split; [reflexivity|]. repeat split.
Qed.

Lemma convert_counts_references_witness :
  exists env,
    _convert_api_response_to_runpod_format
      (JDict (completed_snapshot (txt "t-1") (JStr (render doc_mixed)) (JBool true))) =
      inl env /\
    lookup (txt "image_count") env = Some (vjson (JNum 2)).
Proof.
  destruct (convert_counts_references
              (completed_snapshot (txt "t-1") (JStr (render doc_mixed)) (JBool true))
              [(txt "markdown_file", JStr (txt "doc.md"));
               (txt "content", JStr (render doc_mixed));
               (txt "images_uploaded", JBool false);
               (txt "has_images", JBool true)]
              doc_mixed eq_refl eq_refl eq_refl eq_refl)
    as (env & E & _ & _ & _ & Hc).
  exists env. split; [exact E | exact Hc].
Defined.

Lemma result_files_bound (data : list (text * json)) (n : nat) :
  1 <= List.length (result_files_of data n) <= 11.
Proof.
  unfold result_files_of. cbn [List.length].
  destruct (json_truthy (dict_get data "has_images" (JBool false))).
  - rewrite length_map, length_seq. lia.
  - simpl. lia.
Qed.

(** X2.  Whatever dictionary it is given, the translation returns a record
    of one of two shapes: a success record with a list of at most eleven
    result files, or a failure record with the error, the task id and the
    status.  A snapshot without a non-empty [data] dictionary gives the
    success record with empty content, zero counts and no result files. *)
Theorem convert_shape (d : list (text * json)) :
  exists env,
    _convert_api_response_to_runpod_format (JDict d) = inl env /\
    ((lookup (txt "success") env = Some (vjson (JBool true)) /\
      exists files,
        lookup (txt "result_files") env = Some (vjson (JList files)) /\
        List.length files <= 11) \/
     (lookup (txt "success") env = Some (vjson (JBool false)) /\
      (exists e, lookup (txt "error") env =
                 Some (MinerURunPodHandler.VError (MinerURunPodHandler.Other e))) /\
      lookup (txt "task_id") env = Some (vjson (dict_get d "task_id" JNull)) /\
      lookup (txt "result_files") env = None)) /\
    ((forall kv data', dict_get d "data" JNull <> JDict (kv :: data')) ->
     lookup (txt "success") env = Some (vjson (JBool true)) /\
     lookup (txt "content") env = Some (vjson (JStr [])) /\
     lookup (txt "content_length") env = Some (vjson (JNum 0)) /\
     lookup (txt "image_count") env = Some (vjson (JNum 0)) /\
     lookup (txt "result_files") env = Some (vjson (JList []))).
Proof.
  unfold _convert_api_response_to_runpod_format, convert_body.
  destruct (dict_get d "data" JNull) as [| b | n | s | l | [|kv data']] eqn:Hd;
    try (eexists; split; [reflexivity|]; split;
         [left; split; [reflexivity|]; exists []; split; [reflexivity | simpl; lia]
         |intros _; repeat split]).
  destruct (json_len (dict_get (kv :: data') "content" (JStr []))) as [n|e].
  - destruct (image_count_of (dict_get (kv :: data') "content" (JStr []))) as [c|e].
    + eexists. split; [reflexivity|]. split.
      * left. split; [reflexivity|]. eexists. split; [reflexivity|].
        apply result_files_bound.
      * intros H. exfalso. apply (H kv data'). reflexivity.
    + eexists. split; [reflexivity|]. split.
      * right. repeat split. exists e. reflexivity.
      * intros H. exfalso. apply (H kv data'). reflexivity.
  - eexists. split; [reflexivity|]. split.
    + right. repeat split. exists e. reflexivity.
    + intros H. exfalso. apply (H kv data'). reflexivity.
Qed.

Lemma convert_shape_witness :
  exists env,
    _convert_api_response_to_runpod_format
      (JDict [(txt "task_id", JStr (txt "t-1")); (txt "status", JStr (txt "completed"))]) =
      inl env /\
    lookup (txt "result_files") env = Some (vjson (JList [])).
Proof.
  destruct (convert_shape
              [(txt "task_id", JStr (txt "t-1")); (txt "status", JStr (txt "completed"))])
    as (env & E & _ & H).
  exists env. split; [exact E|].
  apply H. intros kv data' Hd. discriminate Hd.
Defined.

(** ** Dictionaries *)

Section DictFacts.
Variable A : Type.

Lemma lookup_dict_set_same (key : text) (v : A) (d : list (text * A)) :
  lookup key (dict_set key v d) = Some v.
Proof.
  induction d as [|[k x] d IH]; simpl.
  - rewrite text_eqb_refl. reflexivity.
  - destruct (text_eqb k key) eqn:E; simpl; rewrite E; auto.
Qed.

Lemma lookup_dict_set_other (key key' : text) (v : A) (d : list (text * A)) :
  text_eqb key' key = false ->
  lookup key (dict_set key' v d) = lookup key d.
Proof.
  intros Hne. induction d as [|[k x] d IH]; simpl.
  - rewrite Hne. reflexivity.
  - destruct (text_eqb k key') eqn:E; simpl.
    + apply text_eqb_eq in E. subst k. rewrite Hne. reflexivity.
    + destruct (text_eqb k key); auto.
Qed.

End DictFacts.

(** ** The handler on a completed task *)

(** X3.  When the submission and the wait succeed, [process_task] returns
    the record of the translation with four keys set: the processing time,
    the handler's own worker id (whatever worker the snapshot named), the
    outer task id and, as [api_task_id], the task id of the record; every
    other key of the record, [success] among them, is passed on as it
    was. *)
Theorem process_task_success_envelope (self : MinerURunPodHandler.service)
    (fuel : nat) (event : list (text * json)) (api_params : json)
    (result : MinerURunPodHandler.envelope) :
  MinerURunPodHandler.api_params_of event = inl api_params ->
  MinerURunPodHandler.submit_task_to_api self fuel api_params = Some (inl result) ->
  exists env,
    MinerURunPodHandler.process_task self fuel event = Some (inl env) /\
    lookup (txt "processing_time") env =
      Some (MinerURunPodHandler.VDuration
              (MinerURunPodHandler.time self 2 - MinerURunPodHandler.time self 0)) /\
    lookup (txt "worker_id") env =
      Some (vjson (JStr (MinerURunPodHandler.worker_id self))) /\
    lookup (txt "runpod_task_id") env =
      Some (vjson (MinerURunPodHandler.event_get event "id"
                     (JStr (txt "runpod-" ++
                            decimal_Z (MinerURunPodHandler.time self 1))))) /\
    lookup (txt "api_task_id") env =
      Some (match lookup (txt "task_id") result with
            | Some v => v
            | None => vjson JNull
            end) /\
    (forall key,
       existsb (text_eqb key)
         [txt "processing_time"; txt "worker_id"; txt "runpod_task_id";
          txt "api_task_id"] = false ->
       lookup key env = lookup key result).
Proof.
  intros Hp Hs. unfold MinerURunPodHandler.process_task. rewrite Hp, Hs.
  eexists. split; [reflexivity|].
  unfold dict_update. cbn [fold_left fst snd].
  repeat split.
  - rewrite !lookup_dict_set_other by reflexivity. apply lookup_dict_set_same.
  - rewrite !lookup_dict_set_other by reflexivity. apply lookup_dict_set_same.
  - rewrite !lookup_dict_set_other by reflexivity. apply lookup_dict_set_same.
  - apply lookup_dict_set_same.
  - intros key Hk. cbn [existsb] in Hk.
    rewrite !orb_false_iff in Hk. destruct Hk as (H1 & H2 & H3 & H4 & _).
    rewrite !lookup_dict_set_other; auto;
      rewrite <- not_true_iff_false in *; rewrite text_eqb_eq in *; congruence.
Qed.


Lemma process_task_success_envelope_witness :
  exists env,
    MinerURunPodHandler.process_task (completing_service (render doc_mixed)) 1
      demo_event = Some (inl env) /\
    lookup (txt "worker_id") env = Some (vjson (JStr (txt "worker-1"))) /\
    lookup (txt "status") env = Some (vjson (JStr (txt "completed"))).
Proof.
  destruct (process_task_success_envelope (completing_service (render doc_mixed)) 1
              demo_event _ _ eq_refl eq_refl)
    as (env & E & _ & Hw & _ & _ & Hk).
  exists env. split; [exact E|]. split; [exact Hw|].
  rewrite (Hk (txt "status") eq_refl). reflexivity.
Defined.

(** ** The request parameters and the outer handler *)

Lemma inl_inj (A B : Type) (a b : A) : @inl A B a = inl b -> a = b.
Proof. intros H. injection H as ->. reflexivity. Qed.

Lemma json_get_dict (input : list (text * json)) (key : string) (default : json) :
  json_get (JDict input) key default = Ok (dict_get input key default).
Proof.
  unfold json_get, dict_get. destruct (lookup (txt key) input); reflexivity.
Qed.

Lemma text_eqb_sym_false (a b : text) : text_eqb a b = false -> text_eqb b a = false.
Proof.
  intros H. rewrite <- not_true_iff_false in *. rewrite text_eqb_eq in *. congruence.
Qed.

(** X4.  [process_task] builds request parameters exactly when the input of
    the event is a dictionary with a truthy [object_name]; otherwise it
    fails with [object_name is required], or with the attribute error of an
    input that is no dictionary.  The parameters carry the object name, the
    six options with their defaults (pipeline, ch, auto, true, true, 0) and
    the file name when it is truthy; no other key of the input is
    forwarded. *)
Theorem api_params_forwarded (event : list (text * json)) :
  let input_data := MinerURunPodHandler.event_get event "input" (JDict []) in
  (forall params,
     MinerURunPodHandler.api_params_of event = inl params ->
     exists input d,
       input_data = JDict input /\ params = JDict d /\
       json_truthy (dict_get input "object_name" JNull) = true /\
       lookup (txt "object_name") d = Some (dict_get input "object_name" JNull) /\
       lookup (txt "backend") d =
         Some (dict_get input "backend" (JStr (txt "pipeline"))) /\
       lookup (txt "lang") d = Some (dict_get input "lang" (JStr (txt "ch"))) /\
       lookup (txt "method") d = Some (dict_get input "method" (JStr (txt "auto"))) /\
       lookup (txt "formula_enable") d =
         Some (dict_get input "formula_enable" (JBool true)) /\
       lookup (txt "table_enable") d =
         Some (dict_get input "table_enable" (JBool true)) /\
       lookup (txt "priority") d = Some (dict_get input "priority" (JNum 0)) /\
       lookup (txt "file_name") d =
         (if json_truthy (dict_get input "file_name" JNull)
          then Some (dict_get input "file_name" JNull) else None) /\
       (forall key, existsb (text_eqb key) forwarded_keys = false ->
                    lookup key d = None)) /\
  (forall e,
     MinerURunPodHandler.api_params_of event = inr e <->
     (e = MinerURunPodHandler.Other attribute_error /\
      forall input, input_data <> JDict input) \/
     (e = MinerURunPodHandler.Object_name_required /\
      exists input, input_data = JDict input /\
                    json_truthy (dict_get input "object_name" JNull) = false)).
Proof.
  intros input_data. unfold MinerURunPodHandler.api_params_of.
  fold input_data. split.
  - intros params.
    destruct input_data as [| b | n | s | l | input]; try discriminate.
    rewrite !json_get_dict.
    destruct (json_truthy (dict_get input "object_name" JNull)) eqn:Et;
      [|discriminate].
    cbn [negb]. intros H. apply inl_inj in H. subst params.
    exists input. eexists. split; [reflexivity|]. split; [reflexivity|].
    split; [exact Et|].
    destruct (json_truthy (dict_get input "file_name" JNull)).
    + repeat split.
      intros key Hk. cbn [existsb forwarded_keys] in Hk.
      rewrite !orb_false_iff in Hk.
      destruct Hk as (H1 & H2 & H3 & H4 & H5 & H6 & H7 & H8 & _).
      apply text_eqb_sym_false in H1, H2, H3, H4, H5, H6, H7, H8.
      rewrite lookup_dict_set_other by exact H8.
      cbn [lookup]. rewrite H1, H2, H3, H4, H5, H6, H7. reflexivity.
    + repeat split.
      intros key Hk. cbn [existsb forwarded_keys] in Hk.
      rewrite !orb_false_iff in Hk.
      destruct Hk as (H1 & H2 & H3 & H4 & H5 & H6 & H7 & H8 & _).
      apply text_eqb_sym_false in H1, H2, H3, H4, H5, H6, H7, H8.
      cbn [lookup]. rewrite H1, H2, H3, H4, H5, H6, H7. reflexivity.
  - intros e.
    destruct input_data as [| b | n | s | l | input];
      try (cbn [json_get]; split;
           [intros H; injection H as <-; left; split;
            [reflexivity | intros input; discriminate]
           |intros [[-> _] | [_ (input & Hi & _)]]; [reflexivity | discriminate Hi]]).
    rewrite json_get_dict.
    destruct (json_truthy (dict_get input "object_name" JNull)) eqn:Et; cbn [negb].
    + split; [discriminate|].
      intros [[_ H] | [_ (input' & Hi & Ht)]].
      * exfalso. apply (H input). reflexivity.
      * injection Hi as <-. congruence.
    + split.
      * intros H. injection H as <-. right. split; [reflexivity|].
        exists input. split; [reflexivity | exact Et].
      * intros [[_ H] | [-> _]]; [|reflexivity].
        exfalso. apply (H input). reflexivity.
Qed.


Lemma api_params_forwarded_witness :
  exists d,
    MinerURunPodHandler.api_params_of demo_event = inl (JDict d) /\
    lookup (txt "backend") d = Some (JStr (txt "pipeline")) /\
    lookup (txt "file_name") d = None.
Proof.
  destruct (proj1 (api_params_forwarded demo_event) _ eq_refl)
    as (input & d & Hi & Hp & _ & _ & Hb & _ & _ & _ & _ & _ & Hf & _).
  apply (f_equal (fun j => match j with JDict x => x | _ => [] end)) in Hi, Hp.
  cbn in Hi. subst input. exists d. split.
  - cbn in Hp. subst d. reflexivity.
  - split; [exact Hb | exact Hf].
Defined.

Lemma process_task_total (self : MinerURunPodHandler.service) (fuel : nat)
    (event : list (text * json)) :
  150 <= fuel ->
  exists env, MinerURunPodHandler.process_task self (S fuel) event = Some (inl env).
Proof.
  intros Hf. unfold MinerURunPodHandler.process_task.
  destruct (MinerURunPodHandler.api_params_of event) as [api_params|e]; [|eauto].
  destruct (submit_task_to_api_total self fuel api_params Hf) as [[env|e] ->];
    eauto.
Qed.

(** X5.  The outer handler reads the action of the input before
    [process_task] and outside its [try] block.  With a dictionary as input
    it answers the health record without contacting the internal service
    when the action is [health], and otherwise is [process_task], so that it
    returns an envelope; with an input that is present and no dictionary it
    lets the attribute error out, although [process_task] alone answers such
    an event with a failure envelope. *)
Theorem runpod_handler_dispatch (self : MinerURunPodHandler.service)
    (api_url : text) (fuel : nat) (event : list (text * json)) :
  let input_data := MinerURunPodHandler.event_get event "input" (JDict []) in
  (forall input,
     input_data = JDict input ->
     (is_str (dict_get input "action" JNull) "health" = true ->
      runpod_handler self api_url fuel event =
      Some (inl (health_record self api_url))) /\
     (is_str (dict_get input "action" JNull) "health" = false ->
      runpod_handler self api_url fuel event =
      MinerURunPodHandler.process_task self fuel event) /\
     (150 < fuel ->
      exists env, runpod_handler self api_url fuel event = Some (inl env))) /\
  ((forall input, input_data <> JDict input) ->
   runpod_handler self api_url fuel event =
     Some (inr (MinerURunPodHandler.Other attribute_error)) /\
   MinerURunPodHandler.process_task self fuel event =
     Some (inl (MinerURunPodHandler.failure_envelope self
                  (MinerURunPodHandler.Other attribute_error)
                  (MinerURunPodHandler.time self 2 - MinerURunPodHandler.time self 0)
                  (MinerURunPodHandler.event_get event "id"
                     (JStr (txt "runpod-" ++
                            decimal_Z (MinerURunPodHandler.time self 1))))))).
Proof.
  intros input_data. unfold runpod_handler. fold input_data. split.
  - intros input Hi. rewrite Hi, json_get_dict. split; [|split].
    + intros ->. reflexivity.
    + intros ->. reflexivity.
    + intros Hf. destruct (is_str (dict_get input "action" JNull) "health");
        [eauto|].
      destruct fuel as [|fuel]; [lia|].
      apply process_task_total. lia.
  - intros Hn. unfold MinerURunPodHandler.process_task,
      MinerURunPodHandler.api_params_of. fold input_data.
    destruct input_data as [| b | n | s | l | input];
      try (split; reflexivity).
    exfalso. apply (Hn input). reflexivity.
Qed.

Lemma runpod_handler_dispatch_witness :
  runpod_handler refusing_service (txt "http://localhost:8000") 0 health_event =
  Some (inl (health_record refusing_service (txt "http://localhost:8000"))).
Proof.
  exact (proj1 (proj1 (runpod_handler_dispatch refusing_service
                         (txt "http://localhost:8000") 0 health_event)
                      [(txt "action", JStr (txt "health"))] eq_refl)
               eq_refl).
Defined.

(** X6.  End to end, with the handler's own translation: when the
    submission is accepted, the first [n] status queries (fewer than 150)
    find the task pending or processing, and the next one reports it
    completed with markup written from plain text and one-line image
    references, [process_task] returns a success envelope with that content,
    the number of its image references, the handler's own worker id in place
    of the one the snapshot names, the task id of the snapshot as
    [api_task_id] and the elapsed time. *)
Theorem handler_end_to_end (worker : text) (time : nat -> Z)
    (session_post : json -> result MinerURunPodHandler.response)
    (session_get : nat -> result MinerURunPodHandler.response)
    (event : list (text * json)) (api_params submit_result task_id : json)
    (accepted completed : MinerURunPodHandler.response)
    (n fuel : nat) (status_data data : list (text * json)) (items : list item) :
  let self := handler_of worker time session_post session_get in
  MinerURunPodHandler.api_params_of event = inl api_params ->
  session_post api_params = Ok accepted ->
  MinerURunPodHandler.status accepted = 200 ->
  MinerURunPodHandler.body_json accepted = Ok submit_result ->
  json_get submit_result "task_id" JNull = Ok task_id ->
  json_truthy task_id = true ->
  n < 150 ->
  (forall j, j < n -> handler_running (session_get j) = true) ->
  session_get n = Ok completed ->
  MinerURunPodHandler.status completed = 200 ->
  MinerURunPodHandler.body_json completed = Ok (JDict status_data) ->
  lookup (txt "status") status_data = Some (JStr (txt "completed")) ->
  lookup (txt "data") status_data = Some (JDict data) ->
  lookup (txt "content") data = Some (JStr (render items)) ->
  wf items = true -> one_line items = true ->
  exists env,
    MinerURunPodHandler.process_task self (n + S fuel) event = Some (inl env) /\
    lookup (txt "success") env = Some (vjson (JBool true)) /\
    lookup (txt "content") env = Some (vjson (JStr (render items))) /\
    lookup (txt "image_count") env =
      Some (vjson (JNum (Z.of_nat (List.length (references items))))) /\
    lookup (txt "worker_id") env = Some (vjson (JStr worker)) /\
    lookup (txt "api_task_id") env =
      Some (vjson (dict_get status_data "task_id" JNull)) /\
    lookup (txt "processing_time") env =
      Some (MinerURunPodHandler.VDuration (time 2 - time 0%nat)).
Proof.
  intros self Hp Hpost Hs200 Hbody Htid Htruthy Hn Hrun Hget Hc200 Hcbody
         Hstatus Hdata Hcontent Hw Hl.
  unfold MinerURunPodHandler.process_task. rewrite Hp.
  unfold MinerURunPodHandler.submit_task_to_api.
  change (MinerURunPodHandler.session_post self) with session_post.
  rewrite Hpost, Hs200, Hbody, Htid, Htruthy. cbn [Nat.eqb negb].
  change (negb (200 =? 200)) with false. cbv iota.
  rewrite (handler_running_prefix self n (S fuel) 0 0%Z);
    [|exact Hrun
     |destruct n as [|n']; [left; reflexivity | right];
      unfold MinerURunPodHandler.poll_interval, MinerURunPodHandler.max_wait_time;
      cbn [pred]; lia].
  cbn [MinerURunPodHandler.poll_loop Nat.add].
  assert (Ht : ((0 + Z.of_nat n * MinerURunPodHandler.poll_interval <?
                 MinerURunPodHandler.max_wait_time) = true)%Z).
  { apply Z.ltb_lt.
    unfold MinerURunPodHandler.poll_interval, MinerURunPodHandler.max_wait_time.
    lia. }
  rewrite Ht.
  change (MinerURunPodHandler.session_get self) with session_get.
  rewrite Hget, Hc200, Hcbody. change (negb (200 =? 200)) with false. cbv iota.
  rewrite json_get_dict, (lookup_dict_get status_data "status" _ JNull Hstatus).
  change (is_str (JStr (txt "completed")) "completed") with true. cbv iota.
  change (MinerURunPodHandler.convert_api_response self)
    with _convert_api_response_to_runpod_format.
  unfold _convert_api_response_to_runpod_format, convert_body.
  rewrite (lookup_dict_get status_data "data" _ JNull Hdata).
  destruct data as [|kv data']; [discriminate|].
  rewrite (lookup_dict_get (kv :: data') "content" _ (JStr []) Hcontent).
  cbn [json_len]. rewrite image_count_of_str.
  unfold count_images.
  rewrite (count_pattern1_written items Hw Hl), (count_pattern2_written items Hw Hl).
  rewrite <- references_count.
  eexists. split; [reflexivity|]. repeat split.
Qed.

Lemma handler_end_to_end_witness :
  exists env,
    MinerURunPodHandler.process_task (completing_service (render doc_mixed))
      (0 + 1) demo_event = Some (inl env) /\
    lookup (txt "image_count") env = Some (vjson (JNum 2)) /\
    lookup (txt "worker_id") env = Some (vjson (JStr (txt "worker-1"))).
Proof.
  destruct (handler_end_to_end (txt "worker-1")
              (fun n => (1000 + 7 * Z.of_nat n)%Z)
              (fun _ => Ok (MinerURunPodHandler.Response 200 (Ok [])
                              (Ok (JDict [(txt "task_id", JStr (txt "t-1"))]))))
              (fun _ => Ok (MinerURunPodHandler.Response 200 (Ok [])
                              (Ok (JDict (completed_snapshot (txt "t-1")
                                            (JStr (render doc_mixed))
                                            (JBool true))))))
              demo_event _ _ _ _ _ 0 0 _ _ doc_mixed
              eq_refl eq_refl eq_refl eq_refl eq_refl eq_refl
              ltac:(lia) (fun j Hj => match Nat.nlt_0_r j Hj with end)
              eq_refl eq_refl eq_refl eq_refl eq_refl eq_refl eq_refl eq_refl)
    as (env & E & _ & _ & Hc & Hw & _).
  exists env. split; [exact E|]. split; [exact Hc | exact Hw].
Defined.

(** ** The client's wait on the serverless endpoint *)

Section ClientWaitFacts.
Variable reply : nat -> result (nat * result json).
Variable time : nat -> Z.
Variable timeout : Z.

Lemma runpod_wait_loop_result (fuel : nat) :
  forall k r,
    RunPodClient.wait_loop (status_queries reply) time timeout fuel k = Some r ->
    r = RunPodClient.timeout_record timeout \/
    exists j st,
      k <= j /\ reply j = Ok (200, Ok r) /\
      (time (S j) - time 0%nat < timeout)%Z /\
      json_get r "status" JNull = Ok st /\
      is_str st "COMPLETED" || is_str st "FAILED" = true.
Proof.
  induction fuel as [|fuel IH]; intros k r; cbn [RunPodClient.wait_loop];
    [discriminate|].
  assert (Hnext : RunPodClient.wait_loop (status_queries reply) time timeout fuel
                    (S k) = Some r ->
                  r = RunPodClient.timeout_record timeout \/
                  exists j st,
                    k <= j /\ reply j = Ok (200, Ok r) /\
                    (time (S j) - time 0%nat < timeout)%Z /\
                    json_get r "status" JNull = Ok st /\
                    is_str st "COMPLETED" || is_str st "FAILED" = true).
  { intros H. apply IH in H. destruct H as [H | (j & st & Hj & H)]; [left; exact H|].
    right. exists j, st. split; [lia | exact H]. }
  destruct (Z.ltb_spec (time (S k) - time 0%nat) timeout) as [Ht|Ht].
  - unfold status_queries at 1, runpod_get_task_status.
    destruct (reply k) as [[code body]|e] eqn:Er; [|exact Hnext].
    destruct (Nat.eqb_spec code 200) as [->|Hc].
    + destruct body as [status|e]; [|exact Hnext].
      destruct (json_get status "status" JNull) as [st|e] eqn:Es; [|exact Hnext].
      destruct (is_str st "COMPLETED") eqn:E1.
      * intros H. injection H as <-. right. exists k, st.
        rewrite E1. repeat split; auto.
      * destruct (is_str st "FAILED") eqn:E2; [|exact Hnext].
        intros H. injection H as <-. right. exists k, st.
        rewrite E1, E2. repeat split; auto.
    + destruct ((400 <=? code) && (code <? 600)); exact Hnext.
  - intros H. injection H as <-. left. reflexivity.
Qed.

Lemma runpod_wait_loop_total (d : nat) :
  forall k fuel,
    (timeout <= time (S (k + d)) - time 0%nat)%Z ->
    exists r,
      RunPodClient.wait_loop (status_queries reply) time timeout (S d + fuel) k =
      Some r.
Proof.
  induction d as [|d IH]; intros k fuel Hd; cbn [Nat.add RunPodClient.wait_loop].
  - rewrite Nat.add_0_r in Hd.
    destruct (Z.ltb_spec (time (S k) - time 0%nat) timeout); [lia | eauto].
  - assert (Hnext : exists r,
               RunPodClient.wait_loop (status_queries reply) time timeout
                 (S (d + fuel)) (S k) = Some r).
    { apply (IH (S k) fuel). replace (S k + d) with (k + S d) by lia. exact Hd. }
    destruct (Z.ltb_spec (time (S k) - time 0%nat) timeout); [|eauto].
    destruct (status_queries reply k) as [status|e]; [|exact Hnext].
    destruct (json_get status "status" JNull) as [st|e]; [|exact Hnext].
    destruct (is_str st "COMPLETED"); [eauto|].
    destruct (is_str st "FAILED"); [eauto | exact Hnext].
Qed.

End ClientWaitFacts.

(** X7.  [RunPodClient.wait_for_completion] over [get_task_status]: whatever
    the service replies, a wait whose clock passes the timeout by the reading
    before query [n] returns within [n + 1] rounds; and what a wait returns
    is either the TIMEOUT record or the body of a reply with status code 200
    whose status is COMPLETED or FAILED, received within the timeout.  A
    reply with any other status code, or a transport error, never ends the
    wait. *)
Theorem runpod_wait_returns (reply : nat -> result (nat * result json))
    (time : nat -> Z) (timeout : Z) :
  (forall n fuel,
     (timeout <= time (S n) - time 0%nat)%Z ->
     exists r,
       RunPodClient.wait_for_completion (status_queries reply) time timeout
         (S n + fuel) = Some r) /\
  (forall fuel r,
     RunPodClient.wait_for_completion (status_queries reply) time timeout fuel =
       Some r ->
     r = RunPodClient.timeout_record timeout \/
     exists j st,
       reply j = Ok (200, Ok r) /\
       (time (S j) - time 0%nat < timeout)%Z /\
       json_get r "status" JNull = Ok st /\
       is_str st "COMPLETED" || is_str st "FAILED" = true).
Proof.
  split.
  - intros n fuel Hn. unfold RunPodClient.wait_for_completion.
    apply (runpod_wait_loop_total reply time timeout n 0 fuel). exact Hn.
  - intros fuel r H. unfold RunPodClient.wait_for_completion in H.
    apply runpod_wait_loop_result in H.
    destruct H as [H | (j & st & _ & H)]; [left; exact H|].
    right. exists j, st. exact H.
Qed.

Lemma runpod_wait_returns_witness :
  snapshot "COMPLETED" = RunPodClient.timeout_record 300 \/
  exists j st,
    busy_then_completed j = Ok (200, Ok (snapshot "COMPLETED")) /\
    (Z.of_nat (S j) - Z.of_nat 0 < 300)%Z /\
    json_get (snapshot "COMPLETED") "status" JNull = Ok st /\
    is_str st "COMPLETED" || is_str st "FAILED" = true.
Proof.
  exact (proj2 (runpod_wait_returns busy_then_completed (fun n => Z.of_nat n) 300)
               10 (snapshot "COMPLETED") eq_refl).
Defined.

(** ** The status query of the server *)

Lemma load_data_inv (srv : server) (h : host) (sb : option StorageBackend)
    (md_file : text * text) (upload_images : bool) (st st' : uploads) (data : json) :
  load_data srv h sb md_file upload_images st = (Ok data, st') ->
  let image_dir := fst md_file ++ txt "/images" in
  exists md_content0 md_content has_images,
    read_text srv md_file = Ok md_content0 /\
    data = JDict [(txt "markdown_file", JStr (snd md_file));
                  (txt "content", JStr md_content);
                  (txt "images_uploaded", JBool upload_images);
                  (txt "has_images", has_images)] /\
    (if upload_images then has_images = JNull
     else exists b, dir_exists srv image_dir = Ok b /\ has_images = JBool b) /\
    ((md_content = md_content0 /\ st' = st) \/
     (upload_images = true /\ dir_exists srv image_dir = Ok true /\
      (md_content, st') =
        process_markdown_images h sb md_content0 image_dir true st)).
Proof.
  intros H image_dir. unfold load_data in H.
  destruct (read_text srv md_file) as [md_content0|e]; [|discriminate].
  fold image_dir in H. destruct upload_images.
  - cbn [negb] in H.
    destruct (dir_exists srv image_dir) as [[|]|e]; [| |discriminate].
    + destruct (process_markdown_images h sb md_content0 image_dir true st)
        as [c st1] eqn:Ep.
      injection H as <- <-. exists md_content0, c, JNull.
      repeat split. right. repeat split. symmetry. exact Ep.
    + injection H as <- <-. exists md_content0, md_content0, JNull.
      repeat split. left. split; reflexivity.
  - cbn [negb] in H.
    destruct (dir_exists srv image_dir) as [b|e]; [|discriminate].
    injection H as <- <-. exists md_content0, md_content0, (JBool b).
    repeat split; [exists b; split; reflexivity|]. left. split; reflexivity.
Qed.

Lemma lookup_status_response (task_id : text) (task : task_row) (key : text) :
  text_eqb (txt "data") key = false -> text_eqb (txt "message") key = false ->
  forall v extra,
    (extra = dict_set (txt "data") v (status_response task_id task) \/
     extra = dict_set (txt "message") (JStr cleaned_up_message)
               (dict_set (txt "data") v (status_response task_id task)) \/
     extra = status_response task_id task) ->
    lookup key extra = lookup key (status_response task_id task).
Proof.
  intros Hd Hm v extra [-> | [-> | ->]].
  - apply lookup_dict_set_other. exact Hd.
  - rewrite lookup_dict_set_other by exact Hm.
    apply lookup_dict_set_other. exact Hd.
  - reflexivity.
Qed.

(** X8.  The status query answers 404 exactly when the task is unknown and
    raises no other HTTP error.  Every response it returns repeats the task
    id and the status of the task with [success] true, and carries a [data]
    key only for a completed task.  It stores nothing unless the task is
    completed, image upload was requested and a storage back end is
    configured. *)
Theorem get_task_status_answers (srv : server) (h : host)
    (sb : option StorageBackend) (task_id : text) (upload_images : bool)
    (st : uploads) :
  let answer := fst (get_task_status srv h sb task_id upload_images st) in
  let st' := snd (get_task_status srv h sb task_id upload_images st) in
  (get_task srv task_id = None <->
   exists status_code detail, answer = Http_exception status_code detail) /\
  (forall status_code detail,
     answer = Http_exception status_code detail ->
     status_code = 404 /\ detail = txt "Task not found") /\
  (forall response,
     answer = Http_ok response ->
     exists task,
       get_task srv task_id = Some task /\
       lookup (txt "success") response = Some (JBool true) /\
       lookup (txt "task_id") response = Some (JStr task_id) /\
       lookup (txt "status") response = Some (JStr (task_status task)) /\
       (lookup (txt "data") response <> None ->
        task_status task = txt "completed")) /\
  (upload_images = false \/ sb = None \/
   (forall task, get_task srv task_id = Some task ->
                 task_status task <> txt "completed") ->
   st' = st).
Proof.
  intros answer st'. subst answer st'. unfold get_task_status.
  destruct (get_task srv task_id) as [task|].
  2:{ cbn [fst snd]. split; [|split; [|split]].
      - split; [intros _; eauto | reflexivity].
      - intros c d H. injection H as <- <-. split; reflexivity.
      - discriminate.
      - reflexivity. }
  assert (Hbase : forall v extra,
            (extra = dict_set (txt "data") v (status_response task_id task) \/
             extra = dict_set (txt "message") (JStr cleaned_up_message)
                       (dict_set (txt "data") v (status_response task_id task)) \/
             extra = status_response task_id task) ->
            lookup (txt "success") extra = Some (JBool true) /\
            lookup (txt "task_id") extra = Some (JStr task_id) /\
            lookup (txt "status") extra = Some (JStr (task_status task))).
  { intros v extra He.
    rewrite (lookup_status_response task_id task (txt "success") eq_refl eq_refl
               v extra He),
            (lookup_status_response task_id task (txt "task_id") eq_refl eq_refl
               v extra He),
            (lookup_status_response task_id task (txt "status") eq_refl eq_refl
               v extra He).
    repeat split. }
  destruct (text_eqb (task_status task) (txt "completed")) eqn:Ec.
  - apply text_eqb_eq in Ec.
    assert (Hshape :
      forall a s,
        (a, s) =
        match task_result_path task with
        | None | Some [] =>
          (Http_ok (dict_set (txt "message") (JStr cleaned_up_message)
                      (dict_set (txt "data") JNull
                         (status_response task_id task))), st)
        | Some (c :: p) =>
          match dir_exists srv (c :: p) with
          | Raise e => (Uncaught e, st)
          | Ok false => (Http_ok (status_response task_id task), st)
          | Ok true =>
            match rglob_md srv (c :: p) with
            | Raise e => (Uncaught e, st)
            | Ok [] => (Http_ok (status_response task_id task), st)
            | Ok (md_file :: _) =>
              match load_data srv h sb md_file upload_images st with
              | (Ok data, st') =>
                (Http_ok (dict_set (txt "data") data
                            (status_response task_id task)), st')
              | (Raise _, st') =>
                (Http_ok (dict_set (txt "data") JNull
                            (status_response task_id task)), st')
              end
            end
          end
        end ->
        (forall status_code detail, a <> Http_exception status_code detail) /\
        (forall response, a = Http_ok response ->
           exists v,
             response = dict_set (txt "data") v (status_response task_id task) \/
             response = dict_set (txt "message") (JStr cleaned_up_message)
                          (dict_set (txt "data") v
                             (status_response task_id task)) \/
             response = status_response task_id task) /\
        (upload_images = false \/ sb = None -> s = st)).
    { intros a s.
      destruct (task_result_path task) as [[|c p]|].
      - intros H. injection H as -> ->.
        split; [discriminate|]. split; [|reflexivity].
        intros r Hr. injection Hr as <-. exists JNull. right. left. reflexivity.
      - destruct (dir_exists srv (c :: p)) as [[|]|e].
        + destruct (rglob_md srv (c :: p)) as [[|md_file rest]|e].
          * intros H. injection H as -> ->.
            split; [discriminate|]. split; [|reflexivity].
            intros r Hr. injection Hr as <-. exists JNull. right. right.
            reflexivity.
          * destruct (load_data srv h sb md_file upload_images st)
              as [[data|e] s1] eqn:El.
            -- intros H. injection H as -> ->.
               split; [discriminate|]. split.
               ++ intros r Hr. injection Hr as <-. exists data. left. reflexivity.
               ++ apply load_data_inv in El.
                  destruct El as (t0 & t1 & hi & _ & _ & _ & [[_ Hs] | (Hu & _ & Hp)]);
                    [intros _; exact Hs|].
                  intros [Hf | Hn]; [congruence|]. subst sb.
                  unfold process_markdown_images in Hp. cbn [negb] in Hp.
                  congruence.
            -- intros H. injection H as -> ->.
               split; [discriminate|]. split.
               ++ intros r Hr. injection Hr as <-. exists JNull. left. reflexivity.
               ++ unfold load_data in El.
                  destruct (read_text srv md_file) as [t0|e0];
                    [|injection El as _ <-; reflexivity].
                  intros Hu. destruct upload_images.
                  ** destruct Hu as [Hu | ->]; [discriminate|].
                     cbn [negb] in El.
                     destruct (dir_exists srv (fst md_file ++ txt "/images"))
                       as [[|]|e1]; cbn in El; congruence.
                  ** cbn [negb] in El.
                     destruct (dir_exists srv (fst md_file ++ txt "/images"))
                       as [b|e1]; congruence.
          * intros H. injection H as -> ->.
            split; [discriminate|]. split; [discriminate | reflexivity].
        + intros H. injection H as -> ->.
          split; [discriminate|]. split; [|reflexivity].
          intros r Hr. injection Hr as <-. exists JNull. right. right. reflexivity.
        + intros H. injection H as -> ->.
          split; [discriminate|]. split; [discriminate | reflexivity].
      - intros H. injection H as -> ->.
        split; [discriminate|]. split; [|reflexivity].
        intros r Hr. injection Hr as <-. exists JNull. right. left. reflexivity. }
    match goal with
    | |- context [fst ?x] =>
      destruct (Hshape (fst x) (snd x) (eq_sym (surjective_pairing x)))
        as (Hne & Hok & Hst)
    end.
    clear Hshape. split; [|split; [|split]].
    + split; [discriminate|]. intros (c & d & H). exfalso. exact (Hne c d H).
    + intros c d H. exfalso. exact (Hne c d H).
    + intros r Hr. exists task. split; [reflexivity|].
      destruct (Hok r Hr) as [v Hv].
      destruct (Hbase v r Hv) as (H1 & H2 & H3).
      repeat split; auto.
    + intros [Hu | [Hn | Hn]]; [apply Hst; left; exact Hu
                               |apply Hst; right; exact Hn|].
      exfalso. apply (Hn task eq_refl). exact Ec.
  - cbn [fst snd]. split; [|split; [|split]].
    + split; [discriminate|]. intros (c & d & H). discriminate H.
    + discriminate.
    + intros r Hr. injection Hr as <-. exists task. split; [reflexivity|].
      repeat split. intros H. exfalso. apply H. reflexivity.
    + reflexivity.
Qed.

Lemma get_task_status_answers_witness :
  exists task,
    get_task (demo_server "completed" (render doc_relative)) (txt "t-1") =
      Some task /\
    lookup (txt "status")
      (dict_set (txt "data")
         (JDict [(txt "markdown_file", JStr (txt "sample.md"));
                 (txt "content", JStr (render doc_relative));
                 (txt "images_uploaded", JBool false);
                 (txt "has_images", JBool true)])
         (status_response (txt "t-1")
            (demo_task "completed" (Some (txt "/out/t-1"))))) =
      Some (JStr (task_status task)).
Proof.
  destruct (proj1 (proj2 (proj2 (get_task_status_answers
                                   (demo_server "completed" (render doc_relative))
                                   demo_host None (txt "t-1") false no_uploads)))
                  _ eq_refl)
    as (task & Ht & _ & _ & Hs & _).
  exists task. split; [exact Ht | exact Hs].
Defined.

Lemma get_task_status_inv (srv : server) (h : host) (sb : option StorageBackend)
    (task_id : text) (upload_images : bool) (st st' : uploads)
    (response : list (text * json)) :
  get_task_status srv h sb task_id upload_images st = (Http_ok response, st') ->
  exists task,
    get_task srv task_id = Some task /\
    ((st' = st /\
      (response = status_response task_id task \/
       response = dict_set (txt "data") JNull (status_response task_id task) \/
       response = dict_set (txt "message") (JStr cleaned_up_message)
                    (dict_set (txt "data") JNull (status_response task_id task)))) \/
     (exists md_file,
        response = dict_set (txt "data") JNull (status_response task_id task) /\
        exists e, load_data srv h sb md_file upload_images st = (Raise e, st')) \/
     (exists result_dir md_file rest data,
        task_status task = txt "completed" /\
        task_result_path task = Some result_dir /\
        rglob_md srv result_dir = Ok (md_file :: rest) /\
        load_data srv h sb md_file upload_images st = (Ok data, st') /\
        response = dict_set (txt "data") data (status_response task_id task))).
Proof.
  unfold get_task_status. intros H.
  destruct (get_task srv task_id) as [task|]; [|discriminate].
  exists task. split; [reflexivity|].
  destruct (text_eqb (task_status task) (txt "completed")) eqn:Ec.
  2:{ injection H as <- <-. left. split; [reflexivity|]. left. reflexivity. }
  apply text_eqb_eq in Ec.
  destruct (task_result_path task) as [[|c p]|].
  - injection H as <- <-. left. split; [reflexivity|]. right. right. reflexivity.
  - destruct (dir_exists srv (c :: p)) as [[|]|e]; [| |discriminate].
    + destruct (rglob_md srv (c :: p)) as [[|md_file rest]|e] eqn:Er;
        [| |discriminate].
      * injection H as <- <-. left. split; [reflexivity|]. left. reflexivity.
      * destruct (load_data srv h sb md_file upload_images st)
          as [[data|e] s1] eqn:El.
        -- injection H as <- <-. right. right.
           exists (c :: p), md_file, rest, data. repeat split; auto.
        -- injection H as <- <-. right. left. exists md_file.
           split; [reflexivity|]. exists e. exact El.
    + injection H as <- <-. left. split; [reflexivity|]. left. reflexivity.
  - injection H as <- <-. left. split; [reflexivity|]. right. right. reflexivity.
Qed.

(** X9.  When the response of the status query carries a [data] record, the
    task is completed and the record describes the first Markdown file found
    below its result directory: the name of the file, [images_uploaded]
    equal to the request flag, [has_images] null when upload was requested
    and otherwise whether the image directory exists, and as content either
    the text of the file or the text of a completed rewriting pass over it.
    Without an upload request, or without a back end, the content is the
    text of the file and nothing is stored. *)
Theorem get_task_status_data (srv : server) (h : host)
    (sb : option StorageBackend) (task_id : text) (upload_images : bool)
    (st st' : uploads) (response d : list (text * json)) :
  get_task_status srv h sb task_id upload_images st = (Http_ok response, st') ->
  lookup (txt "data") response = Some (JDict d) ->
  exists task result_dir md_file rest md_content0 md_content,
    get_task srv task_id = Some task /\
    task_status task = txt "completed" /\
    task_result_path task = Some result_dir /\
    rglob_md srv result_dir = Ok (md_file :: rest) /\
    read_text srv md_file = Ok md_content0 /\
    lookup (txt "markdown_file") d = Some (JStr (snd md_file)) /\
    lookup (txt "content") d = Some (JStr md_content) /\
    lookup (txt "images_uploaded") d = Some (JBool upload_images) /\
    (if upload_images then lookup (txt "has_images") d = Some JNull
     else exists b,
            dir_exists srv (fst md_file ++ txt "/images") = Ok b /\
            lookup (txt "has_images") d = Some (JBool b)) /\
    (md_content = md_content0 \/
     exists b,
       upload_images = true /\ sb = Some b /\
       rewrite_images h b md_content0 (fst md_file ++ txt "/images") st =
       (Ok md_content, st')) /\
    (upload_images = false \/ sb = None -> md_content = md_content0 /\ st' = st).
Proof.
  intros H Hd. apply get_task_status_inv in H.
  destruct H as (task & Ht & [(_ & [-> | [-> | ->]]) | [(m & -> & _) |
                 (result_dir & md_file & rest & data & Hc & Hp & Hr & Hl & ->)]]);
    try discriminate Hd.
  rewrite lookup_dict_set_same in Hd. injection Hd as ->.
  apply load_data_inv in Hl. cbv zeta in Hl.
  destruct Hl as (t0 & t1 & hi & Hread & Hdata & Hhi & Hcontent).
  injection Hdata as ->.
  exists task, result_dir, md_file, rest, t0, t1.
  repeat (split; [first [assumption | reflexivity]|]).
  split; [|split].
  - destruct upload_images; [subst hi; reflexivity|].
    destruct Hhi as (b & Hb & ->). exists b. split; [exact Hb | reflexivity].
  - destruct Hcontent as [[-> _] | (Hu & _ & Hp')]; [left; reflexivity|].
    unfold process_markdown_images in Hp'. cbn [negb] in Hp'.
    destruct sb as [b|]; [|left; congruence].
    destruct (rewrite_images h b t0 (fst md_file ++ txt "/images") st)
      as [[new|e] s1] eqn:Erw.
    + injection Hp' as -> ->. right. exists b. repeat split; auto.
    + left. congruence.
  - destruct Hcontent as [[-> ->] | (Hu & _ & Hp')]; [intros _; split; reflexivity|].
    intros [Hf | ->]; [congruence|].
    unfold process_markdown_images in Hp'. cbn [negb] in Hp'.
    injection Hp' as -> ->. split; reflexivity.
Qed.

Lemma get_task_status_data_witness :
  exists md_content,
    lookup (txt "content")
      [(txt "markdown_file", JStr (txt "sample.md"));
       (txt "content", JStr (render doc_relative));
       (txt "images_uploaded", JBool false);
       (txt "has_images", JBool true)] = Some (JStr md_content) /\
    md_content = render doc_relative.
Proof.
  destruct (get_task_status_data (demo_server "completed" (render doc_relative))
              demo_host (Some demo_backend) (txt "t-1") false no_uploads no_uploads
              _ _ eq_refl eq_refl)
    as (task & result_dir & md_file & rest & t0 & t1 & _ & _ & _ & _ & Hr & _ &
        Hc & _ & _ & _ & Hn).
  exists t1. split; [exact Hc|].
  destruct (Hn (or_introl eq_refl)) as [-> _].
  injection Hr as <-. reflexivity.
Defined.

(** X10.  The handler's translation never fails on what the status query
    returns: for every response of the query it gives a success record with
    the task id of the request, and, when the response carries a [data]
    record, with the content of that record, its length, and the request's
    [images_uploaded] flag. *)
Theorem status_response_translates (srv : server) (h : host)
    (sb : option StorageBackend) (task_id : text) (upload_images : bool)
    (st st' : uploads) (response : list (text * json)) :
  get_task_status srv h sb task_id upload_images st = (Http_ok response, st') ->
  exists env,
    _convert_api_response_to_runpod_format (JDict response) = inl env /\
    lookup (txt "success") env = Some (vjson (JBool true)) /\
    lookup (txt "task_id") env = Some (vjson (JStr task_id)) /\
    (forall d c,
       lookup (txt "data") response = Some (JDict d) ->
       lookup (txt "content") d = Some (JStr c) ->
       lookup (txt "content") env = Some (vjson (JStr c)) /\
       lookup (txt "content_length") env =
         Some (vjson (JNum (Z.of_nat (List.length c)))) /\
       lookup (txt "image_count") env =
         Some (vjson (JNum (Z.of_nat (count_images c)))) /\
       lookup (txt "images_uploaded") env = Some (vjson (JBool upload_images))).
Proof.
  intros H. apply get_task_status_inv in H.
  destruct H as (task & Ht & [(_ & [-> | [-> | ->]]) | [(m & -> & _) |
                 (result_dir & md_file & rest & data & Hc & Hp & Hr & Hl & ->)]]);
    try (eexists; split; [reflexivity|]; split; [reflexivity|];
         split; [reflexivity|]; intros d c Hd; discriminate Hd).
  apply load_data_inv in Hl. cbv zeta in Hl.
  destruct Hl as (t0 & t1 & hi & Hread & -> & Hhi & Hcontent).
  unfold _convert_api_response_to_runpod_format, convert_body.
  change (dict_get (dict_set (txt "data") ?x (status_response task_id task))
            "data" JNull) with x.
  cbv beta iota zeta.
  change (dict_get
            [(txt "markdown_file", JStr (snd md_file)); (txt "content", JStr t1);
             (txt "images_uploaded", JBool upload_images); (txt "has_images", hi)]
            "content" (JStr [])) with (JStr t1).
  cbn [json_len]. rewrite image_count_of_str.
  eexists. split; [reflexivity|]. split; [reflexivity|]. split; [reflexivity|].
  intros d c Hd Hcd. rewrite lookup_dict_set_same in Hd. injection Hd as <-.
  injection Hcd as <-. repeat split.
Qed.

Lemma status_response_translates_witness :
  exists env,
    _convert_api_response_to_runpod_format
      (JDict (dict_set (txt "data")
                (JDict [(txt "markdown_file", JStr (txt "sample.md"));
                        (txt "content", JStr (render doc_relative));
                        (txt "images_uploaded", JBool false);
                        (txt "has_images", JBool true)])
                (status_response (txt "t-1")
                   (demo_task "completed" (Some (txt "/out/t-1")))))) = inl env /\
    lookup (txt "task_id") env = Some (vjson (JStr (txt "t-1"))).
Proof.
  destruct (status_response_translates
              (demo_server "completed" (render doc_relative))
              demo_host (Some demo_backend) (txt "t-1") false no_uploads no_uploads
              _ eq_refl)
    as (env & E & _ & Ht & _).
  exists env. split; [exact E | exact Ht].
Defined.

(** ** Cancelling a task *)

(** X11.  [cancel_task] changes the store only for a pending task: what it
    does is nothing, the status update alone, or the status update followed
    by the removal of the uploaded file, in this order.  A success answer
    implies the status was updated; a 404 or 400 answer implies nothing was
    done, and 400 is the answer for every task that is not pending.  The two
    steps are not undone together: when the removal of the file raises, the
    request fails although the task is already marked cancelled. *)
Theorem cancel_task_effects (srv : server) (task_id : text) :
  let answer := fst (cancel_task srv task_id) in
  let effects := snd (cancel_task srv task_id) in
  let updated := Status_updated task_id (txt "cancelled") in
  (effects = [] \/
   exists task,
     get_task srv task_id = Some task /\ task_status task = txt "pending" /\
     (effects = [updated] \/
      effects = [updated; Unlinked (task_file_path task)])) /\
  (forall response,
     answer = Http_ok response ->
     exists rest, effects = updated :: rest) /\
  (forall status_code detail,
     answer = Http_exception status_code detail ->
     effects = [] /\
     (status_code = 404 /\ get_task srv task_id = None \/
      status_code = 400 /\
      exists task,
        get_task srv task_id = Some task /\ task_status task <> txt "pending" /\
        detail = txt "Cannot cancel task in " ++ task_status task ++ txt " status")) /\
  (forall task,
     get_task srv task_id = Some task -> task_status task <> txt "pending" ->
     cancel_task srv task_id =
     (Http_exception 400
        (txt "Cannot cancel task in " ++ task_status task ++ txt " status"), [])) /\
  (forall task u e,
     get_task srv task_id = Some task -> task_status task = txt "pending" ->
     update_task_status srv task_id (txt "cancelled") = Ok u ->
     file_exists srv (task_file_path task) = Ok true ->
     unlink srv (task_file_path task) = Raise e ->
     cancel_task srv task_id = (Uncaught e, [updated])).
Proof.
  intros answer effects updated. subst answer effects updated.
  unfold cancel_task.
  destruct (get_task srv task_id) as [task|].
  2:{ cbn [fst snd]. repeat split; try discriminate.
      - left. reflexivity.
      - injection H as <- <-. left. split; reflexivity. }
  destruct (text_eqb (task_status task) (txt "pending")) eqn:Ep.
  - apply text_eqb_eq in Ep.
    destruct (update_task_status srv task_id (txt "cancelled")) as [u|e] eqn:Eu.
    + destruct (file_exists srv (task_file_path task)) as [[|]|e] eqn:Ef.
      * destruct (unlink srv (task_file_path task)) as [u'|e] eqn:El;
          cbn [fst snd app];
          (split; [right; exists task; repeat split; auto|]);
          (split; [intros r Hr; try discriminate Hr; eauto|]);
          (split; [discriminate|]);
          (split; [intros t Ht Hn; injection Ht as <-; congruence|]);
          intros t u0 e0 Ht _ _ _ He; injection Ht as <-; congruence.
      * cbn [fst snd].
        split; [right; exists task; repeat split; auto|].
        split; [intros r Hr; eauto|].
        split; [discriminate|].
        split; [intros t Ht Hn; injection Ht as <-; congruence|].
        intros t u0 e0 Ht _ _ He. injection Ht as <-. congruence.
      * cbn [fst snd].
        split; [right; exists task; repeat split; auto|].
        split; [discriminate|].
        split; [discriminate|].
        split; [intros t Ht Hn; injection Ht as <-; congruence|].
        intros t u0 e0 Ht _ _ He. injection Ht as <-. congruence.
    + cbn [fst snd].
      split; [left; reflexivity|].
      split; [discriminate|].
      split; [discriminate|].
      split; [intros t Ht Hn; injection Ht as <-; congruence|].
      intros t u0 e0 _ _ Hu. congruence.
  - assert (Hn : task_status task <> txt "pending").
    { intros H. apply text_eqb_eq in H. congruence. }
    cbn [fst snd].
    split; [left; reflexivity|].
    split; [discriminate|].
    split; [|split].
    + intros c d H. injection H as <- <-. split; [reflexivity|]. right.
      split; [reflexivity|]. exists task. repeat split; auto.
    + intros t Ht _. injection Ht as <-. reflexivity.
    + intros t u e Ht Hp. injection Ht as <-. congruence.
Qed.

Lemma cancel_task_effects_witness :
  cancel_task (demo_server "pending" []) (txt "t-1") =
  (Uncaught (Exception (txt "PermissionError")),
   [Status_updated (txt "t-1") (txt "cancelled")]).
Proof.
  exact (proj2 (proj2 (proj2 (proj2
           (cancel_task_effects (demo_server "pending" []) (txt "t-1")))))
           (demo_task "pending" (Some (txt "/out/t-1"))) tt
           (Exception (txt "PermissionError"))
           eq_refl eq_refl eq_refl eq_refl eq_refl).
Defined.

(** ** File names of downloaded images *)

Section CharFacts.
Variable P : ascii -> bool.

Lemma forallb_span (f : ascii -> bool) (s : text) :
  forallb P s = true ->
  forallb P (fst (span f s)) = true /\ forallb P (snd (span f s)) = true.
Proof.
  induction s as [|c s IH]; cbn [span forallb]; [auto|].
  intros H. apply andb_true_iff in H as [Hc Hs].
  destruct (f c).
  - destruct (span f s) as [a b]. cbn [fst snd forallb] in *.
    destruct (IH Hs) as [Ha Hb]. rewrite Hc, Ha. auto.
  - cbn [fst snd forallb]. rewrite Hc, Hs. auto.
Qed.

Lemma forallb_tl (s : text) : forallb P s = true -> forallb P (tl s) = true.
Proof.
  destruct s as [|c s]; cbn [tl forallb]; [auto|].
  intros H. apply andb_true_iff in H as [_ H]. exact H.
Qed.

Lemma forallb_firstn (n : nat) (s : text) :
  forallb P s = true -> forallb P (firstn n s) = true.
Proof.
  revert s. induction n as [|n IH]; intros [|c s]; cbn [firstn forallb]; auto.
  intros H. apply andb_true_iff in H as [Hc Hs]. rewrite Hc. exact (IH s Hs).
Qed.

Lemma forallb_before_char (c : ascii) (s : text) :
  forallb P s = true -> forallb P (before_char c s) = true.
Proof. intros H. apply (forallb_span _ s H). Qed.

Lemma forallb_after_last_char (c : ascii) (s : text) :
  forallb P s = true -> forallb P (after_last_char c s) = true.
Proof.
  intros H. unfold after_last_char. rewrite forallb_rev.
  apply forallb_span. rewrite forallb_rev. exact H.
Qed.

Lemma split_char_all (c : ascii) (s : text) :
  forallb P s = true -> forallb (forallb P) (split_char c s) = true.
Proof.
  induction s as [|x s IH]; cbn [split_char forallb]; [reflexivity|].
  intros H. apply andb_true_iff in H as [Hx Hs]. specialize (IH Hs).
  destruct (Ascii.eqb x c); [cbn [forallb]; exact IH|].
  destruct (split_char c s) as [|p ps]; cbn [forallb] in *.
  - rewrite Hx. reflexivity.
  - apply andb_true_iff in IH as [Hp Hps]. rewrite Hx, Hp, Hps. reflexivity.
Qed.

End CharFacts.

Lemma span_fst_sat (f : ascii -> bool) (s : text) :
  forallb f (fst (span f s)) = true.
Proof.
  induction s as [|c s IH]; cbn [span]; [reflexivity|].
  destruct (f c) eqn:E; [|reflexivity].
  destruct (span f s) as [a b]. cbn [fst forallb] in *. rewrite E, IH. reflexivity.
Qed.

Lemma split_char_free (c : ascii) (s : text) :
  forallb (forallb (not_char c)) (split_char c s) = true.
Proof.
  induction s as [|x s IH]; cbn [split_char forallb]; [reflexivity|].
  destruct (Ascii.eqb x c) eqn:E; [cbn [forallb]; exact IH|].
  destruct (split_char c s) as [|p ps]; cbn [forallb] in *.
  - unfold not_char. rewrite E. reflexivity.
  - apply andb_true_iff in IH as [Hp Hps].
    unfold not_char at 1. rewrite E, Hp, Hps. reflexivity.
Qed.

Lemma last_filter_all (Q g : text -> bool) (l : list text) (d : text) :
  forallb Q l = true -> Q d = true -> Q (last (filter g l) d) = true.
Proof.
  intros Hl Hd. induction l as [|x l IH]; cbn [filter]; [exact Hd|].
  cbn [forallb] in Hl. apply andb_true_iff in Hl as [Hx Hl].
  destruct (g x); [|exact (IH Hl)].
  cbn [last]. destruct (filter g l) as [|y r] eqn:E; [exact Hx|].
  exact (IH Hl).
Qed.

Lemma path_name_all (P : ascii -> bool) (p : text) :
  forallb P p = true -> forallb P (path_name p) = true.
Proof.
  intros H. unfold path_name, path_parts.
  apply (last_filter_all (forallb P)); [|reflexivity].
  apply split_char_all. exact H.
Qed.

Lemma path_name_no_slash (p : text) : forallb (not_char "/") (path_name p) = true.
Proof.
  unfold path_name, path_parts.
  apply (last_filter_all (forallb (not_char "/"))); [|reflexivity].
  apply split_char_free.
Qed.

Lemma urlparse_path_no_query (ok : text -> bool) (url : text) (parsed : parse_result) :
  urlparse ok url = Ok parsed -> forallb (not_char "?") (path parsed) = true.
Proof.
  unfold urlparse.
  destruct (split_scheme _) as [scheme url3].
  destruct (split_netloc ok url3) as [[netloc url4]|e]; [|discriminate].
  set (url6 := before_char "?" (before_char "#" url4)).
  assert (H6 : forallb (not_char "?") url6 = true) by apply span_fst_sat.
  destruct (existsb (text_eqb scheme) uses_params && has_char ";" url6).
  - destruct (has_char ";" (after_last_char "/" url6)).
    + intros H. injection H as <-. cbn [path].
      rewrite forallb_app, forallb_firstn by exact H6.
      apply forallb_before_char, forallb_after_last_char. exact H6.
    + intros H. injection H as <-. exact H6.
  - intros H. injection H as <-. exact H6.
Qed.

Lemma has_char_false (c : ascii) (s : text) :
  forallb (not_char c) s = true -> has_char c s = false.
Proof. intros H. apply existsb_none. exact H. Qed.

Lemma string_of_uint_digits (d : Decimal.uint) :
  forallb (in_range 48 57) (txt (NilZero.string_of_uint d)) = true.
Proof.
  assert (H : forall u,
             forallb (in_range 48 57)
               (list_ascii_of_string (NilEmpty.string_of_uint u)) = true).
  { induction u; cbn [NilEmpty.string_of_uint list_ascii_of_string forallb];
      [reflexivity | rewrite IHu; reflexivity ..]. }
  unfold txt, NilZero.string_of_uint. destruct d; try apply H. reflexivity.
Qed.

Lemma decimal_03d_digits (n : nat) :
  forallb (in_range 48 57) (decimal_03d n) = true.
Proof.
  unfold decimal_03d, decimal. rewrite forallb_app, string_of_uint_digits.
  rewrite andb_true_r.
  induction (3 - List.length (txt (NilZero.string_of_uint (Nat.to_uint n))));
    cbn [repeat forallb]; [reflexivity | exact IHn0].
Qed.

Lemma digit_plain (c : ascii) :
  in_range 48 57 c = true -> not_char "/" c = true /\ not_char "?" c = true.
Proof. by_bits c. Qed.

Lemma default_name_plain (url : text) (n : nat) (c : ascii) :
  (c = "/" \/ c = "?")%char ->
  forallb (not_char c) (txt "image_" ++ decimal_03d n ++ guess_ext url) = true.
Proof.
  intros Hc. rewrite !forallb_app.
  assert (Hd : forallb (not_char c) (decimal_03d n) = true).
  { apply (forallb_impl (in_range 48 57)); [|apply decimal_03d_digits].
    intros x Hx. destruct (digit_plain x Hx). destruct Hc as [-> | ->]; assumption. }
  rewrite Hd. unfold guess_ext.
  destruct Hc as [-> | ->];
    destruct (endswith (txt ".jpg") url || endswith (txt ".jpeg") url);
    try reflexivity;
    destruct (endswith (txt ".png") url); try reflexivity;
    destruct (endswith (txt ".gif") url); reflexivity.
Qed.

Lemma local_filename_total (ok : text -> bool) (url : text) (n : nat) :
  (forall parsed, urlparse ok url = Ok parsed ->
                  exists filename, local_filename ok url n = Ok filename) /\
  (forall e, urlparse ok url = Raise e -> local_filename ok url n = Raise e).
Proof.
  unfold local_filename. split.
  - intros parsed ->. destruct (negb _ || _); eauto.
  - intros e ->. reflexivity.
Qed.

(** X12.  The name under which an image is saved is never empty and has
    neither a slash nor a question mark in it.  The path that [urlparse]
    returns never holds a question mark: the name is the last component of
    the path of the URL whenever that is not empty, and the numbered default
    name otherwise; the test for a question mark in the name never
    decides. *)
Theorem local_filename_plain (ok : text -> bool) (url : text) (n : nat) :
  (forall parsed,
     urlparse ok url = Ok parsed ->
     has_char "?" (path_name (path parsed)) = false /\
     local_filename ok url n =
       Ok (if truthy (path_name (path parsed)) then path_name (path parsed)
           else txt "image_" ++ decimal_03d n ++ guess_ext url)) /\
  (forall filename,
     local_filename ok url n = Ok filename ->
     filename <> [] /\ has_char "/" filename = false /\
     has_char "?" filename = false).
Proof.
  assert (Hq : forall parsed, urlparse ok url = Ok parsed ->
                 has_char "?" (path_name (path parsed)) = false).
  { intros parsed Hp. apply has_char_false, path_name_all.
    exact (urlparse_path_no_query ok url parsed Hp). }
  split.
  - intros parsed Hp. split; [exact (Hq parsed Hp)|].
    unfold local_filename. rewrite Hp, (Hq parsed Hp), orb_false_r.
    destruct (truthy (path_name (path parsed))); reflexivity.
  - intros filename. unfold local_filename.
    destruct (urlparse ok url) as [parsed|e] eqn:Hp; [|discriminate].
    rewrite (Hq parsed eq_refl), orb_false_r.
    destruct (truthy (path_name (path parsed))) eqn:Et; cbn [negb];
      intros H; apply Ok_inj in H; subst filename.
    + split; [apply truthy_ne; exact Et|].
      split; [apply has_char_false, path_name_no_slash | exact (Hq parsed eq_refl)].
    + split; [discriminate|].
      split; apply has_char_false, default_name_plain; auto.
Qed.

Lemma local_filename_plain_witness :
  has_char "/"
    (path_name (txt "/images/../a.png")) = false.
Proof.
  exact (proj1 (proj2 (proj2 (local_filename_plain (fun _ => true)
                                (txt "https://minio.local/images/../a.png?x=1/2") 0)
                             (path_name (txt "/images/../a.png")) eq_refl))).
Defined.

(** ** Vendor hosts without a bucket label *)

(** X13.  [detect_storage_type] and [parse_oss_url] disagree on hosts that
    name the vendor without the [.oss-] separator (such as a URL on the
    endpoint itself): the URL is classified as the vendor's, its
    decomposition gives no bucket, and the image is reported as not fetched
    without any HTTP request being tried, so that the markup keeps the
    remote link. *)
Theorem vendor_host_without_bucket (ok : text -> bool) (c : client)
    (images_dir host p : text) (i downloaded_count : nat) :
  forallb host_char host = true -> host <> [] ->
  forallb key_char p = true ->
  contains (txt "aliyuncs.com") host || contains (txt "oss-") host = true ->
  contains (txt ".oss-") host = false ->
  let url := txt "https://" ++ host ++ "/"%char :: p in
  detect_storage_type ok url = Ok oss /\
  parse_oss_url ok url = Ok None /\
  (exists filename,
     fetch ok c images_dir i url downloaded_count = Ok (filename, false)) /\
  (forall alt_text content,
     download_loop ok c images_dir i [(alt_text, url)] content downloaded_count =
     (content, downloaded_count)).
Proof.
  intros Hh Hn Hp Hv Hb url.
  assert (Ed : detect_storage_type ok url = Ok oss).
  { unfold detect_storage_type, url. rewrite (urlparse_https ok host p Hh Hp).
    rewrite (hostname_plain _ _ _ _ _ _ Hh Hn). cbn [or_empty].
    rewrite Hv. reflexivity. }
  assert (Ep : parse_oss_url ok url = Ok None).
  { unfold parse_oss_url, url. rewrite (urlparse_https ok host p Hh Hp).
    rewrite (hostname_plain _ _ _ _ _ _ Hh Hn). cbn [or_empty].
    rewrite Hb. reflexivity. }
  assert (Ef : exists filename,
             fetch ok c images_dir i url downloaded_count = Ok (filename, false)).
  { unfold fetch. rewrite Ed.
    destruct (proj1 (local_filename_total ok url downloaded_count)
                _ (urlparse_https ok host p Hh Hp)) as [filename ->].
    exists filename. unfold download_from_oss. rewrite Ep.
    destruct (negb (oss2_importable c)); reflexivity. }
  split; [exact Ed|]. split; [exact Ep|]. split; [exact Ef|].
  intros alt_text content. cbn [download_loop].
  destruct Ef as [filename ->]. reflexivity.
Qed.

Lemma vendor_host_without_bucket_witness :
  detect_storage_type (fun _ => true)
    (txt "https://" ++ txt "oss-cn-shanghai.aliyuncs.com" ++
     "/"%char :: txt "bucket/images/a.png") = Ok oss /\
  parse_oss_url (fun _ => true)
    (txt "https://" ++ txt "oss-cn-shanghai.aliyuncs.com" ++
     "/"%char :: txt "bucket/images/a.png") = Ok None.
Proof.
  destruct (vendor_host_without_bucket (fun _ => true) failing_client
              (txt "out/images") (txt "oss-cn-shanghai.aliyuncs.com")
              (txt "bucket/images/a.png") 0 0 eq_refl
              ltac:(discriminate) eq_refl eq_refl eq_refl)
    as (Hd & Hp & _).
  split; [exact Hd | exact Hp].
Defined.

(** ** Reverse relocation on written markup *)

Lemma forallb_filter_sub (P f : ascii -> bool) (s : text) :
  forallb P s = true -> forallb P (filter f s) = true.
Proof.
  induction s as [|c s IH]; cbn [filter forallb]; [auto|].
  intros H. apply andb_true_iff in H as [Hc Hs].
  destruct (f c); cbn [forallb]; rewrite ?Hc; auto.
Qed.

Lemma split_scheme_rest (P : ascii -> bool) (url : text) :
  forallb P url = true -> forallb P (snd (split_scheme url)) = true.
Proof.
  intros H. unfold split_scheme.
  pose proof (proj2 (forallb_span P (not_char ":") url H)) as Hr.
  destruct (span (not_char ":") url) as [pre rest]. cbn [snd] in Hr.
  destruct pre as [|c pre]; [exact H|].
  destruct rest as [|x after]; [exact H|].
  destruct (is_ascii_alpha c && forallb is_scheme_char (c :: pre)); [|exact H].
  cbn [snd]. exact (forallb_tl P (x :: after) Hr).
Qed.

Lemma split_netloc_rest (P : ascii -> bool) (ok : text -> bool)
    (url netloc rest : text) :
  split_netloc ok url = Ok (netloc, rest) ->
  forallb P url = true -> forallb P rest = true.
Proof.
  unfold split_netloc. intros H Hu.
  destruct (strip_prefix (txt "//") url) as [u|] eqn:Eu.
  - apply strip_prefix_Some in Eu. subst url.
    rewrite forallb_app in Hu. apply andb_true_iff in Hu as [_ Hu].
    pose proof (proj2 (forallb_span P (fun c => negb (is_netloc_delim c)) u Hu))
      as Hr.
    destruct (span (fun c => negb (is_netloc_delim c)) u) as [n r].
    cbn [snd] in Hr.
    destruct ((has_char "[" n && negb (has_char "]" n)) ||
              (has_char "]" n && negb (has_char "[" n))); [discriminate|].
    destruct (has_char "[" n && has_char "]" n).
    + destruct (check_bracketed_netloc ok n); [|discriminate].
      apply Ok_inj in H. injection H as _ <-. exact Hr.
    + apply Ok_inj in H. injection H as _ <-. exact Hr.
  - apply Ok_inj in H. injection H as _ <-. exact Hu.
Qed.

(** The path of a parsed URL is made of characters of the URL. *)
Lemma urlparse_path_all (P : ascii -> bool) (ok : text -> bool) (url : text)
    (parsed : parse_result) :
  urlparse ok url = Ok parsed ->
  forallb P url = true -> forallb P (path parsed) = true.
Proof.
  unfold urlparse. intros H Hu.
  set (url2 := filter (fun c => negb (is_unsafe_url_char c))
                      (snd (span is_c0_or_space url))) in *.
  assert (H2 : forallb P url2 = true).
  { apply forallb_filter_sub. apply (forallb_span P is_c0_or_space url Hu). }
  pose proof (split_scheme_rest P url2 H2) as H3.
  destruct (split_scheme url2) as [scheme url3]. cbn [snd] in H3.
  destruct (split_netloc ok url3) as [[netloc url4]|e] eqn:En; [|discriminate].
  pose proof (split_netloc_rest P ok url3 netloc url4 En H3) as H4.
  set (url6 := before_char "?" (before_char "#" url4)) in *.
  assert (H6 : forallb P url6 = true)
    by (apply forallb_before_char, forallb_before_char; exact H4).
  destruct (existsb (text_eqb scheme) uses_params && has_char ";" url6).
  - destruct (has_char ";" (after_last_char "/" url6)).
    + injection H as <-. cbn [path].
      rewrite forallb_app, forallb_firstn by exact H6.
      apply forallb_before_char, forallb_after_last_char. exact H6.
    + injection H as <-. exact H6.
  - injection H as <-. exact H6.
Qed.

Lemma digit_not_delimiter (c : ascii) :
  in_range 48 57 c = true -> negb (delimiter c) = true.
Proof. by_bits c. Qed.

Lemma local_filename_written (ok : text -> bool) (url filename : text) (n : nat) :
  plain url = true -> local_filename ok url n = Ok filename ->
  plain filename = true.
Proof.
  intros Hu. unfold local_filename.
  destruct (urlparse ok url) as [parsed|e] eqn:Hp; [|discriminate].
  destruct (negb (truthy (path_name (path parsed))) ||
            has_char "?" (path_name (path parsed)));
    intros H; apply Ok_inj in H; subst filename.
  - unfold plain. rewrite !forallb_app.
    rewrite (forallb_impl (in_range 48 57) _ (decimal_03d n) digit_not_delimiter
               (decimal_03d_digits n)).
    unfold guess_ext.
    destruct (endswith (txt ".jpg") url || endswith (txt ".jpeg") url);
      [reflexivity|].
    destruct (endswith (txt ".png") url); [reflexivity|].
    destruct (endswith (txt ".gif") url); reflexivity.
  - apply path_name_all. exact (urlparse_path_all _ ok url parsed Hp Hu).
Qed.

Lemma fetch_filename (ok : text -> bool) (c : client) (dir url filename : text)
    (i n : nat) (fetched : bool) :
  fetch ok c dir i url n = Ok (filename, fetched) ->
  local_filename ok url n = Ok filename.
Proof.
  unfold fetch.
  destruct (detect_storage_type ok url) as [ty|e]; [|discriminate].
  destruct (local_filename ok url n) as [f|e]; [|discriminate].
  destruct ty.
  - destruct (download_from_oss ok c i url (joinpath dir f)) as [[|]|e];
      [|intros H; apply Ok_inj in H; congruence | discriminate].
    destruct (stat_size c i (joinpath dir f)); [|discriminate].
    intros H; apply Ok_inj in H; congruence.
  - destruct (session_get c i url) as [s|e]; [|discriminate].
    destruct (s =? 200); [|intros H; apply Ok_inj in H; congruence].
    destruct (save_body c i (joinpath dir f)); [|discriminate].
    intros H; apply Ok_inj in H; congruence.
  - destruct (session_get c i url) as [s|e]; [|discriminate].
    destruct (s =? 200); [|intros H; apply Ok_inj in H; congruence].
    destruct (save_body c i (joinpath dir f)); [|discriminate].
    intros H; apply Ok_inj in H; congruence.
Qed.

Lemma same_but_target_refl (i : item) : same_but_target i i.
Proof. destruct i; cbn; auto. Qed.

Lemma same_but_target_trans (i j k : item) :
  same_but_target i j -> same_but_target j k -> same_but_target i k.
Proof.
  destruct i, j, k; cbn; try tauto; try congruence;
    intros [-> [-> | H]] [-> [-> | H']]; auto.
Qed.

Lemma same_but_target_retarget (url local_path : text) (i : item) :
  is_local local_path = true -> same_but_target i (retarget url local_path i).
Proof.
  intros Hl. destruct i as [t|alt target|alt target]; cbn; auto;
    destruct (text_eqb target url); auto.
Qed.

Lemma Forall2_same_refl (items : list item) : Forall2 same_but_target items items.
Proof. induction items; constructor; auto using same_but_target_refl. Qed.

Lemma Forall2_same_trans (a b c : list item) :
  Forall2 same_but_target a b -> Forall2 same_but_target b c ->
  Forall2 same_but_target a c.
Proof.
  intros Hab. revert c. induction Hab; intros c0 Hbc; inversion Hbc; subst;
    constructor; eauto using same_but_target_trans.
Qed.

Lemma Forall2_same_retarget (url local_path : text) (items : list item) :
  is_local local_path = true ->
  Forall2 same_but_target items (map (retarget url local_path) items).
Proof.
  intros Hl. induction items; cbn [map]; constructor;
    auto using same_but_target_retarget.
Qed.

Lemma download_loop_written (ok : text -> bool) (c : client) (dir : text)
    (image_urls : list (text * text)) :
  forallb (fun r => plain (snd r)) image_urls = true ->
  forall i items count,
    wf items = true ->
    exists items' n,
      download_loop ok c dir i image_urls (render items) count =
        (render items', n) /\
      wf items' = true /\ Forall2 same_but_target items items'.
Proof.
  induction image_urls as [|[alt url] rest IH]; intros Hu i items count Hw.
  - exists items, count. repeat split; auto using Forall2_same_refl.
  - cbn [forallb snd] in Hu. apply andb_true_iff in Hu as [Hurl Hrest].
    cbn [download_loop].
    destruct (fetch ok c dir i url count) as [[filename [|]]|e] eqn:Ef;
      try (apply (IH Hrest); exact Hw).
    apply fetch_filename in Ef.
    pose proof (local_filename_written ok url filename count Hurl Ef) as Hf.
    assert (Hl : plain (txt "images/" ++ filename) = true).
    { unfold plain. rewrite forallb_app. fold (plain filename). rewrite Hf.
      reflexivity. }
    rewrite (relink_render url (txt "images/" ++ filename) items Hw Hurl Hl)
      by discriminate.
    destruct (IH Hrest (S i) (map (retarget url (txt "images/" ++ filename)) items)
                (S count))
      as (items' & n & E & Hw' & Hs).
    { apply wf_map_retarget; [exact Hl | discriminate | exact Hw]. }
    exists items', n. split; [exact E|]. split; [exact Hw'|].
    apply (Forall2_same_trans _ _ _
             (Forall2_same_retarget url (txt "images/" ++ filename) items eq_refl)
             Hs).
Qed.

Lemma extract_image_urls_render (items : list item) :
  wf items = true ->
  extract_image_urls (render items) =
  tags items ++ filter (fun r => is_http_url (snd r)) (inlines items).
Proof.
  intros Hw. unfold extract_image_urls, finditer.
  rewrite (scan_md_render items Hw), (scan_html_render items Hw).
  rewrite hits_html_pieces. f_equal.
  rewrite <- hits_md_pieces.
  apply (map_filter_comm _ _ (fun m => (md_group1 m, md_group2 m))
                         (fun r => is_http_url (snd r))).
Qed.

Lemma references_plain (items : list item) :
  wf items = true ->
  forallb (fun r => plain (snd r)) (tags items) = true /\
  forallb (fun r => plain (snd r)) (inlines items) = true.
Proof.
  induction items as [|[t|alt target|alt target] items IH]; intros Hw;
    [split; reflexivity | ..]; apply wf_cons in Hw as [Hi Hw];
    destruct (IH Hw) as [Ht Hn]; cbn [tags inlines forallb snd]; auto;
    cbn [wf_item] in Hi; apply wf_item_fields in Hi as (_ & Hp & _);
    rewrite Hp; auto.
Qed.

Lemma forallb_filter_list (A : Type) (P f : A -> bool) (l : list A) :
  forallb P l = true -> forallb P (filter f l) = true.
Proof.
  induction l as [|x l IH]; cbn [filter forallb]; [auto|].
  intros H. apply andb_true_iff in H as [Hx Hl].
  destruct (f x); cbn [forallb]; rewrite ?Hx; auto.
Qed.

(** X14.  Reverse relocation keeps written markup written.  Whatever the
    client host answers, once the image directory is made the function
    returns markup written from the same items: every run of plain text and
    every alt text is as it was, every reference keeps its syntax and its
    place, and the target of a reference is either unchanged or a path
    below [images/]. *)
Theorem reverse_relocation_written (ok : text -> bool) (c : client)
    (items : list item) (output_dir : text) (u : unit) :
  wf items = true ->
  mkdir c (output_dir ++ txt "/images") = Ok u ->
  exists items' n,
    download_images_from_storage ok c (render items) output_dir =
      Ok (render items', n) /\
    wf items' = true /\ Forall2 same_but_target items items' /\
    map fst (references items') = map fst (references items).
Proof.
  intros Hw Hm. unfold download_images_from_storage. rewrite Hm.
  assert (Hshape : forall items',
            Forall2 same_but_target items items' ->
            map fst (references items') = map fst (references items)).
  { clear. intros items' H. induction H as [|i i' l l' Hi Hl IH]; [reflexivity|].
    destruct i as [t|alt target|alt target], i' as [t'|alt' target'|alt' target'];
      cbn in Hi; try contradiction; cbn [references map fst]; [exact IH | ..];
      destruct Hi as [Ha _]; rewrite IH, Ha; reflexivity. }
  destruct (extract_image_urls (render items)) as [|p l] eqn:E.
  - exists items, 0. repeat split; auto using Forall2_same_refl.
  - rewrite <- E.
    destruct (download_loop_written ok c (output_dir ++ txt "/images")
                (extract_image_urls (render items))) with (i := 0) (items := items)
                (count := 0) as (items' & n & El & Hw' & Hs).
    + rewrite (extract_image_urls_render items Hw), forallb_app.
      destruct (references_plain items Hw) as [Ht Hn].
      rewrite Ht. apply forallb_filter_list. exact Hn.
    + exact Hw.
    + exists items', n. rewrite El. repeat split; auto.
Qed.

Lemma reverse_relocation_written_witness :
  exists items' n,
    download_images_from_storage (fun _ => true) failing_client
      (render doc_remote) (txt "out") = Ok (render items', n) /\
    wf items' = true.
Proof.
  destruct (reverse_relocation_written (fun _ => true) failing_client doc_remote
              (txt "out") tt eq_refl eq_refl)
    as (items' & n & E & Hw & _).
  exists items', n. split; [exact E | exact Hw].
Defined.

(** ** Forward relocation on written markup, item by item *)

Lemma forwarded_refl (h : host) (b : StorageBackend) (dir : text)
    (items : list item) :
  Forall2 (forwarded h b dir) items items.
Proof. induction items; constructor; auto. left. reflexivity. Qed.

Lemma rewrite_images_written (h : host) (b : StorageBackend) (dir : text)
    (items : list item) :
  wf items = true ->
  forall st,
    let r := rewrite_images h b (render items) dir st in
    drawn st <= drawn (snd r) <= drawn st + List.length (inlines items) /\
    (forall new, fst r = Ok new ->
       exists items',
         new = render items' /\
         Forall2 (forwarded h b dir) items items' /\
         List.length (stored (snd r)) + List.length (tags items) =
         List.length (stored st) + List.length (tags items')).
Proof.
  induction items as [|i items IH]; intros Hw st.
  - cbn. split; [lia|]. intros new H. injection H as <-.
    exists []. split; [reflexivity|]. split; [constructor | reflexivity].
  - pose proof Hw as Hw'. apply wf_cons in Hw' as [Hi Hw'].
    specialize (IH Hw'). cbv zeta in *.
    rewrite (rewrite_images_cons h b dir i items st Hw).
    assert (Hsame : forall p st1,
              p = render_item i -> drawn st <= drawn st1 <= S (drawn st) ->
              (drawn st1 = S (drawn st) -> exists a t, i = Inline a t) ->
              List.length (stored st1) = List.length (stored st) ->
              let r := prepend p (rewrite_images h b (render items) dir st1) in
              drawn st <= drawn (snd r) <=
                drawn st + List.length (inlines (i :: items)) /\
              (forall new, fst r = Ok new ->
                 exists items',
                   new = render items' /\
                   Forall2 (forwarded h b dir) (i :: items) items' /\
                   List.length (stored (snd r)) + List.length (tags (i :: items)) =
                   List.length (stored st) + List.length (tags items'))).
    { intros p st1 -> Hd Hinl Hst. cbv zeta.
      destruct (IH st1) as [Hb Hok].
      destruct (rewrite_images h b (render items) dir st1) as [[t|e] st2];
        cbn [prepend fst snd] in *.
      - split.
        + destruct i as [x|a x|a x]; cbn [inlines List.length]; try lia;
            destruct (Nat.eq_dec (drawn st1) (S (drawn st))) as [E|E];
            try lia; destruct (Hinl E) as (a' & t' & Hi'); discriminate Hi'.
        + intros new H. injection H as <-.
          destruct (Hok t eq_refl) as (items' & -> & Hf & Hl).
          exists (i :: items'). split; [reflexivity|].
          split; [constructor; [left; reflexivity | exact Hf]|].
          destruct i; cbn [tags List.length]; lia.
      - split; [|discriminate].
        destruct i as [x|a x|a x]; cbn [inlines List.length]; try lia;
          destruct (Nat.eq_dec (drawn st1) (S (drawn st))) as [E|E];
          try lia; destruct (Hinl E) as (a' & t' & Hi'); discriminate Hi'. }
    destruct i as [t|alt target|alt target]; cbn [forward_piece].
    + apply Hsame; [reflexivity | lia | intros E; lia | reflexivity].
    + unfold replace_image. cbn [md_group0 md_group1 md_group2].
      destruct (path_exists h (joinpath dir (path_name target))) as [[|]|e].
      * unfold upload_file. cbn [drawn stored].
        destruct (put_object h b (joinpath dir (path_name target)) _) as [u|e].
        -- cbv zeta. destruct (IH (Uploads (S (drawn st))
                                      (stored st ++
                                       [(joinpath dir (path_name target),
                                         txt "images/" ++ uuid4 h (drawn st) ++
                                         path_suffix
                                           (joinpath dir (path_name target)))])))
             as [Hb Hok].
           destruct (rewrite_images h b (render items) dir _) as [[t|e] st2];
             cbn [prepend fst snd drawn stored] in *.
           ++ split; [cbn [inlines List.length]; lia|].
              intros new H. injection H as <-.
              destruct (Hok t eq_refl) as (items' & -> & Hf & Hl).
              eexists (Tag alt _ :: items'). split; [reflexivity|].
              split.
              ** constructor; [|exact Hf]. right.
                 exists alt, target, (drawn st). split; reflexivity.
              ** rewrite length_app in Hl. cbn [tags List.length] in *. lia.
           ++ split; [cbn [inlines List.length]; lia | discriminate].
        -- apply (Hsame (inline_image alt target)
                    (Uploads (S (drawn st)) (stored st)));
             cbn [drawn stored]; [reflexivity | lia | eauto | reflexivity].
      * apply Hsame; [reflexivity | lia | intros E; lia | reflexivity].
      * cbn [fst snd]. split; [cbn [inlines List.length]; lia | discriminate].
    + apply Hsame; [reflexivity | lia | intros E; lia | reflexivity].
Qed.

(** X15.  Forward relocation keeps written markup written.  Whatever the
    server host answers, the text returned for written markup is written
    from the same items, where an item is either unchanged or an inline
    image turned into a tag with the same alt text that points at an object
    of the back end under [images/], named by a drawn identifier and the
    suffix of the image file; plain text and existing tags are never
    changed.  At most one identifier is drawn per inline image, and when no
    exception leaves the pass the number of objects stored is the number of
    inline images turned into tags. *)
Theorem forward_relocation_written (h : host) (b : StorageBackend)
    (image_dir : text) (items : list item) (st : uploads) :
  wf items = true ->
  let r := process_markdown_images h (Some b) (render items) image_dir true st in
  (exists items',
     fst r = render items' /\
     Forall2 (forwarded h b image_dir) items items' /\
     map fst (references items') = map fst (references items) /\
     (forall new st1,
        rewrite_images h b (render items) image_dir st = (Ok new, st1) ->
        List.length (stored (snd r)) + List.length (tags items) =
        List.length (stored st) + List.length (tags items'))) /\
  drawn st <= drawn (snd r) <= drawn st + List.length (inlines items).
Proof.
  intros Hw r. subst r. unfold process_markdown_images. cbn [negb].
  destruct (rewrite_images_written h b image_dir items Hw st) as [Hb Hok].
  cbv zeta in Hb, Hok.
  destruct (rewrite_images h b (render items) image_dir st) as [[new|e] st'];
    cbn [fst snd] in *.
  - split; [|exact Hb].
    destruct (Hok new eq_refl) as (items' & -> & Hf & Hl).
    exists items'. split; [reflexivity|]. split; [exact Hf|].
    split; [|intros _ _ _; exact Hl].
    clear -Hf. induction Hf as [|i i' l l' Hi Hl IH]; [reflexivity|].
    destruct Hi as [-> | (alt & target & k & -> & ->)].
    + destruct i; cbn [references map fst]; rewrite ?IH; reflexivity.
    + cbn [references map fst]. rewrite IH. reflexivity.
  - split; [|exact Hb].
    exists items. split; [reflexivity|].
    split; [apply forwarded_refl|]. split; [reflexivity|].
    intros new st1 H. discriminate H.
Qed.

Lemma forward_relocation_written_witness :
  drawn no_uploads <=
  drawn (snd (process_markdown_images demo_host (Some demo_backend)
                (render doc_upload_fails) demo_dir true no_uploads)) <=
  drawn no_uploads + List.length (inlines doc_upload_fails).
Proof.
  exact (proj2 (forward_relocation_written demo_host demo_backend demo_dir
                  doc_upload_fails no_uploads eq_refl)).
Defined.

(** ** From the object key to the local path *)

Lemma split_char_none (c : ascii) (s : text) :
  forallb (not_char c) s = true -> split_char c s = [s].
Proof.
  induction s as [|x s IH]; cbn [forallb split_char]; [reflexivity|].
  intros H. apply andb_true_iff in H as [Hx Hs]. rewrite (IH Hs).
  unfold not_char in Hx. apply negb_true_iff in Hx. rewrite Hx. reflexivity.
Qed.

Lemma split_char_app (c : ascii) (a s : text) :
  forallb (not_char c) a = true ->
  split_char c (a ++ c :: s) = a :: split_char c s.
Proof.
  induction a as [|x a IH]; cbn [forallb split_char app].
  - intros _. rewrite Ascii.eqb_refl. reflexivity.
  - intros H. apply andb_true_iff in H as [Hx Ha]. rewrite (IH Ha).
    unfold not_char in Hx. apply negb_true_iff in Hx. rewrite Hx. reflexivity.
Qed.

Lemma has_char_forallb (c : ascii) (s : text) :
  has_char c s = false -> forallb (not_char c) s = true.
Proof.
  induction s as [|x s IH]; [reflexivity|].
  cbn [has_char existsb forallb]. intros H. apply orb_false_iff in H as [Hx Hs].
  unfold not_char. unfold is_char in Hx. rewrite Hx. exact (IH Hs).
Qed.

Lemma path_name_images (name : text) :
  has_char "/" name = false -> truthy name = true ->
  text_eqb name (txt ".") = false ->
  path_name ("/"%char :: txt "images/" ++ name) = name.
Proof.
  intros Hs Hn Hd. unfold path_name, path_parts.
  change ("/"%char :: txt "images/" ++ name)
    with ([] ++ "/"%char :: (txt "images" ++ "/"%char :: name)).
  rewrite (split_char_app "/" [] _ eq_refl).
  rewrite (split_char_app "/" (txt "images") _ eq_refl).
  rewrite (split_char_none "/" name (has_char_forallb "/" name Hs)).
  cbn [filter].
  change (text_eqb [] [] || text_eqb [] (txt ".")) with true.
  change (text_eqb (txt "images") [] || text_eqb (txt "images") (txt "."))
    with false.
  rewrite Hd, orb_false_r.
  destruct name as [|x name]; [discriminate|]. reflexivity.
Qed.

Lemma label_not_delimiter (c : ascii) :
  host_char c = true -> negb (delimiter c) = true.
Proof. by_bits c. Qed.

Lemma vendor_url (ok : text -> bool) (endpoint bucket key : text) :
  oss_bucket_ok bucket = true -> oss_endpoint_ok endpoint = true ->
  forallb key_char key = true ->
  exists r host,
    endpoint = txt "oss-" ++ r /\ host = bucket ++ txt ".oss-" ++ r /\
    contains (txt ".oss-") r = false /\
    forallb host_char host = true /\ host <> [] /\
    get_url (OSSStorage endpoint bucket) key =
      txt "https://" ++ host ++ "/"%char :: key /\
    urlparse ok (get_url (OSSStorage endpoint bucket) key) =
      Ok (Parse_result (txt "https") host ("/"%char :: key) [] [] []) /\
    hostname (Parse_result (txt "https") host ("/"%char :: key) [] [] []) =
      Some host.
Proof.
  unfold oss_bucket_ok, oss_endpoint_ok. intros Hb He Hk.
  destruct (strip_prefix (txt "oss-") endpoint) as [r|] eqn:Er; [|discriminate].
  apply strip_prefix_Some in Er. subst endpoint.
  apply andb_true_iff in He as [Hr Hc]. apply negb_true_iff in Hc.
  exists r, (bucket ++ txt ".oss-" ++ r).
  assert (Hh : forallb host_char (bucket ++ txt ".oss-" ++ r) = true).
  { rewrite !forallb_app.
    rewrite (forallb_impl label_char host_char bucket label_host_char Hb), Hr.
    reflexivity. }
  assert (Hn : bucket ++ txt ".oss-" ++ r <> []) by (destruct bucket; discriminate).
  assert (Eu : get_url (OSSStorage (txt "oss-" ++ r) bucket) key =
               txt "https://" ++ (bucket ++ txt ".oss-" ++ r) ++ "/"%char :: key).
  { unfold get_url. rewrite <- !app_assoc. reflexivity. }
  repeat split; auto.
  - rewrite Eu. apply urlparse_https; assumption.
  - apply hostname_plain; assumption.
Qed.

(** X16.  The object key under which the server stores an image is the
    local path the client writes.  Take a vendor back end whose bucket is a
    non-empty run of lower-case letters, digits and hyphens and whose
    endpoint is [oss-] followed by such characters and dots, with no further
    [.oss-]; and a key [images/NAME] whose [NAME] is not empty, is not [.],
    and has no slash, none of [#], [?], [;], tab, line feed and carriage
    return, and none of the delimiters of written markup.  Then the URL the
    server puts into the markup is classified as the vendor's by the client,
    decomposes into the same bucket, endpoint and key, and names the local
    file [NAME]; and when the client has the vendor library and both
    credentials, the vendor download of that key succeeds and the file is
    found afterwards, the fetch succeeds and every reference to the URL in
    written markup is pointed at [images/NAME], the key itself, and
    counted. *)
Theorem object_key_is_local_path (ok : text -> bool) (c : client)
    (endpoint bucket name images_dir alt_text : text) (i n : nat)
    (items : list item) :
  oss_bucket_ok bucket = true -> truthy bucket = true ->
  oss_endpoint_ok endpoint = true ->
  image_name_ok name = true -> plain name = true ->
  let key : text := txt "images/" ++ name in
  let url := get_url (OSSStorage endpoint bucket) key in
  detect_storage_type ok url = Ok oss /\
  parse_oss_url ok url = Ok (Some (bucket, endpoint, key)) /\
  local_filename ok url n = Ok name /\
  (oss2_importable c = true ->
   truthy (getenv (client_environ c) "OSS_ACCESS_KEY" []) = true ->
   truthy (getenv (client_environ c) "OSS_SECRET_KEY" []) = true ->
   get_object_to_file c i bucket endpoint key (joinpath images_dir name) = Ok tt ->
   stat_size c i (joinpath images_dir name) = Ok tt ->
   wf items = true ->
   fetch ok c images_dir i url n = Ok (name, true) /\
   download_loop ok c images_dir i [(alt_text, url)] (render items) n =
   (render (map (retarget url key) items), S n)).
Proof.
  intros Hb Hbn He Hname Hplain key url.
  unfold image_name_ok in Hname.
  apply andb_true_iff in Hname as [Hname Hdot].
  apply andb_true_iff in Hname as [Hname Hne].
  apply andb_true_iff in Hname as [Hk Hslash].
  apply negb_true_iff in Hdot, Hslash.
  assert (Hkey : forallb key_char key = true).
  { unfold key. rewrite forallb_app, Hk. reflexivity. }
  destruct (vendor_url ok endpoint bucket key Hb He Hkey)
    as (r & host & -> & -> & Hc & Hh & Hn & Eu & Ep & Eh).
  fold url in Eu, Ep.
  assert (Ed : detect_storage_type ok url = Ok oss).
  { unfold detect_storage_type. rewrite Ep, Eh. cbn [or_empty].
    replace (bucket ++ txt ".oss-" ++ r)
      with ((bucket ++ txt ".") ++ txt "oss-" ++ r)
      by (rewrite <- app_assoc; reflexivity).
    rewrite (contains_app (txt "oss-")), orb_true_r. reflexivity. }
  assert (Eparse : parse_oss_url ok url = Ok (Some (bucket, txt "oss-" ++ r, key))).
  { unfold parse_oss_url. rewrite Ep, Eh. cbn [or_empty path].
    rewrite contains_app. rewrite (str_split_host bucket r Hb Hc).
    cbn [nth]. rewrite (lstrip_slash key eq_refl). reflexivity. }
  assert (El : local_filename ok url n = Ok name).
  { unfold local_filename. rewrite Ep. cbn [path]. unfold key.
    rewrite (path_name_images name Hslash Hne Hdot), Hne.
    assert (Hq : has_char "?" name = false).
    { apply existsb_none. apply (forallb_impl key_char); [|exact Hk].
      intros x Hx. destruct (key_char_facts x Hx) as (_ & _ & H & _). exact H. }
    rewrite Hq. reflexivity. }
  split; [exact Ed|]. split; [exact Eparse|]. split; [exact El|].
  intros Himp Hak Hsk Hget Hstat Hw.
  assert (Ef : fetch ok c images_dir i url n = Ok (name, true)).
  { unfold fetch. rewrite Ed, El. unfold download_from_oss.
    rewrite Himp, Eparse. cbn [negb forallb]. rewrite Hbn.
    change (truthy (txt "oss-" ++ r)) with true.
    change (truthy key) with true. cbn [andb negb].
    rewrite Hak, Hsk. cbn [negb orb]. rewrite Hget, Hstat. reflexivity. }
  split; [exact Ef|].
  cbn [download_loop]. rewrite Ef. f_equal.
  apply relink_render; [exact Hw | | |discriminate].
  - unfold plain. rewrite Eu, forallb_app. apply andb_true_iff.
    split; [reflexivity|]. rewrite forallb_app. apply andb_true_iff.
    split; [exact (forallb_impl host_char _ _ label_not_delimiter Hh)|].
    unfold key. change ("/"%char :: txt "images/" ++ name)
      with (txt "/images/" ++ name).
    rewrite forallb_app. apply andb_true_iff. split; [reflexivity | exact Hplain].
  - unfold key, plain. rewrite forallb_app. apply andb_true_iff.
    split; [reflexivity | exact Hplain].
Qed.

Lemma object_key_is_local_path_witness :
  download_loop (fun _ => true) vendor_client (txt "out/images") 0
    [(txt "a",
      get_url demo_backend (txt "images/" ++ txt "id0.png"))]
    (render [Tag (txt "a") (get_url demo_backend (txt "images/" ++ txt "id0.png"))])
    0 =
  (render (map (retarget (get_url demo_backend (txt "images/" ++ txt "id0.png"))
                         (txt "images/" ++ txt "id0.png"))
               [Tag (txt "a")
                    (get_url demo_backend (txt "images/" ++ txt "id0.png"))]),
   1).
Proof.
  exact (proj2 (proj2 (proj2 (proj2
           (object_key_is_local_path (fun _ => true) vendor_client
              (txt "oss-cn-shanghai.aliyuncs.com") (txt "bucket") (txt "id0.png")
              (txt "out/images") (txt "a") 0 0
              [Tag (txt "a") (get_url demo_backend (txt "images/" ++ txt "id0.png"))]
              eq_refl eq_refl eq_refl eq_refl eq_refl)))
           eq_refl eq_refl eq_refl eq_refl eq_refl eq_refl)).
Defined.

(** ** The factory, completed *)

Lemma forallb_truthy_missing (c : config) (n1 n2 n3 n4 : string) :
  forallb truthy [getenv (environ c) n1 []; getenv (environ c) n2 [];
                  getenv (environ c) n3 []; getenv (environ c) n4 []] =
  negb (existsb (missing c) [n1; n2; n3; n4]).
Proof.
  cbn [existsb forallb]. rewrite !missing_getenv.
  destruct (truthy (getenv (environ c) n1 [])),
           (truthy (getenv (environ c) n2 [])),
           (truthy (getenv (environ c) n3 [])),
           (truthy (getenv (environ c) n4 [])); reflexivity.
Qed.

(** X17.  The factory returns a back end exactly when the storage type is
    known, none of its four settings is missing and the client constructor
    does not raise.  The URLs of the back end returned are a function of the
    environment: for the types [minio] and [cos] (in any case of letters,
    [minio] when unset) the scheme, [https] unless [MINIO_SECURE] is set to
    something other than [true], the endpoint and the key, without the
    bucket; for the type [oss], [https], the bucket, the endpoint and the
    key. *)
Theorem create_storage_backend_complete (c : config) :
  let ty := lower (getenv (environ c) "STORAGE_TYPE" (txt "minio")) in
  let minio := text_eqb ty (txt "minio") || text_eqb ty (txt "cos") in
  let secure :=
    text_eqb (lower (getenv (environ c) "MINIO_SECURE" (txt "true"))) (txt "true") in
  ((exists b, create_storage_backend c = Some b) <->
   exists names,
     required_settings c = Some names /\ existsb (missing c) names = false /\
     if minio
     then exists u, minio_client c (getenv (environ c) "MINIO_ENDPOINT" [])
                      (getenv (environ c) "MINIO_ACCESS_KEY" [])
                      (getenv (environ c) "MINIO_SECRET_KEY" []) secure = Ok u
     else exists u, oss2_bucket c (getenv (environ c) "OSS_ENDPOINT" [])
                      (getenv (environ c) "OSS_ACCESS_KEY" [])
                      (getenv (environ c) "OSS_SECRET_KEY" [])
                      (getenv (environ c) "OSS_BUCKET" []) = Ok u) /\
  (forall b object_name,
     create_storage_backend c = Some b ->
     get_url b object_name =
     if minio
     then (if secure then txt "https" else txt "http") ++ txt "://" ++
          getenv (environ c) "MINIO_ENDPOINT" [] ++ txt "/" ++ object_name
     else txt "https://" ++ getenv (environ c) "OSS_BUCKET" [] ++ txt "." ++
          getenv (environ c) "OSS_ENDPOINT" [] ++ txt "/" ++ object_name).
Proof.
  intros ty minio secure. unfold create_storage_backend, required_settings.
  fold ty. fold minio. fold secure.
  destruct minio.
  - rewrite forallb_truthy_missing.
    destruct (existsb (missing c) _) eqn:Em; cbn [negb].
    + split.
      * split; [intros [b H]; discriminate H|].
        intros (names & Hn & Hm & _). injection Hn as <-. congruence.
      * discriminate.
    + destruct (minio_client c _ _ _ secure) as [u|e] eqn:Ec.
      * split.
        -- split; [|eauto]. intros _. eexists. split; [reflexivity|].
           split; [exact Em | eauto].
        -- intros b object_name H. injection H as <-. reflexivity.
      * split.
        -- split; [intros [b H]; discriminate H|].
           intros (names & _ & _ & [u H]). discriminate H.
        -- discriminate.
  - destruct (text_eqb ty (txt "oss")).
    + rewrite forallb_truthy_missing.
      destruct (existsb (missing c) _) eqn:Em; cbn [negb].
      * split.
        -- split; [intros [b H]; discriminate H|].
           intros (names & Hn & Hm & _). injection Hn as <-. congruence.
        -- discriminate.
      * destruct (oss2_bucket c _ _ _ _) as [u|e] eqn:Ec.
        -- split.
           ++ split; [|eauto]. intros _. eexists. split; [reflexivity|].
              split; [exact Em | eauto].
           ++ intros b object_name H. injection H as <-. reflexivity.
        -- split.
           ++ split; [intros [b H]; discriminate H|].
              intros (names & _ & _ & [u H]). discriminate H.
           ++ discriminate.
    + split.
      * split; [intros [b H]; discriminate H|].
        intros (names & Hn & _). discriminate Hn.
      * discriminate.
Qed.

Lemma create_storage_backend_complete_witness :
  get_url demo_backend (txt "images/id0.png") =
  txt "https://" ++ txt "bucket" ++ txt "." ++ txt "oss-cn-shanghai.aliyuncs.com" ++
  txt "/" ++ txt "images/id0.png".
Proof.
  exact (proj2 (create_storage_backend_complete vendor_config)
               demo_backend (txt "images/id0.png") eq_refl).
Defined.

(** ** Object names keep the suffix of the file *)

Lemma name_suffix_app (a ext : text) :
  a <> [] -> ext <> [] -> forallb (not_char ".") ext = true ->
  name_suffix (a ++ "."%char :: ext) = "."%char :: ext.
Proof.
  intros Ha He Hd. unfold name_suffix.
  replace (rev (a ++ "."%char :: ext)) with (rev ext ++ "."%char :: rev a)
    by (rewrite rev_app_distr; cbn [rev]; rewrite <- app_assoc; reflexivity).
  rewrite (@span_app (not_char ".") (rev ext) "." (rev a));
    [|rewrite forallb_rev; exact Hd | reflexivity].
  destruct (rev a) as [|x ra] eqn:Era.
  { exfalso. apply Ha. apply (f_equal (@rev ascii)) in Era.
    rewrite rev_involutive in Era. exact Era. }
  destruct (rev ext) as [|y re] eqn:Ere.
  { exfalso. apply He. apply (f_equal (@rev ascii)) in Ere.
    rewrite rev_involutive in Ere. exact Ere. }
  rewrite <- Ere, rev_involutive. reflexivity.
Qed.

Lemma name_suffix_inv (name : text) :
  name_suffix name <> [] ->
  exists a ext,
    name = a ++ "."%char :: ext /\ a <> [] /\ ext <> [] /\
    forallb (not_char ".") ext = true /\
    name_suffix name = "."%char :: ext /\ path_stem name = a.
Proof.
  unfold path_stem, name_suffix.
  pose proof (span_eq (not_char ".") (rev name)) as Hs.
  pose proof (span_fst_sat (not_char ".") (rev name)) as Hf.
  assert (Hhead : forall x r, snd (span (not_char ".") (rev name)) = x :: r ->
                              x = "."%char).
  { intros x r. generalize (rev name). intros l. induction l as [|c l IH];
      cbn [span]; [discriminate|].
    destruct (not_char "." c) eqn:E.
    - destruct (span (not_char ".") l) as [u v]. cbn [snd] in *. exact IH.
    - cbn [snd]. intros H. injection H as <- _. unfold not_char in E.
      apply negb_false_iff, Ascii.eqb_eq in E. exact E. }
  destruct (span (not_char ".") (rev name)) as [ext_rev rest_rev].
  cbn [fst snd] in *.
  destruct rest_rev as [|x [|y rest]]; [congruence | congruence|].
  destruct ext_rev as [|z er]; [congruence|]. intros _.
  rewrite (Hhead x (y :: rest) eq_refl) in Hs.
  assert (En : name = rev (y :: rest) ++ "."%char :: rev (z :: er)).
  { apply (f_equal (@rev ascii)) in Hs. rewrite rev_involutive in Hs.
    rewrite <- Hs, rev_app_distr. cbn [rev app].
    repeat rewrite <- app_assoc. reflexivity. }
  exists (rev (y :: rest)), (rev (z :: er)).
  split; [exact En|].
  split; [cbn [rev]; destruct (rev rest); discriminate|].
  split; [cbn [rev]; destruct (rev er); discriminate|].
  split; [rewrite forallb_rev; exact Hf|].
  split; [reflexivity|].
  rewrite En. generalize (rev (y :: rest)) (rev (z :: er)). intros la le.
  replace (List.length (la ++ "."%char :: le) - List.length (txt "." ++ le))
    with (List.length la)
    by (rewrite length_app; cbn [List.length app txt list_ascii_of_string]; lia).
  induction la as [|c la IH]; cbn [List.length firstn app]; [reflexivity|].
  rewrite IH. reflexivity.
Qed.

Lemma split_char_nonempty (c : ascii) (s : text) : split_char c s <> [].
Proof.
  induction s as [|x s IH]; cbn [split_char]; [discriminate|].
  destruct (Ascii.eqb x c); [discriminate|].
  destruct (split_char c s); discriminate.
Qed.

Lemma split_char_app_gen (c : ascii) (a s : text) :
  split_char c (a ++ c :: s) = split_char c a ++ split_char c s.
Proof.
  induction a as [|x a IH]; cbn [split_char app].
  - rewrite Ascii.eqb_refl. reflexivity.
  - rewrite IH. destruct (Ascii.eqb x c); [reflexivity|].
    pose proof (split_char_nonempty c a) as Hn.
    destruct (split_char c a) as [|p ps]; [congruence | reflexivity].
Qed.

Lemma long_not_dot (k : text) : 2 <= List.length k -> text_eqb k (txt ".") = false.
Proof.
  destruct k as [|x [|y k]]; cbn [List.length]; try lia. intros _.
  cbn [txt list_ascii_of_string text_eqb]. apply andb_false_r.
Qed.

Lemma path_name_plain (k : text) :
  forallb (not_char "/") k = true -> 2 <= List.length k -> path_name k = k.
Proof.
  intros Hs Hl. unfold path_name, path_parts.
  rewrite (split_char_none "/" k Hs). cbn [filter].
  rewrite (long_not_dot k Hl).
  destruct k as [|x k]; [cbn [List.length] in Hl; lia | reflexivity].
Qed.

Lemma path_name_last (a k : text) :
  forallb (not_char "/") k = true -> 2 <= List.length k ->
  path_name (a ++ "/"%char :: k) = k.
Proof.
  intros Hs Hl. unfold path_name, path_parts.
  rewrite split_char_app_gen, filter_app, (split_char_none "/" k Hs).
  cbn [filter]. rewrite (long_not_dot k Hl).
  destruct k as [|x k]; [cbn [List.length] in Hl; lia|].
  cbn [text_eqb orb negb]. apply last_last.
Qed.

(** X18.  The object names the two clients choose keep the suffix of the
    file.  For a local file whose name has a suffix, the last component of
    the key built by [generate_object_key] (time stamp, underscore, file
    name, below the prefix when there is one) and of the name built by
    [generate_object_name] (stem, underscore, digest, suffix, below the
    prefix) has that same suffix; the second is returned whenever the file
    can be read, and the exception of reading it is passed on. *)
Theorem object_names_keep_suffix (local_path prefix timestamp : text)
    (file_hash : result text) :
  name_suffix (path_name local_path) <> [] ->
  has_char "/" timestamp = false ->
  (forall digest, file_hash = Ok digest -> has_char "/" digest = false) ->
  name_suffix (path_name (generate_object_key timestamp local_path prefix)) =
    name_suffix (path_name local_path) /\
  (forall digest,
     file_hash = Ok digest ->
     exists object_name,
       generate_object_name file_hash local_path prefix = Ok object_name /\
       startswith (prefix ++ txt "/") object_name = true /\
       name_suffix (path_name object_name) = name_suffix (path_name local_path)) /\
  (forall e, file_hash = Raise e ->
             generate_object_name file_hash local_path prefix = Raise e).
Proof.
  intros Hsuf Hts Hdig.
  pose proof (path_name_no_slash local_path) as Hslash.
  destruct (name_suffix_inv (path_name local_path) Hsuf)
    as (a & ext & En & Ha & He & Hd & Es & Est).
  rewrite En in Hslash. rewrite forallb_app in Hslash.
  apply andb_true_iff in Hslash as [Hsa Hse].
  apply has_char_forallb in Hts.
  split; [|split].
  - unfold generate_object_key. rewrite Es, En.
    assert (Hk : forallb (not_char "/")
                   (timestamp ++ txt "_" ++ a ++ "."%char :: ext) = true).
    { rewrite !forallb_app, Hts, Hsa, Hse. reflexivity. }
    assert (Hl : 2 <= List.length (timestamp ++ txt "_" ++ a ++ "."%char :: ext)).
    { rewrite !length_app. cbn [List.length txt list_ascii_of_string]. lia. }
    assert (Ek : name_suffix (timestamp ++ txt "_" ++ a ++ "."%char :: ext) =
                 "."%char :: ext).
    { replace (timestamp ++ txt "_" ++ a ++ "."%char :: ext)
        with ((timestamp ++ txt "_" ++ a) ++ "."%char :: ext)
        by (rewrite <- !app_assoc; reflexivity).
      apply name_suffix_app; [|exact He | exact Hd].
      destruct timestamp; discriminate. }
    destruct (truthy prefix).
    + change (prefix ++ txt "/" ++ timestamp ++ txt "_" ++ a ++ "."%char :: ext)
        with (prefix ++ "/"%char :: (timestamp ++ txt "_" ++ a ++ "."%char :: ext)).
      rewrite (path_name_last prefix _ Hk Hl). exact Ek.
    + rewrite (path_name_plain _ Hk Hl). exact Ek.
  - intros digest ->. specialize (Hdig digest eq_refl).
    apply has_char_forallb in Hdig.
    unfold generate_object_name. rewrite Es, Est.
    eexists. split; [reflexivity|]. split.
    + unfold startswith.
      rewrite (app_assoc prefix (txt "/")), strip_prefix_app. reflexivity.
    + assert (Hk : forallb (not_char "/")
                     (a ++ txt "_" ++ digest ++ "."%char :: ext) = true).
      { rewrite !forallb_app, Hdig, Hsa, Hse. reflexivity. }
      assert (Hl : 2 <= List.length (a ++ txt "_" ++ digest ++ "."%char :: ext)).
      { rewrite !length_app. cbn [List.length txt list_ascii_of_string]. lia. }
      change (prefix ++ txt "/" ++ a ++ txt "_" ++ digest ++ "."%char :: ext)
        with (prefix ++ "/"%char :: (a ++ txt "_" ++ digest ++ "."%char :: ext)).
      rewrite (path_name_last prefix _ Hk Hl).
      replace (a ++ txt "_" ++ digest ++ "."%char :: ext)
        with ((a ++ txt "_" ++ digest) ++ "."%char :: ext)
        by (rewrite <- !app_assoc; reflexivity).
      apply name_suffix_app; [|exact He | exact Hd].
      destruct a; [congruence | discriminate].
  - intros e ->. reflexivity.
Qed.

Lemma object_names_keep_suffix_witness :
  name_suffix
    (path_name (generate_object_key (txt "20250101_120000")
                  (txt "/data/report.v2.pdf") (txt "uploads"))) =
  name_suffix (path_name (txt "/data/report.v2.pdf")).
Proof.
  exact (proj1 (object_names_keep_suffix (txt "/data/report.v2.pdf") (txt "uploads")
                  (txt "20250101_120000") (Ok (txt "0a1b2c3d"))
                  ltac:(discriminate) eq_refl (fun d H => match H with
                                                         | eq_refl => eq_refl
                                                         end))).
Defined.

(** ** What a wait returns *)

Section TianshuWaitFacts.
Variable get : nat -> result json.
Variables poll_interval timeout : float.

Lemma tianshu_wait_loop_total (d : nat) :
  forall k elapsed fuel,
    (elapsed_after poll_interval elapsed d <? timeout)%float = false ->
    exists r,
      TianshuClient.wait_loop get poll_interval timeout (S d + fuel) k elapsed =
      Some r.
Proof.
  induction d as [|d IH]; intros k elapsed fuel Hd;
    cbn [Nat.add TianshuClient.wait_loop elapsed_after] in *.
  - rewrite Hd. eauto.
  - destruct (elapsed <? timeout)%float; [|eauto].
    destruct (get k) as [result|e]; [|eauto].
    destruct (json_item result "status") as [status|e]; [|eauto].
    destruct (is_str status "completed"); [eauto|].
    destruct (is_str status "failed");
      [destruct (json_get result "error_message" _); eauto|].
    destruct (is_str status "cancelled"); [eauto|].
    exact (IH (S k) _ fuel Hd).
Qed.

Lemma tianshu_wait_loop_outcome (fuel : nat) :
  forall k elapsed r,
    TianshuClient.wait_loop get poll_interval timeout fuel k elapsed = Some r ->
    tianshu_outcome get poll_interval timeout k elapsed r.
Proof.
  induction fuel as [|fuel IH]; intros k elapsed r; cbn [TianshuClient.wait_loop];
    [discriminate|].
  destruct (elapsed <? timeout)%float eqn:Ht.
  2:{ intros H. injection H as <-. split; [reflexivity|].
      exists k. rewrite Nat.sub_diag. split; [lia | exact Ht]. }
  destruct (get k) as [result|e] eqn:Eg.
  2:{ intros H. injection H as <-. exists k. split; [lia | left; exact Eg]. }
  destruct (json_item result "status") as [status|e] eqn:Es.
  2:{ intros H. injection H as <-. exists k. split; [lia|]. right.
      exists result. split; [exact Eg | exact Es]. }
  destruct (is_str status "completed") eqn:Ec.
  { intros H. injection H as <-. exists k, status.
    rewrite Nat.sub_diag. repeat split; auto. }
  destruct (is_str status "failed") eqn:Ef.
  { destruct (json_get result "error_message" (JStr (txt "Unknown error")))
      as [error|e] eqn:Em.
    - intros H. injection H as <-. exists k, result, status. repeat split; auto.
    - destruct result as [| | | | |d]; try discriminate Es.
      cbn in Em. destruct (lookup _ d); discriminate Em. }
  destruct (is_str status "cancelled") eqn:Ex.
  { intros H. injection H as <-. exists k, result, status. repeat split; auto. }
  intros H. apply IH in H. unfold tianshu_outcome in *.
  destruct r as [res|[msg| |t|e]].
  - destruct H as (j & st & Hj & Hb & H). exists j, st.
    split; [lia|]. split; [|exact H].
    replace (j - k) with (S (j - S k)) by lia. exact Hb.
  - destruct H as (j & res & st & Hj & H). exists j, res, st. split; [lia | exact H].
  - destruct H as (j & res & st & Hj & H). exists j, res, st. split; [lia | exact H].
  - destruct H as (Et & j & Hj & Hb). split; [exact Et|]. exists j.
    split; [lia|]. replace (j - k) with (S (j - S k)) by lia. exact Hb.
  - destruct H as (j & Hj & H). exists j. split; [lia | exact H].
Qed.

Lemma tianshu_never_advances (fuel : nat) :
  (forall j, tianshu_running (get j) = true) ->
  forall k elapsed,
    (elapsed <? timeout)%float = true ->
    (elapsed + poll_interval)%float = elapsed ->
    TianshuClient.wait_loop get poll_interval timeout fuel k elapsed = None.
Proof.
  intros Hr. induction fuel as [|fuel IH]; intros k elapsed Ht Hs; [reflexivity|].
  rewrite (tianshu_running_step get poll_interval timeout fuel k elapsed (Hr k) Ht).
  rewrite Hs. apply IH; assumption.
Qed.

End TianshuWaitFacts.

(** X19.  [TianshuClient.wait_for_task] ends no later than the first check
    at which its elapsed time, the interval added in binary64 once per
    poll, is not below the timeout, whatever the service answers: with the
    default interval of 2 and timeout of 600 that is after at most 300
    polls.  With an interval of zero, a positive timeout and a task that
    stays running it never ends.  What it ends
    with is justified by one answer of the service or one check: it returns
    a snapshot only if a query, made after a check that passed, answered
    that snapshot with status [completed]; it raises the timeout only after
    a check that failed, the failure only with the error message of an
    answer with status [failed], the cancellation only after an answer with
    status [cancelled], and any other exception only if a query raised it or
    an answer had no status to read. *)
Theorem tianshu_wait_returns (get : nat -> result json)
    (poll_interval timeout : float) :
  (forall n fuel,
     (elapsed_after poll_interval 0%float n <? timeout)%float = false ->
     exists r,
       TianshuClient.wait_for_task get poll_interval timeout (S n + fuel) =
       Some r) /\
  (forall fuel,
     (0 <? timeout)%float = true ->
     (forall j, tianshu_running (get j) = true) ->
     TianshuClient.wait_for_task get 0%float timeout fuel = None) /\
  (forall fuel r,
     TianshuClient.wait_for_task get poll_interval timeout fuel = Some r ->
     tianshu_outcome get poll_interval timeout 0 0%float r) /\
  (forall fuel,
     exists r,
       TianshuClient.wait_for_task get 2%float 600%float (301 + fuel) = Some r).
Proof.
  split; [|split; [|split]].
  4:{ intros fuel. apply (tianshu_wait_loop_total get 2%float 600%float 300).
      vm_compute. reflexivity. }
  - intros n fuel Hn. apply tianshu_wait_loop_total. exact Hn.
  - intros fuel Ht Hr.
    apply (tianshu_never_advances get 0%float timeout fuel Hr 0 0%float Ht).
    reflexivity.
  - intros fuel r H. exact (tianshu_wait_loop_outcome _ _ _ fuel 0 0%float r H).
Qed.

Lemma tianshu_wait_returns_witness :
  exists j st,
    0 <= j /\
    (elapsed_after a_tenth 0%float (j - 0) <? eight_tenths)%float = true /\
    slow_queries j = Ok (snapshot "completed") /\
    json_item (snapshot "completed") "status" = Ok st /\
    is_str st "completed" = true.
Proof.
  exact (proj1 (proj2 (proj2 (tianshu_wait_returns slow_queries a_tenth
                                eight_tenths)))
               9 (Returned (snapshot "completed")) eq_refl).
Defined.

(** ** Success is reported for completed tasks only *)

Lemma Some_inj_inl (A B : Type) (a b : A) :
  Some (@inl A B a) = Some (inl b) -> a = b.
Proof. intros H. injection H as ->. reflexivity. Qed.

Lemma poll_loop_inl (self : MinerURunPodHandler.service) (fuel : nat) :
  forall k waited_time result,
    MinerURunPodHandler.poll_loop self fuel k waited_time = Some (inl result) ->
    exists j r status_data st,
      k <= j /\
      (waited_time + Z.of_nat (j - k) * MinerURunPodHandler.poll_interval <
       MinerURunPodHandler.max_wait_time)%Z /\
      MinerURunPodHandler.session_get self j = Ok r /\
      MinerURunPodHandler.status r = 200 /\
      MinerURunPodHandler.body_json r = Ok status_data /\
      json_get status_data "status" JNull = Ok st /\
      is_str st "completed" = true /\
      MinerURunPodHandler.convert_api_response self status_data = inl result /\
      (forall i, k <= i < j ->
         handler_running (MinerURunPodHandler.session_get self i) = true).
Proof.
  induction fuel as [|fuel IH]; intros k waited_time result;
    cbn [MinerURunPodHandler.poll_loop]; [discriminate|].
  destruct (Z.ltb_spec waited_time MinerURunPodHandler.max_wait_time) as [Ht|Ht];
    [|discriminate].
  destruct (MinerURunPodHandler.session_get self k) as [r|e] eqn:Eg;
    [|discriminate].
  destruct (Nat.eqb_spec (MinerURunPodHandler.status r) 200) as [Es|Es];
    cbn [negb]; [|discriminate].
  destruct (MinerURunPodHandler.body_json r) as [status_data|e] eqn:Eb;
    [|discriminate].
  destruct (json_get status_data "status" JNull) as [st|e] eqn:Est;
    [|discriminate].
  destruct (is_str st "completed") eqn:Ec.
  { intros H. injection H as H. exists k, r, status_data, st.
    rewrite Nat.sub_diag. repeat split; auto; [lia | intros i Hi; lia]. }
  destruct (is_str st "failed").
  { destruct (json_get status_data "error_message" _); discriminate. }
  destruct (is_str st "pending" || is_str st "processing") eqn:Ep;
    [|discriminate].
  intros H. apply IH in H.
  destruct H as (j & r' & d' & st' & Hj & Hb & H1 & H2 & H3 & H4 & H5 & H6 & Hrun).
  exists j, r', d', st'. split; [lia|]. split.
  { replace (j - k) with (S (j - S k)) by lia.
    unfold MinerURunPodHandler.poll_interval in *. lia. }
  repeat split; auto.
  intros i Hi. destruct (Nat.eq_dec i k) as [->|Hne]; [|apply Hrun; lia].
  unfold handler_running. rewrite Eg, Eb, Est, Ep.
  apply Nat.eqb_eq in Es. rewrite Es. reflexivity.
Qed.

Lemma convert_inl_task_id (status_data : json)
    (result : MinerURunPodHandler.envelope) :
  _convert_api_response_to_runpod_format status_data = inl result ->
  exists d,
    status_data = JDict d /\
    lookup (txt "task_id") result = Some (vjson (dict_get d "task_id" JNull)).
Proof.
  unfold _convert_api_response_to_runpod_format.
  destruct status_data as [| | | | |d]; try discriminate.
  intros H. exists d. split; [reflexivity|].
  unfold convert_body in H.
  destruct (dict_get d "data" JNull) as [| b | n | s | l | [|kv data']];
    try (apply inl_inj in H; subst result; reflexivity).
  destruct (json_len (dict_get (kv :: data') "content" (JStr [])));
    [|apply inl_inj in H; subst result; reflexivity].
  destruct (image_count_of (dict_get (kv :: data') "content" (JStr [])));
    apply inl_inj in H; subst result; reflexivity.
Qed.

(** X20.  The handler reports success only for a task the internal service
    reported completed.  Whenever [process_task], with the handler's own
    translation, returns an envelope with [success] true, the input named
    an object, the submission was answered with status 200, and after fewer
    than 150 polls that found the task pending or processing, all answered
    with status 200, a status query was answered with status 200 and a
    snapshot with status [completed]; the envelope's [api_task_id] is the
    task id of that snapshot. *)
Theorem success_only_when_completed (worker : text) (time : nat -> Z)
    (session_post : json -> result MinerURunPodHandler.response)
    (session_get : nat -> result MinerURunPodHandler.response)
    (fuel : nat) (event : list (text * json))
    (env : MinerURunPodHandler.envelope) :
  MinerURunPodHandler.process_task
    (handler_of worker time session_post session_get) fuel event = Some (inl env) ->
  lookup (txt "success") env = Some (vjson (JBool true)) ->
  exists api_params accepted j completed status_data,
    MinerURunPodHandler.api_params_of event = inl api_params /\
    session_post api_params = Ok accepted /\
    MinerURunPodHandler.status accepted = 200 /\
    j < 150 /\
    (forall i, i < j -> handler_running (session_get i) = true) /\
    session_get j = Ok completed /\
    MinerURunPodHandler.status completed = 200 /\
    MinerURunPodHandler.body_json completed = Ok (JDict status_data) /\
    lookup (txt "status") status_data = Some (JStr (txt "completed")) /\
    lookup (txt "api_task_id") env =
      Some (vjson (dict_get status_data "task_id" JNull)).
Proof.
  intros H Hs. unfold MinerURunPodHandler.process_task in H.
  destruct (MinerURunPodHandler.api_params_of event) as [api_params|e] eqn:Ep.
  2:{ injection H as <-. discriminate Hs. }
  destruct (MinerURunPodHandler.submit_task_to_api _ fuel api_params)
    as [[result|e]|] eqn:Esub; [| |discriminate].
  2:{ injection H as <-. discriminate Hs. }
  apply Some_inj_inl in H. subst env.
  unfold MinerURunPodHandler.submit_task_to_api in Esub.
  change (MinerURunPodHandler.session_post
            (handler_of worker time session_post session_get))
    with session_post in Esub.
  destruct (session_post api_params) as [accepted|e] eqn:Epost; [|discriminate].
  destruct (Nat.eqb_spec (MinerURunPodHandler.status accepted) 200) as [E200|E200];
    cbn [negb] in Esub.
  2:{ destruct (MinerURunPodHandler.body_text accepted); discriminate. }
  destruct (MinerURunPodHandler.body_json accepted) as [submit_result|e];
    [|discriminate].
  destruct (json_get submit_result "task_id" JNull) as [task_id|e]; [|discriminate].
  destruct (negb (json_truthy task_id)); [discriminate|].
  apply poll_loop_inl in Esub.
  destruct Esub as (j & r & status_data & st & _ & Hb & Hg & H200 & Hbody & Hst &
                    Hc & Hconv & Hrun).
  change (MinerURunPodHandler.convert_api_response
            (handler_of worker time session_post session_get))
    with _convert_api_response_to_runpod_format in Hconv.
  change (MinerURunPodHandler.session_get
            (handler_of worker time session_post session_get))
    with session_get in Hg, Hrun.
  destruct (convert_inl_task_id status_data result Hconv) as (d & -> & Htid).
  exists api_params, accepted, j, r, d.
  split; [reflexivity|]. split; [exact Epost|]. split; [exact E200|].
  split.
  { unfold MinerURunPodHandler.poll_interval, MinerURunPodHandler.max_wait_time
      in Hb. lia. }
  split; [intros i Hi; apply Hrun; lia|].
  split; [exact Hg|]. split; [exact H200|]. split; [exact Hbody|].
  split.
  - rewrite json_get_dict in Hst. apply Ok_inj in Hst. subst st.
    unfold dict_get in Hc.
    destruct (lookup (txt "status") d) as [[| | |s| |]|]; try discriminate Hc.
    cbn [is_str] in Hc. apply text_eqb_eq in Hc. subst s. reflexivity.
  - unfold dict_update. cbn [fold_left fst snd].
    rewrite Htid. apply lookup_dict_set_same.
Qed.

Lemma success_only_when_completed_witness :
  exists j,
    j < 150 /\
    MinerURunPodHandler.session_get (completing_service (render doc_mixed)) j =
    Ok (MinerURunPodHandler.Response 200 (Ok [])
          (Ok (JDict (completed_snapshot (txt "t-1") (JStr (render doc_mixed))
                        (JBool true))))).
Proof.
  destruct (success_only_when_completed (txt "worker-1")
              (fun n => (1000 + 7 * Z.of_nat n)%Z)
              (fun _ => Ok (MinerURunPodHandler.Response 200 (Ok [])
                              (Ok (JDict [(txt "task_id", JStr (txt "t-1"))]))))
              (fun _ => Ok (MinerURunPodHandler.Response 200 (Ok [])
                              (Ok (JDict (completed_snapshot (txt "t-1")
                                            (JStr (render doc_mixed))
                                            (JBool true))))))
              1 demo_event _ eq_refl eq_refl)
    as (p & a & j & r & d & _ & _ & _ & Hj & _).
  exists j. split; [exact Hj | reflexivity].
Defined.

(** ** Upload followed by download *)

Section RoundTrip.
Variable ok : text -> bool.
Variable h : host.
Variable c : client.
Variables endpoint bucket image_dir : text.

Local Abbreviation b := (OSSStorage endpoint bucket).
Local Abbreviation base := (vendor_base endpoint bucket).

Hypothesis bucket_ok : oss_bucket_ok bucket = true.
Hypothesis bucket_named : truthy bucket = true.
Hypothesis endpoint_ok : oss_endpoint_ok endpoint = true.
Hypothesis files_found : forall p, path_exists h p = Ok true.
Hypothesis uploads_succeed : forall p key, put_object h b p key = Ok tt.
Hypothesis library_installed : oss2_importable c = true.
Hypothesis access_key_set :
  truthy (getenv (client_environ c) "OSS_ACCESS_KEY" []) = true.
Hypothesis secret_key_set :
  truthy (getenv (client_environ c) "OSS_SECRET_KEY" []) = true.
Hypothesis downloads_succeed :
  forall i bucket_name endpoint_name key p,
    get_object_to_file c i bucket_name endpoint_name key p = Ok tt.
Hypothesis files_written : forall i p, stat_size c i p = Ok tt.

Lemma get_url_base (key : text) : get_url b key = base ++ key.
Proof. unfold vendor_base, get_url. rewrite <- !app_assoc. reflexivity. Qed.

Lemma rewrite_images_uploaded (items : list item) :
  wf items = true ->
  forall st,
    rewrite_images h b (render items) image_dir st =
    (Ok (render (uploaded h b image_dir (drawn st) items)),
     Uploads (drawn st + List.length (inlines items))
             (stored st ++ uploaded_objects h image_dir (drawn st) items)).
Proof.
  induction items as [|i items IH]; intros Hw st.
  - cbn. rewrite Nat.add_0_r, app_nil_r. destruct st; reflexivity.
  - pose proof Hw as Hw'. apply wf_cons in Hw' as [Hi Hw'].
    rewrite (rewrite_images_cons h b image_dir i items st Hw).
    destruct i as [t|alt target|alt target]; cbn [forward_piece render_item].
    + rewrite (IH Hw' st). reflexivity.
    + unfold replace_image. cbn [md_group0 md_group1 md_group2].
      rewrite files_found. unfold upload_file. rewrite uploads_succeed.
      cbn [drawn stored]. rewrite (IH Hw'). cbn [drawn stored prepend].
      cbn [uploaded uploaded_objects inlines List.length render flat_map
           render_item].
      unfold object_key. rewrite <- app_assoc. cbn [app].
      replace (S (drawn st) + List.length (inlines items))
        with (drawn st + S (List.length (inlines items))) by lia.
      reflexivity.
    + rewrite (IH Hw' st). reflexivity.
Qed.

Lemma vendor_fetch (name images_dir : text) (i n : nat) :
  image_name_ok name = true ->
  fetch ok c images_dir i (get_url b (txt "images/" ++ name)) n = Ok (name, true).
Proof.
  intros Hname. unfold image_name_ok in Hname.
  apply andb_true_iff in Hname as [Hname Hdot].
  apply andb_true_iff in Hname as [Hname Hne].
  apply andb_true_iff in Hname as [Hk Hslash].
  apply negb_true_iff in Hdot, Hslash.
  set (key := txt "images/" ++ name).
  assert (Hkey : forallb key_char key = true).
  { unfold key. rewrite forallb_app, Hk. reflexivity. }
  destruct (vendor_url ok endpoint bucket key bucket_ok endpoint_ok Hkey)
    as (r & host & Ee & -> & Hc & Hh & Hn & Eu & Ep & Eh).
  assert (Ed : detect_storage_type ok (get_url b key) = Ok oss).
  { unfold detect_storage_type. rewrite Ep, Eh. cbn [or_empty].
    replace (bucket ++ txt ".oss-" ++ r)
      with ((bucket ++ txt ".") ++ txt "oss-" ++ r)
      by (rewrite <- app_assoc; reflexivity).
    rewrite (contains_app (txt "oss-")), orb_true_r. reflexivity. }
  assert (Eparse : parse_oss_url ok (get_url b key) =
                   Ok (Some (bucket, txt "oss-" ++ r, key))).
  { unfold parse_oss_url. rewrite Ep, Eh. cbn [or_empty path].
    rewrite contains_app. rewrite (str_split_host bucket r bucket_ok Hc).
    cbn [nth]. rewrite (lstrip_slash key eq_refl). reflexivity. }
  assert (El : local_filename ok (get_url b key) n = Ok name).
  { unfold local_filename. rewrite Ep. cbn [path]. unfold key.
    rewrite (path_name_images name Hslash Hne Hdot), Hne.
    assert (Hq : has_char "?" name = false).
    { apply existsb_none. apply (forallb_impl key_char); [|exact Hk].
      intros x Hx. destruct (key_char_facts x Hx) as (_ & _ & H & _). exact H. }
    rewrite Hq. reflexivity. }
  unfold fetch. rewrite Ed, El. unfold download_from_oss.
  rewrite library_installed, Eparse. cbn [negb forallb]. rewrite bucket_named.
  change (truthy (txt "oss-" ++ r)) with true.
  change (truthy key) with true. cbn [andb negb].
  rewrite access_key_set, secret_key_set. cbn [negb orb].
  rewrite downloads_succeed, files_written. reflexivity.
Qed.

Lemma plain_vendor_url (name : text) :
  plain name = true -> plain (get_url b (txt "images/" ++ name)) = true.
Proof.
  intros Hp. unfold get_url, plain. rewrite !forallb_app.
  assert (Hb : forallb (fun x => negb (delimiter x)) bucket = true).
  { apply (forallb_impl host_char); [exact label_not_delimiter|].
    apply (forallb_impl label_char); [exact label_host_char | exact bucket_ok]. }
  assert (He : forallb (fun x => negb (delimiter x)) endpoint = true).
  { pose proof endpoint_ok as H. unfold oss_endpoint_ok in H.
    destruct (strip_prefix (txt "oss-") endpoint) as [r|] eqn:Er; [|discriminate].
    apply strip_prefix_Some in Er. rewrite Er.
    apply andb_true_iff in H as [Hr _]. rewrite forallb_app.
    rewrite (forallb_impl host_char _ r label_not_delimiter Hr). reflexivity. }
  fold (plain name). rewrite Hb, He, Hp. reflexivity.
Qed.

Lemma base_not_local (name : text) :
  strip_prefix base (txt "images/" ++ name) = None.
Proof. reflexivity. Qed.

Lemma localize_retarget (name : text) (i : item) :
  localize base (retarget (base ++ txt "images/" ++ name) (txt "images/" ++ name) i) =
  localize base i.
Proof.
  destruct i as [t|alt target|alt target]; cbn [retarget localize].
  - reflexivity.
  - destruct (text_eqb target (base ++ txt "images/" ++ name)) eqn:E;
      [|reflexivity].
    apply text_eqb_eq in E. subst target.
    rewrite strip_prefix_app, base_not_local. reflexivity.
  - destruct (text_eqb target (base ++ txt "images/" ++ name)) eqn:E;
      [|reflexivity].
    apply text_eqb_eq in E. subst target.
    rewrite strip_prefix_app, base_not_local. reflexivity.
Qed.

Lemma localize_foreign (cur : list item) :
  (forall alt t key, In (alt, t) (references cur) ->
                     strip_prefix base t = Some key -> False) ->
  map (localize base) cur = cur.
Proof.
  induction cur as [|i cur IH]; intros H; [reflexivity|].
  cbn [map]. rewrite IH.
  - destruct i as [t|alt target|alt target]; cbn [localize]; [reflexivity | ..];
      (destruct (strip_prefix base target) as [key|] eqn:E; [|reflexivity]);
      exfalso; apply (H alt target key); [left; reflexivity | exact E
                                         |left; reflexivity | exact E].
  - intros alt t key Hin. apply (H alt t key).
    destruct i; cbn [references]; [exact Hin | right; exact Hin | right; exact Hin].
Qed.

Lemma references_retarget (url local_path : text) (cur : list item)
    (alt t : text) :
  In (alt, t) (references (map (retarget url local_path) cur)) ->
  t = local_path \/ (t <> url /\ In (alt, t) (references cur)).
Proof.
  induction cur as [|i cur IH]; cbn [map references]; [contradiction|].
  destruct i as [x|a target|a target]; cbn [retarget references].
  - intros H. destruct (IH H) as [-> | [Hn Hin]]; auto.
  - intros [H | H].
    + destruct (text_eqb target url) eqn:E.
      * injection H as _ <-. left. reflexivity.
      * injection H as <- <-. right. split; [|left; reflexivity].
        intros ->. rewrite text_eqb_refl in E. discriminate.
    + destruct (IH H) as [-> | [Hn Hin]]; auto. right. split; [exact Hn|].
      right. exact Hin.
  - intros [H | H].
    + destruct (text_eqb target url) eqn:E.
      * injection H as _ <-. left. reflexivity.
      * injection H as <- <-. right. split; [|left; reflexivity].
        intros ->. rewrite text_eqb_refl in E. discriminate.
    + destruct (IH H) as [-> | [Hn Hin]]; auto. right. split; [exact Hn|].
      right. exact Hin.
Qed.

Lemma download_loop_localize (images_dir : text) (l : list (text * text)) :
  forall cur i n,
    wf cur = true ->
    (forall alt url, In (alt, url) l ->
       exists name, url = base ++ txt "images/" ++ name /\
                    image_name_ok name = true /\ plain name = true) ->
    (forall alt t key, In (alt, t) (references cur) ->
                       strip_prefix base t = Some key -> In t (map snd l)) ->
    download_loop ok c images_dir i l (render cur) n =
    (render (map (localize base) cur), n + List.length l).
Proof.
  induction l as [|[alt url] rest IH]; intros cur i n Hw Hl Hcur.
  - cbn [download_loop List.length]. rewrite Nat.add_0_r.
    rewrite localize_foreign; [reflexivity|].
    intros a t key Hin Hs. exact (Hcur a t key Hin Hs).
  - destruct (Hl alt url (or_introl eq_refl)) as (name & -> & Hname & Hplain).
    cbn [download_loop].
    rewrite <- (get_url_base (txt "images/" ++ name)).
    rewrite (vendor_fetch name images_dir i n Hname).
    assert (Hpl : plain (txt "images/" ++ name) = true).
    { unfold plain. rewrite forallb_app. apply andb_true_iff.
      split; [reflexivity | exact Hplain]. }
    rewrite (relink_render _ (txt "images/" ++ name) cur Hw
               (plain_vendor_url name Hplain) Hpl) by discriminate.
    rewrite IH.
    + rewrite map_map, get_url_base.
      rewrite (map_ext _ _ (localize_retarget name)).
      cbn [List.length]. f_equal. lia.
    + apply wf_map_retarget; [exact Hpl | discriminate | exact Hw].
    + intros a u Hin. apply (Hl a u). right. exact Hin.
    + intros a t key Hin Hs. rewrite get_url_base in Hin.
      apply references_retarget in Hin. destruct Hin as [-> | [Hne Hin]].
      * rewrite base_not_local in Hs. discriminate.
      * destruct (Hcur a t key Hin Hs) as [Heq | Hr]; [|exact Hr].
        cbn [snd] in Heq. congruence.
Qed.

Lemma inlines_uploaded (n : nat) (items : list item) :
  inlines (uploaded h b image_dir n items) = [].
Proof.
  revert n. induction items as [|[t|alt target|alt target] items IH]; intros n;
    cbn [uploaded inlines]; auto.
Qed.

Lemma references_tags (cur : list item) :
  inlines cur = [] -> references cur = tags cur.
Proof.
  induction cur as [|[t|alt target|alt target] cur IH]; cbn [inlines references tags];
    intros H; auto; [discriminate | rewrite IH by exact H; reflexivity].
Qed.

Lemma stored_names_tail (i : item) (items : list item) :
  stored_names_ok h image_dir (i :: items) -> stored_names_ok h image_dir items.
Proof.
  intros H n alt target Hin. apply (H n alt target).
  destruct i; cbn [inlines]; auto. right. exact Hin.
Qed.

Lemma uploaded_facts (items : list item) :
  wf items = true -> tags items = [] -> stored_names_ok h image_dir items ->
  forall n,
    wf (uploaded h b image_dir n items) = true /\
    (forall alt url, In (alt, url) (tags (uploaded h b image_dir n items)) ->
       exists name, url = base ++ txt "images/" ++ name /\
                    image_name_ok name = true /\ plain name = true) /\
    map (localize base) (uploaded h b image_dir n items) =
      downloaded h image_dir n items /\
    List.length (tags (uploaded h b image_dir n items)) =
      List.length (inlines items) /\
    map snd (references (downloaded h image_dir n items)) =
      map snd (uploaded_objects h image_dir n items).
Proof.
  induction items as [|i items IH]; intros Hw Ht Hn n.
  - repeat split. intros alt url [].
  - apply wf_cons in Hw as [Hi Hw].
    destruct i as [t|alt target|alt target]; cbn [tags] in Ht; [| |discriminate].
    + destruct (IH Hw Ht (stored_names_tail _ _ Hn) n) as (H1 & H2 & H3 & H4 & H5).
      cbn [uploaded downloaded uploaded_objects tags inlines map localize references].
      repeat split; auto.
      * unfold wf in *. cbn [forallb]. rewrite H1. cbn [wf_item] in *.
        rewrite Hi. reflexivity.
      * rewrite H3. reflexivity.
    + destruct (IH Hw Ht (stored_names_tail _ _ Hn) (S n))
        as (H1 & H2 & H3 & H4 & H5).
      destruct (Hn n alt target (or_introl eq_refl)) as [Hname Hplain].
      cbv zeta in Hname, Hplain.
      cbn [wf_item] in Hi. apply wf_item_fields in Hi as (Ha & _ & _).
      cbn [uploaded downloaded uploaded_objects tags inlines map localize
           references List.length snd].
      split; [|split; [|split; [|split]]].
      * unfold wf in *. cbn [forallb wf_item]. rewrite H1, Ha.
        unfold object_key. rewrite (plain_vendor_url _ Hplain).
        unfold get_url. reflexivity.
      * intros a url [H | H]; [|exact (H2 a url H)].
        injection H as _ <-. eexists. split; [|split; [exact Hname | exact Hplain]].
        unfold object_key. apply get_url_base.
      * rewrite get_url_base, strip_prefix_app, H3. reflexivity.
      * rewrite H4. reflexivity.
      * rewrite H5. reflexivity.
Qed.

(** X21.  Upload followed by download.  Take markup written from plain text
    and inline images, without raw tags; a vendor back end whose bucket is a
    non-empty run of lower-case letters, digits and hyphens and whose
    endpoint is [oss-] followed by such characters and dots, with no further
    [.oss-]; a server host on which every image file is found, every upload
    succeeds, and every identifier it may draw, followed by the suffix of
    the file of any inline image of the markup, is a name that is not empty,
    is not [.], and has no slash, none of [#], [?], [;], tab, line feed and
    carriage return, and none of the delimiters of written markup; and a
    client with the vendor library and both credentials, on which the image
    directory can be made, every download succeeds and every downloaded file
    is found.  Then forward relocation turns every inline image into a tag
    at the URL of its object, storing one object per image, and reverse
    relocation of that text points every tag at a local path and counts
    every image.  The local paths the client writes are exactly the keys of
    the objects the server stored, in document order. *)
Theorem upload_then_download (items : list item) (st : uploads)
    (output_dir : text) (u : unit) :
  wf items = true -> tags items = [] ->
  stored_names_ok h image_dir items ->
  mkdir c (output_dir ++ txt "/images") = Ok u ->
  let r := process_markdown_images h (Some b) (render items) image_dir true st in
  fst r = render (uploaded h b image_dir (drawn st) items) /\
  stored (snd r) = stored st ++ uploaded_objects h image_dir (drawn st) items /\
  download_images_from_storage ok c (fst r) output_dir =
    Ok (render (downloaded h image_dir (drawn st) items),
        List.length (inlines items)) /\
  map snd (references (downloaded h image_dir (drawn st) items)) =
    map snd (uploaded_objects h image_dir (drawn st) items).
Proof.
  intros Hw Ht Hn Hm r. subst r. unfold process_markdown_images. cbn [negb].
  rewrite (rewrite_images_uploaded items Hw st). cbn [fst snd stored].
  destruct (uploaded_facts items Hw Ht Hn (drawn st)) as (H1 & H2 & H3 & H4 & H5).
  split; [reflexivity|]. split; [reflexivity|]. split; [|exact H5].
  unfold download_images_from_storage. rewrite Hm.
  rewrite (extract_image_urls_render _ H1), inlines_uploaded. cbn [filter].
  rewrite app_nil_r.
  assert (El : download_loop ok c (output_dir ++ txt "/images") 0
                 (tags (uploaded h b image_dir (drawn st) items))
                 (render (uploaded h b image_dir (drawn st) items)) 0 =
               (render (downloaded h image_dir (drawn st) items),
                List.length (inlines items))).
  { rewrite download_loop_localize; [rewrite H3, H4; reflexivity | exact H1
                                    | exact H2 |].
    intros alt t key Hin _.
    rewrite (references_tags _ (inlines_uploaded (drawn st) items)) in Hin.
    apply (in_map snd) in Hin. exact Hin. }
  destruct (tags (uploaded h b image_dir (drawn st) items)) as [|p l] eqn:Et.
  - cbn [download_loop] in El. injection El as E1 E2. rewrite E1, <- E2.
    reflexivity.
  - rewrite El. reflexivity.
Qed.

End RoundTrip.

Lemma upload_then_download_witness :
  download_images_from_storage (fun _ => true) vendor_client
    (fst (process_markdown_images willing_host
            (Some (OSSStorage (txt "oss-cn-shanghai.aliyuncs.com") (txt "bucket")))
            (render doc_relative) demo_dir true no_uploads))
    (txt "out") =
  Ok (render (downloaded willing_host demo_dir (drawn no_uploads) doc_relative),
      List.length (inlines doc_relative)).
Proof.
  refine (proj1 (proj2 (proj2
            (upload_then_download (fun _ => true) willing_host vendor_client
               (txt "oss-cn-shanghai.aliyuncs.com") (txt "bucket") demo_dir
               eq_refl eq_refl eq_refl (fun _ => eq_refl) (fun _ _ => eq_refl)
               eq_refl eq_refl eq_refl (fun _ _ _ _ _ => eq_refl)
               (fun _ _ => eq_refl)
               doc_relative no_uploads (txt "out") tt eq_refl eq_refl _ eq_refl)))).
  intros n alt target [H | []]. injection H as <- <-. split; reflexivity.
Defined.
